(** * PGLoader: a shallow embedding of [PGLoader.py] and its specification

    The development follows the layout of the script:

    - [PyStr]   : the [str] methods the script calls
    - [Re]      : the pattern language of the one [re.match] call
    - [Url]     : the path component computed by [urllib.parse.urlparse]
    - the Reference Parser [parse_github_folder_url]
    - [OsPath]  : [os.path.join], [dirname] and [basename] on POSIX paths
    - [FS]      : the file system as a tree, with the calls of [os] and
                  [shutil] the script makes
    - the world (file system, clock, server, trace of what was observed)
      and the statements of the script as functions on it
    - the Resilient Fetcher [download_with_progress]
    - the Staged Materializer [extract_to_temp_and_move]
    - the Archive Filter and the Orchestrator [download_github_folder]
    - the command line [main]

    Strings are [string]s whose characters are the code points 0..255;
    a Python exception is a value of [exn], and a call that may raise
    returns a [result].  Statements with effects are functions from a
    world to a result and a world.  The second part states and proves
    the properties of the specification, component by component; the
    third part proves further properties of the code, from the parser
    to a whole run. *)

From Stdlib Require Import List String Ascii Bool Arith ZArith QArith Lia Lqa.
From Stdlib Require Import DecimalString Qpower.
Import ListNotations.
Local Open Scope string_scope.
Local Open Scope list_scope.

(* ===================================================================== *)
(** ** Exceptions and results *)
(* ===================================================================== *)

(** Error numbers of the [OSError] family raised by the file system calls. *)
Inductive oserr : Type :=
| ENOENT      (* FileNotFoundError *)
| EEXIST      (* FileExistsError *)
| ENOTDIR     (* NotADirectoryError *)
| EISDIR      (* IsADirectoryError *)
| EINVAL      (* moving a directory into itself *)
| ENOTEMPTY.  (* replacing a non-empty directory *)

Inductive exn : Type :=
| ValueError (msg : string)
| OverflowError (msg : string)
| IndexError
| KeyError (key : string)
| AttributeError (what : string)
| RequestException (what : string)   (* requests.exceptions.RequestException *)
| SocketTimeout                      (* socket.timeout *)
| OSError (code : oserr) (path : string)
| BadZipFile (what : string)
| PlainException (msg : string)      (* raise Exception(msg) *)
| KeyboardInterrupt.                 (* a BaseException, not an Exception *)

(** [except Exception] catches everything but [KeyboardInterrupt]. *)
Definition is_Exception (e : exn) : bool :=
  match e with
  | KeyboardInterrupt => false
  | _ => true
  end.

(** [except (requests.exceptions.RequestException, socket.timeout)]. *)
Definition is_network_error (e : exn) : bool :=
  match e with
  | RequestException _ | SocketTimeout => true
  | _ => false
  end.

Inductive result (A : Type) : Type :=
| Ok (a : A)
| Raise (e : exn).
Arguments Ok {A} a.
Arguments Raise {A} e.

Definition rbind {A B} (r : result A) (k : A -> result B) : result B :=
  match r with
  | Ok a => k a
  | Raise e => Raise e
  end.

Declare Scope result_scope.
Delimit Scope result_scope with result.
Notation "x <- c ;; k" := (rbind c (fun x => k))
  (at level 100, c at next level, right associativity) : result_scope.

(* ===================================================================== *)
(** ** The [str] methods used by the script *)
(* ===================================================================== *)

Module PyStr.

(** [c in chars] *)
Fixpoint mem (c : ascii) (chars : string) : bool :=
  match chars with
  | EmptyString => false
  | String d rest => Ascii.eqb c d || mem c rest
  end.

(** [s.rstrip(chars)] *)
Fixpoint rstrip (chars s : string) : string :=
  match s with
  | EmptyString => EmptyString
  | String c rest =>
      match rstrip chars rest with
      | EmptyString => if mem c chars then EmptyString else String c EmptyString
      | kept => String c kept
      end
  end.

(** [s.lstrip(chars)] *)
Fixpoint lstrip (chars s : string) : string :=
  match s with
  | EmptyString => EmptyString
  | String c rest => if mem c chars then lstrip chars rest else s
  end.

(** [s.strip(chars)] *)
Definition strip (chars s : string) : string := lstrip chars (rstrip chars s).

(** [s.split(sep)] for a one-character separator: never the empty list. *)
Fixpoint split (sep : ascii) (s : string) : list string :=
  match s with
  | EmptyString => [EmptyString]
  | String c rest =>
      if Ascii.eqb c sep then EmptyString :: split sep rest
      else match split sep rest with
           | hd :: tl => String c hd :: tl
           | [] => [String c EmptyString]
           end
  end.

(** [sep.join(parts)] *)
Fixpoint join (sep : string) (parts : list string) : string :=
  match parts with
  | [] => EmptyString
  | [p] => p
  | p :: rest => p ++ sep ++ join sep rest
  end.

(** [s.startswith(p)] *)
Definition startswith (s p : string) : bool := String.prefix p s.

(** [s.endswith(c)] for one character. *)
Fixpoint endswith_char (s : string) (c : ascii) : bool :=
  match s with
  | EmptyString => false
  | String d EmptyString => Ascii.eqb d c
  | String _ rest => endswith_char rest c
  end.

(** [s[n:]] *)
Fixpoint drop (n : nat) (s : string) : string :=
  match n, s with
  | O, _ => s
  | S _, EmptyString => EmptyString
  | S m, String _ rest => drop m rest
  end.

(** [s[:n]] *)
Fixpoint take (n : nat) (s : string) : string :=
  match n, s with
  | O, _ => EmptyString
  | S _, EmptyString => EmptyString
  | S m, String c rest => String c (take m rest)
  end.

(** [s.find(c)]: the index of the first [c], if any. *)
Fixpoint find (c : ascii) (s : string) : option nat :=
  match s with
  | EmptyString => None
  | String d rest =>
      if Ascii.eqb d c then Some O else option_map S (find c rest)
  end.

(** [s.rfind(c)]: the index of the last [c], if any. *)
Fixpoint rfind (c : ascii) (s : string) : option nat :=
  match s with
  | EmptyString => None
  | String d rest =>
      match rfind c rest with
      | Some i => Some (S i)
      | None => if Ascii.eqb d c then Some O else None
      end
  end.

(** [s.replace(c, "")] for every [c] selected by [p]. *)
Fixpoint remove (p : ascii -> bool) (s : string) : string :=
  match s with
  | EmptyString => EmptyString
  | String c rest => if p c then remove p rest else String c (remove p rest)
  end.

(** [all(p(c) for c in s)] *)
Fixpoint all (p : ascii -> bool) (s : string) : bool :=
  match s with
  | EmptyString => true
  | String c rest => p c && all p rest
  end.

(** [x in items] for a list of strings. *)
Definition in_list (x : string) (items : list string) : bool :=
  existsb (String.eqb x) items.

(** [items[i]]: raises [IndexError] out of range. *)
Definition getitem (items : list string) (i : nat) : result string :=
  match nth_error items i with
  | Some x => Ok x
  | None => Raise IndexError
  end.

(** [items[i:]]: never raises. *)
Definition slice_from (i : nat) (items : list string) : list string :=
  skipn i items.

End PyStr.

(* ===================================================================== *)
(** ** Character classes *)
(* ===================================================================== *)

Module Chr.

Definition code (c : ascii) : nat := nat_of_ascii c.

Definition between (lo hi : nat) (c : ascii) : bool :=
  (lo <=? code c)%nat && (code c <=? hi)%nat.

Definition is_ascii_alpha (c : ascii) : bool :=
  between 65 90 c || between 97 122 c.

Definition is_ascii_digit (c : ascii) : bool := between 48 57 c.

(** [str.isalnum] on the code points 128..255: the letters, the
    superscript digits and the vulgar fractions of Latin-1. *)
Definition is_latin1_alnum (c : ascii) : bool :=
  let n := code c in
  (n =? 170)%nat || (n =? 178)%nat || (n =? 179)%nat || (n =? 181)%nat
  || (n =? 185)%nat || (n =? 186)%nat || between 188 190 c
  || (between 192 255 c && negb (n =? 215)%nat && negb (n =? 247)%nat).

(** [\w] of a [str] pattern: alphanumeric or underscore. *)
Definition is_word (c : ascii) : bool :=
  is_ascii_alpha c || is_ascii_digit c || (code c =? 95)%nat
  || is_latin1_alnum c.

Definition lower (c : ascii) : ascii :=
  if between 65 90 c then ascii_of_nat (code c + 32) else c.

End Chr.

(* ===================================================================== *)
(** ** Patterns: what [re.match] is asked to decide *)
(* ===================================================================== *)

Module Re.

Inductive regex : Type :=
| Void                              (* matches nothing *)
| Eps                               (* matches the empty string *)
| Lit (c : ascii)                   (* one given character *)
| Class (p : ascii -> bool)         (* one character of a class *)
| Seq (r1 r2 : regex)
| Alt (r1 r2 : regex)
| Star (r : regex).

Definition Opt (r : regex) : regex := Alt r Eps.           (* r? *)
Definition Plus (r : regex) : regex := Seq r (Star r).     (* r+ *)

(** The literal string [s] as a pattern. *)
Fixpoint Str (s : string) : regex :=
  match s with
  | EmptyString => Eps
  | String c rest => Seq (Lit c) (Str rest)
  end.

Fixpoint nullable (r : regex) : bool :=
  match r with
  | Void => false
  | Eps => true
  | Lit _ => false
  | Class _ => false
  | Seq r1 r2 => nullable r1 && nullable r2
  | Alt r1 r2 => nullable r1 || nullable r2
  | Star _ => true
  end.

(** Brzozowski derivative: what is left of [r] after reading [c]. *)
Fixpoint deriv (c : ascii) (r : regex) : regex :=
  match r with
  | Void => Void
  | Eps => Void
  | Lit d => if Ascii.eqb c d then Eps else Void
  | Class p => if p c then Eps else Void
  | Seq r1 r2 =>
      if nullable r1
      then Alt (Seq (deriv c r1) r2) (deriv c r2)
      else Seq (deriv c r1) r2
  | Alt r1 r2 => Alt (deriv c r1) (deriv c r2)
  | Star r1 => Seq (deriv c r1) (Star r1)
  end.

(** [re.match(r, s) is not None]: some prefix of [s] is in the language
    of [r] (the match is anchored at the start, not at the end). *)
Fixpoint matches (r : regex) (s : string) : bool :=
  nullable r ||
  match s with
  | EmptyString => false
  | String c rest => matches (deriv c r) rest
  end.

End Re.

(* ===================================================================== *)
(** ** [urllib.parse.urlparse(url).path] *)
(* ===================================================================== *)

Module Url.
Import PyStr.

Definition is_c0_or_space (c : ascii) : bool := (Chr.code c <=? 32)%nat.

(** The characters [urlsplit] deletes wherever they stand: tab, LF, CR. *)
Definition is_unsafe (c : ascii) : bool :=
  let n := Chr.code c in (n =? 9)%nat || (n =? 10)%nat || (n =? 13)%nat.

Definition is_scheme_char (c : ascii) : bool :=
  Chr.is_ascii_alpha c || Chr.is_ascii_digit c || mem c "+-.".

Fixpoint lstrip_by (p : ascii -> bool) (s : string) : string :=
  match s with
  | EmptyString => EmptyString
  | String c rest => if p c then lstrip_by p rest else s
  end.

Fixpoint lower (s : string) : string :=
  match s with
  | EmptyString => EmptyString
  | String c rest => String (Chr.lower c) (lower rest)
  end.

(** The scheme, when the text before the first colon is one, and the rest. *)
Definition split_scheme (url : string) : string * string :=
  match find ":" url, url with
  | Some (S i), String c0 _ =>
      if Chr.is_ascii_alpha c0 && all is_scheme_char (take (S i) url)
      then (lower (take (S i) url), drop (S (S i)) url)
      else (EmptyString, url)
  | _, _ => (EmptyString, url)
  end.

(** The least index of a character of [stops] in [s], else [length s]. *)
Fixpoint first_of (stops : string) (s : string) : nat :=
  match s with
  | EmptyString => O
  | String c rest => if mem c stops then O else S (first_of stops rest)
  end.

(** [_splitnetloc(url, 2)] after a leading [//]. *)
Definition split_netloc (url : string) : string * string :=
  match url with
  | String "/" (String "/" rest) =>
      let d := first_of "/?#" rest in (take d rest, drop d rest)
  | _ => (EmptyString, url)
  end.

(** [s.split(c, 1)[0]] when [c] occurs in [s], else [s]. *)
Definition before (c : ascii) (s : string) : string :=
  match find c s with
  | Some i => take i s
  | None => s
  end.

(** [_splitparams]: parameters start at the first [;] of the last segment. *)
Definition strip_params (path : string) : string :=
  match rfind "/" path with
  | Some i =>
      match find ";" (drop i path) with
      | Some j => take (i + j) path
      | None => path
      end
  | None => before ";" path
  end.

Definition uses_params (scheme : string) : bool :=
  in_list scheme
    [""; "ftp"; "hdl"; "prospero"; "http"; "imap"; "https"; "shttp";
     "rtsp"; "rtspu"; "sip"; "sips"; "mms"; "sftp"; "tel"].

(** The [path] attribute of [urlparse(url)].  The bracket check on the
    authority, which raises for a malformed IPv6 literal, is left out:
    the only call site passes a locator that the pattern has accepted,
    whose authority is [github.com]. *)
Definition urlparse_path (url : string) : string :=
  let url := lstrip_by is_c0_or_space url in
  let url := remove is_unsafe url in
  let '(scheme, url) := split_scheme url in
  let '(_, url) := split_netloc url in
  let url := before "#" url in
  let url := before "?" url in
  if uses_params scheme then strip_params url else url.

End Url.

(* ===================================================================== *)
(** ** Reference Parser *)
(* ===================================================================== *)

Import PyStr.

(** [r"https?://github\.com/[\w-]+/[\w.-]+"] *)
Definition github_url_pattern : Re.regex :=
  Re.Seq (Re.Str "http")
  (Re.Seq (Re.Opt (Re.Lit "s"))
  (Re.Seq (Re.Str "://github.com/")
  (Re.Seq (Re.Plus (Re.Class (fun c => Chr.is_word c || mem c "-")))
  (Re.Seq (Re.Lit "/")
          (Re.Plus (Re.Class (fun c => Chr.is_word c || mem c ".-"))))))).

(** The two ref-selector keywords. *)
Definition ref_selectors : list string := ["tree"; "blob"].

(** [urlparse(url).path.strip("/").split("/")] *)
Definition path_parts_of (url : string) : list string :=
  split "/" (strip "/" (Url.urlparse_path url)).

Record coordinates : Type := Coordinates {
  owner : string;
  repo : string;
  branch : string;
  folder_path : string
}.

Definition parse_github_folder_url (url : string) : result coordinates :=
  let url := rstrip "/" url in
  if negb (Re.matches github_url_pattern url) then
    Raise (ValueError "Invalid GitHub URL")
  else
    let path_parts := path_parts_of url in
    if (List.length path_parts <? 2)%nat then
      Raise (ValueError "URL does not point to a GitHub repository")
    else
      (owner <- getitem path_parts 0 ;;
       repo <- getitem path_parts 1 ;;
       let branch := "main" in
       let folder_path := "" in
       if (2 <? List.length path_parts)%nat
          && match nth_error path_parts 2 with
             | Some third => in_list third ref_selectors
             | None => false
             end
       then
         branch <- (if (3 <? List.length path_parts)%nat
                    then getitem path_parts 3 else Ok branch) ;;
         let folder_path :=
           if (4 <? List.length path_parts)%nat
           then join "/" (slice_from 4 path_parts) else "" in
         Ok (Coordinates owner repo branch folder_path)
       else
         Ok (Coordinates owner repo branch folder_path))%result.


(* ===================================================================== *)
(** ** [os.path] on POSIX path strings *)
(* ===================================================================== *)

Module OsPath.
Import PyStr.

Definition sep : ascii := "/"%char.

(** [os.path.join(a, b)] *)
Definition join (a b : string) : string :=
  if startswith b "/" then b
  else if String.eqb a "" || endswith_char a sep
       then a ++ b
       else a ++ "/" ++ b.

(** The text up to and including the last separator, and the text after it. *)
Definition cut_last (p : string) : string * string :=
  match rfind sep p with
  | Some i => (take (S i) p, drop (S i) p)
  | None => (EmptyString, p)
  end.

(** [os.path.dirname(p)] *)
Definition dirname (p : string) : string :=
  let head := fst (cut_last p) in
  if negb (String.eqb head "") && negb (all (Ascii.eqb sep) head)
  then rstrip "/" head
  else head.

(** [os.path.basename(p)] *)
Definition basename (p : string) : string := snd (cut_last p).

End OsPath.

(* ===================================================================== *)
(** ** The file system: a tree of directories and files *)
(* ===================================================================== *)

Module FS.

#[warnings="-register-all"]
Inductive node : Type :=
| File (data : string)
| Dir (entries : list (string * node)).

(** A resolved location: the names from the root of the tree down. *)
Definition path : Type := list string.

Fixpoint assoc (k : string) (es : list (string * node)) : option node :=
  match es with
  | [] => None
  | (k', v) :: rest => if String.eqb k k' then Some v else assoc k rest
  end.

(** Replaces the entry in place, or adds it at the end. *)
Fixpoint assoc_put (k : string) (v : node) (es : list (string * node))
  : list (string * node) :=
  match es with
  | [] => [(k, v)]
  | (k', v') :: rest =>
      if String.eqb k k' then (k, v) :: rest
      else (k', v') :: assoc_put k v rest
  end.

Fixpoint assoc_del (k : string) (es : list (string * node))
  : list (string * node) :=
  match es with
  | [] => []
  | (k', v') :: rest =>
      if String.eqb k k' then assoc_del k rest
      else (k', v') :: assoc_del k rest
  end.

Fixpoint lookup (p : path) (n : node) : option node :=
  match p with
  | [] => Some n
  | s :: rest =>
      match n with
      | Dir es =>
          match assoc s es with
          | Some child => lookup rest child
          | None => None
          end
      | File _ => None
      end
  end.

(** Sets ([Some]) or removes ([None]) the entry at [p]; the parent of [p]
    has to be an existing directory, and [p] is not the root. *)
Fixpoint update (p : path) (v : option node) (n : node) : option node :=
  match p with
  | [] => None
  | s :: rest =>
      match n with
      | File _ => None
      | Dir es =>
          match rest with
          | [] =>
              Some (Dir (match v with
                         | Some child => assoc_put s child es
                         | None => assoc_del s es
                         end))
          | _ :: _ =>
              match assoc s es with
              | Some child =>
                  match update rest v child with
                  | Some child' => Some (Dir (assoc_put s child' es))
                  | None => None
                  end
              | None => None
              end
          end
      end
  end.

Definition is_dir (root : node) (p : path) : bool :=
  match lookup p root with
  | Some (Dir _) => true
  | _ => false
  end.

Definition is_file (root : node) (p : path) : bool :=
  match lookup p root with
  | Some (File _) => true
  | _ => false
  end.

Definition present (root : node) (p : path) : bool :=
  match lookup p root with
  | Some _ => true
  | None => false
  end.

Definition is_trivial (seg : string) : bool :=
  String.eqb seg "" || String.eqb seg ".".

Definition is_dotdot (seg : string) : bool := String.eqb seg "..".

(** One component of a path, from the directory [cur]. *)
Definition step (cur : path) (seg : string) : path :=
  if is_trivial seg then cur
  else if is_dotdot seg then removelast cur
  else cur ++ [seg].

(** Resolution component by component, as the kernel does it without
    symbolic links: every component is looked up in an existing
    directory; the last one may name an entry that does not exist. *)
Fixpoint walk (root : node) (cur : path) (segs : list string) : option path :=
  match segs with
  | [] => Some cur
  | seg :: rest =>
      if is_dir root cur then walk root (step cur seg) rest else None
  end.

Definition is_absolute (s : string) : bool := PyStr.startswith s "/".

Definition start (cwd : path) (s : string) : path :=
  if is_absolute s then [] else cwd.

(** The location a path string names; the empty string names nothing. *)
Definition resolve (root : node) (cwd : path) (s : string) : option path :=
  if String.eqb s "" then None
  else walk root (start cwd s) (PyStr.split "/" s).

(** [os.makedirs(s, exist_ok=True)] from [cur], component by component:
    a missing directory is made, an existing one is entered, a file in
    the way is an error.  Returns whether it got to the end, and the
    tree with the directories made up to there. *)
Fixpoint makedirs_from (root : node) (cur : path) (segs : list string)
  : bool * node :=
  match segs with
  | [] => (true, root)
  | seg :: rest =>
      if is_trivial seg then makedirs_from root cur rest
      else if is_dotdot seg then makedirs_from root (removelast cur) rest
      else
        let next := cur ++ [seg] in
        match lookup next root with
        | Some (Dir _) => makedirs_from root next rest
        | Some (File _) => (false, root)
        | None =>
            match update next (Some (Dir [])) root with
            | Some root' => makedirs_from root' next rest
            | None => (false, root)
            end
        end
  end.

Definition makedirs (root : node) (cwd : path) (s : string)
  : result unit * node :=
  if String.eqb s "" then (Raise (OSError ENOENT s), root)
  else if negb (is_dir root (start cwd s)) then (Raise (OSError ENOENT s), root)
  else match makedirs_from root (start cwd s) (PyStr.split "/" s) with
       | (true, root') => (Ok tt, root')
       | (false, root') => (Raise (OSError EEXIST s), root')
       end.

(** [os.path.exists(s)] *)
Definition exists_ (root : node) (cwd : path) (s : string) : bool :=
  match resolve root cwd s with
  | Some p => present root p
  | None => false
  end.

(** [os.path.isdir(s)] *)
Definition isdir (root : node) (cwd : path) (s : string) : bool :=
  match resolve root cwd s with
  | Some p => is_dir root p
  | None => false
  end.

(** [os.listdir(s)] *)
Definition listdir (root : node) (cwd : path) (s : string)
  : result (list string) :=
  match resolve root cwd s with
  | Some p =>
      match lookup p root with
      | Some (Dir es) => Ok (map fst es)
      | Some (File _) => Raise (OSError ENOTDIR s)
      | None => Raise (OSError ENOENT s)
      end
  | None => Raise (OSError ENOENT s)
  end.

(** [open(s, "wb")] followed by one [write(data)]: the file is created
    or replaced. *)
Definition write_file (root : node) (cwd : path) (s data : string)
  : result node :=
  match resolve root cwd s with
  | Some p =>
      match lookup p root with
      | Some (Dir _) => Raise (OSError EISDIR s)
      | _ =>
          match update p (Some (File data)) root with
          | Some root' => Ok root'
          | None => Raise (OSError ENOENT s)
          end
      end
  | None => Raise (OSError ENOENT s)
  end.

(** [os.unlink(s)] *)
Definition unlink (root : node) (cwd : path) (s : string) : result node :=
  match resolve root cwd s with
  | Some p =>
      match lookup p root with
      | Some (File _) =>
          match update p None root with
          | Some root' => Ok root'
          | None => Raise (OSError ENOENT s)
          end
      | Some (Dir _) => Raise (OSError EISDIR s)
      | None => Raise (OSError ENOENT s)
      end
  | None => Raise (OSError ENOENT s)
  end.

(** [shutil.rmtree(s, ignore_errors=True)]: removes a directory with all
    it holds; anything else is an error, and errors are ignored. *)
Definition rmtree_ignore_errors (root : node) (cwd : path) (s : string)
  : node :=
  match resolve root cwd s with
  | Some p =>
      match lookup p root, p with
      | Some (Dir _), [] => Dir []
      | Some (Dir _), _ :: _ =>
          match update p None root with
          | Some root' => root'
          | None => root
          end
      | _, _ => root
      end
  | None => root
  end.

Fixpoint is_prefix (p q : path) : bool :=
  match p, q with
  | [], _ => true
  | _ :: _, [] => false
  | a :: p', b :: q' => String.eqb a b && is_prefix p' q'
  end.

Definition same_path (p q : path) : bool := is_prefix p q && is_prefix q p.

(** [os.rename(src, dst)] *)
Definition rename (root : node) (cwd : path) (src dst : string)
  : result node :=
  match resolve root cwd src, resolve root cwd dst with
  | Some ps, Some pd =>
      match lookup ps root with
      | None => Raise (OSError ENOENT src)
      | Some moved =>
          if same_path ps pd then Ok root
          else if is_prefix ps pd then Raise (OSError EINVAL dst)
          else
            match moved, lookup pd root with
            | File _, Some (Dir _) => Raise (OSError EISDIR dst)
            | Dir _, Some (File _) => Raise (OSError ENOTDIR dst)
            | Dir _, Some (Dir (_ :: _)) => Raise (OSError ENOTEMPTY dst)
            | _, _ =>
                match update ps None root with
                | Some root1 =>
                    match update pd (Some moved) root1 with
                    | Some root2 => Ok root2
                    | None => Raise (OSError ENOENT dst)
                    end
                | None => Raise (OSError ENOENT src)
                end
            end
      end
  | None, _ => Raise (OSError ENOENT src)
  | _, None => Raise (OSError ENOENT dst)
  end.

(** [shutil.move(src, dst)] on one volume: into [dst] when it is a
    directory, onto [dst] otherwise.  The copy that [shutil.move] falls
    back on when the rename fails is taken to fail with it. *)
Definition move (root : node) (cwd : path) (src dst : string)
  : result node :=
  if isdir root cwd dst then
    if match resolve root cwd src, resolve root cwd dst with
       | Some ps, Some pd => present root ps && same_path ps pd
       | _, _ => false
       end
    then rename root cwd src dst
    else
      let real_dst :=
        OsPath.join dst (OsPath.basename (PyStr.rstrip "/" src)) in
      if exists_ root cwd real_dst
      then Raise (OSError EEXIST real_dst)
      else rename root cwd src real_dst
  else rename root cwd src dst.

End FS.

(* ===================================================================== *)
(** ** The world the script runs in *)
(* ===================================================================== *)

(** What one [requests.get] and the reading of its body come to. *)
Inductive outcome : Type :=
| Respond (chunks : list string)   (* a 2xx answer, its body in chunks *)
| Fail (e : exn).                  (* get, raise_for_status or the stream raised *)

(** [io.BytesIO]: the bytes and the position of the next read or write. *)
Record bytesio : Type := BytesIO {
  buf : string;
  pos : nat
}.

(** One entry of an archive, with what reading it yields. *)
Inductive body : Type :=
| Stored (data : string)
| BadOpen (e : exn)    (* [zip_ref.open] raises *)
| BadRead (e : exn).   (* [source.read] raises *)

Record member : Type := Member {
  m_name : string;
  m_body : body
}.

Definition archive : Type := list member.

(** The lines the script prints, one constructor per [print]. *)
Inductive message : Type :=
| MsgConnectionError (e : exn)
| MsgRetrying (wait : Q) (attempt retries : Z)
| MsgFailedAfter (retries : Z) (e : exn)
| MsgFound (count : nat)
| MsgWarnExtract (file : string) (e : exn)
| MsgMoving
| MsgWarnMove (item : string) (e : exn)
| MsgNoteCleanup (temp_dir : string)
| MsgTarget (folder owner repo branch : string)
| MsgSource (url : string)
| MsgAlternative
| MsgPreparing
| MsgSuccess (output_dir : string)
| MsgError (e : exn).

(** A Python [float] is a rational [m * 2^e] with [|m| < 2^53] and
    [-1074 <= e <= 971]; the numbers of the script are such rationals. *)
Module Float.

(** The exponent of the largest power of two that divides [n > 0]. *)
Definition trailing_zeros (n : Z) : Z := Z.log2 (Z.land n (- n)).

(** The number of binary digits of [n > 0]. *)
Definition bits (n : Z) : Z := (Z.log2 n + 1)%Z.

(** [q] is a float: in lowest terms its denominator is a power of two,
    and its odd part and exponent fit. *)
Definition representable (q : Q) : bool :=
  let q := Qred q in
  let n := Z.abs (Qnum q) in
  let d := Zpos (Qden q) in
  if (n =? 0)%Z then true
  else
    let t := trailing_zeros n in
    let m := Z.shiftr n t in
    let e := (t - Z.log2 d)%Z in
    (2 ^ Z.log2 d =? d)%Z
    && (bits m <=? 53)%Z && (-1074 <=? e)%Z && (bits m + e <=? 1024)%Z.

End Float.

(** What the script does that can be observed from outside, in order. *)
Inductive event : Type :=
| Requested (url : string) (timeout : Z)   (* requests.get *)
| Slept (seconds : Q)                      (* time.sleep *)
| Printed (m : message).                   (* print *)

Record world : Type := World {
  w_root : FS.node;                       (* the file system *)
  w_cwd : FS.path;                        (* the working directory *)
  w_clock : Z;                            (* int(time.time()) *)
  w_server : nat -> string -> outcome;    (* the n-th request, to a URL *)
  w_unzip : string -> result archive;     (* zipfile.ZipFile on the bytes *)
  w_pow : Q -> Z -> result Q;             (* the C library's pow, where it rounds *)
  w_trace : list event                    (* what has happened so far *)
}.

Definition set_root (w : world) (root : FS.node) : world :=
  World root (w_cwd w) (w_clock w) (w_server w) (w_unzip w) (w_pow w)
        (w_trace w).

Definition add_event (w : world) (e : event) : world :=
  World (w_root w) (w_cwd w) (w_clock w) (w_server w) (w_unzip w) (w_pow w)
        (w_trace w ++ [e]).

Definition is_request (e : event) : bool :=
  match e with
  | Requested _ _ => true
  | _ => false
  end.

(** The number of requests made so far. *)
Definition requests_made (w : world) : nat :=
  List.length (filter is_request (w_trace w)).

(** A statement: it reads and changes the world and returns or raises. *)
Definition M (A : Type) : Type := world -> result A * world.

Definition ret {A} (a : A) : M A := fun w => (Ok a, w).

Definition raise {A} (e : exn) : M A := fun w => (Raise e, w).

Definition bind {A B} (m : M A) (k : A -> M B) : M B :=
  fun w =>
    match m w with
    | (Ok a, w') => k a w'
    | (Raise e, w') => (Raise e, w')
    end.

Declare Scope py_scope.
Delimit Scope py_scope with py.
Notation "x <- c ;; k" := (bind c (fun x => k))
  (at level 100, c at next level, right associativity) : py_scope.
Notation "c ;; k" := (bind c (fun _ => k))
  (at level 100, right associativity) : py_scope.

(** [try: body / except <caught>: handler]. *)
Definition try_except {A} (caught : exn -> bool) (body : M A)
  (handler : exn -> M A) : M A :=
  fun w =>
    match body w with
    | (Raise e, w') => if caught e then handler e w' else (Raise e, w')
    | done => done
    end.

(** [try: body / finally: cleanup]; an exception of [cleanup] replaces the
    outcome of [body]. *)
Definition try_finally {A} (body : M A) (cleanup : M unit) : M A :=
  fun w =>
    match body w with
    | (r, w') =>
        match cleanup w' with
        | (Ok _, w'') => (r, w'')
        | (Raise e, w'') => (Raise e, w'')
        end
    end.

(** [for x in items: body(x)] *)
Fixpoint for_each {A} (items : list A) (body : A -> M unit) : M unit :=
  match items with
  | [] => ret tt
  | x :: rest => (body x ;; for_each rest body)%py
  end.

Definition lift {A} (r : result A) : M A := fun w => (r, w).

Definition print (m : message) : M unit :=
  fun w => (Ok tt, add_event w (Printed m)).

(** [time.sleep(seconds)].  The seconds are brought to nanoseconds, a
    float again, which has to lie between [- 2^63] and [2^63]; a negative
    number is refused after that.  Below [2^63] the floats are 1024 apart
    and below [- 2^63] they are 2048 apart, and a product halfway is
    rounded to [2^63] and to [- 2^63].  (A wait that passes these tests
    is taken to end; on Linux the kernel refuses one that ends more than
    some 292 years after the machine was started.) *)
Definition sleep (seconds : Q) : M unit :=
  fun w =>
    let ns := (seconds * inject_Z (10 ^ 9))%Q in
    if negb (Qle_bool (inject_Z (- 2 ^ 63 - 1024)) ns
             && negb (Qle_bool (inject_Z (2 ^ 63 - 512)) ns))
    then (Raise (OverflowError "timestamp too large to convert to C _PyTime_t"),
          w)
    else if negb (Qle_bool 0 seconds)
    then (Raise (ValueError "sleep length must be non-negative"), w)
    else (Ok tt, add_event w (Slept seconds)).

(** [int(time.time())] *)
Definition now : M Z := fun w => (Ok (w_clock w), w).

(** File system calls as statements. *)
Definition fs_call (f : FS.node -> FS.path -> result FS.node) : M unit :=
  fun w =>
    match f (w_root w) (w_cwd w) with
    | Ok root' => (Ok tt, set_root w root')
    | Raise e => (Raise e, w)
    end.

Definition fs_read {A} (f : FS.node -> FS.path -> A) : M A :=
  fun w => (Ok (f (w_root w) (w_cwd w)), w).

Definition os_makedirs (s : string) : M unit :=
  fun w =>
    match FS.makedirs (w_root w) (w_cwd w) s with
    | (r, root') => (r, set_root w root')
    end.
Definition os_path_exists (s : string) : M bool :=
  fs_read (fun root cwd => FS.exists_ root cwd s).
Definition os_path_isdir (s : string) : M bool :=
  fs_read (fun root cwd => FS.isdir root cwd s).
Definition os_listdir (s : string) : M (list string) :=
  fun w => (FS.listdir (w_root w) (w_cwd w) s, w).
Definition os_unlink (s : string) : M unit :=
  fs_call (fun root cwd => FS.unlink root cwd s).
Definition shutil_rmtree_ignore_errors (s : string) : M unit :=
  fs_call (fun root cwd => Ok (FS.rmtree_ignore_errors root cwd s)).
Definition shutil_move (src dst : string) : M unit :=
  fs_call (fun root cwd => FS.move root cwd src dst).
Definition write_file (s data : string) : M unit :=
  fs_call (fun root cwd => FS.write_file root cwd s data).

(* ===================================================================== *)
(** ** Resilient Fetcher *)
(* ===================================================================== *)

(** [requests.get(url, stream=True, timeout=timeout)] up to the last chunk
    of the body: the request is recorded, the server decides. *)
Definition request (url : string) (timeout : Z) : M (list string) :=
  fun w =>
    let w' := add_event w (Requested url timeout) in
    match w_server w (requests_made w) url with
    | Respond chunks => (Ok chunks, w')
    | Fail e => (Raise e, w')
    end.

(** [content.write(chunk)] *)
Definition bytesio_write (content : bytesio) (chunk : string) : bytesio :=
  BytesIO (PyStr.take (pos content) (buf content) ++ chunk
           ++ PyStr.drop (pos content + String.length chunk) (buf content))
          (pos content + String.length chunk).

(** [content.seek(0)] *)
Definition bytesio_seek0 (content : bytesio) : bytesio :=
  BytesIO (buf content) 0.

(** The loop over [response.iter_content]: empty chunks are passed over. *)
Definition read_chunks (chunks : list string) : bytesio :=
  fold_left
    (fun content chunk =>
       if String.eqb chunk "" then content else bytesio_write content chunk)
    chunks (BytesIO "" 0).

(** [backoff_factor ** current_retry], a float to the power of an [int]:
    the power itself where that is a float, in lowest terms; where it is
    not, what the C library's [pow] makes of it, a float next to it or an
    [OverflowError]. *)
Definition power (backoff_factor : Q) (current_retry : Z) : M Q :=
  fun w =>
    let exact := Qpower backoff_factor current_retry in
    if Float.representable exact then (Ok (Qred exact), w)
    else (w_pow w backoff_factor current_retry, w).

(** The [while current_retry <= retries] loop; [fuel] bounds the number of
    iterations, and [None] is returned only when it runs out.  A Python
    function that falls off its end returns [None], here [Ok None].  What
    the statements of the [except] block raise leaves the function. *)
Fixpoint retry_loop (fuel : nat) (url : string) (timeout retries : Z)
  (backoff_factor : Q) (current_retry : Z) (w : world)
  : option (result (option bytesio) * world) :=
  if (current_retry <=? retries)%Z then
    match fuel with
    | O => None
    | S fuel' =>
        match request url timeout w with
        | (Ok chunks, w1) =>
            Some (Ok (Some (bytesio_seek0 (read_chunks chunks))), w1)
        | (Raise e, w1) =>
            if is_network_error e then
              let current_retry := (current_retry + 1)%Z in
              if (current_retry <=? retries)%Z then
                match (wait_time <- power backoff_factor current_retry ;;
                       print (MsgConnectionError e) ;;
                       print (MsgRetrying wait_time current_retry retries) ;;
                       sleep wait_time)%py w1 with
                | (Ok _, w2) =>
                    retry_loop fuel' url timeout retries backoff_factor
                               current_retry w2
                | (Raise raised, w2) => Some (Raise raised, w2)
                end
              else
                match print (MsgFailedAfter retries e) w1 with
                | (_, w2) => Some (Raise e, w2)
                end
            else Some (Raise e, w1)
        end
    end
  else Some (Ok None, w).

(** As many iterations as [current_retry] can take from 0 to [retries]. *)
Definition retry_fuel (retries : Z) : nat := Z.to_nat (retries + 1).

Definition download_with_progress (url : string) (timeout retries : Z)
  (backoff_factor : Q) : M (option bytesio) :=
  fun w =>
    match retry_loop (retry_fuel retries) url timeout retries backoff_factor
                     0%Z w with
    | Some done => done
    | None => (Ok None, w)
    end.

(** The defaults of the signature. *)
Definition default_timeout : Z := 30.
Definition default_retries : Z := 3.
Definition default_backoff : Q := 15 # 10.

(* ===================================================================== *)
(** ** Archives *)
(* ===================================================================== *)

(** [zip_ref.namelist()]: every entry, in the order of the archive. *)
Definition namelist (zip_ref : archive) : list string := map m_name zip_ref.

(** [zip_ref.getinfo(name)]: of several entries of one name, the last. *)
Fixpoint getinfo (zip_ref : archive) (name : string) : option member :=
  match zip_ref with
  | [] => None
  | m :: rest =>
      match getinfo rest name with
      | Some later => Some later
      | None => if String.eqb (m_name m) name then Some m else None
      end
  end.

(** [zip_ref.open(name)] *)
Definition zip_open (zip_ref : archive) (name : string) : M body :=
  match getinfo zip_ref name with
  | None => raise (KeyError name)
  | Some m =>
      match m_body m with
      | BadOpen e => raise e
      | b => ret b
      end
  end.

(** [source.read()] *)
Definition zip_read (source : body) : M string :=
  match source with
  | Stored data => ret data
  | BadRead e => raise e
  | BadOpen e => raise e
  end.

(** [zipfile.ZipFile(zip_content)] *)
Definition zipfile_ZipFile (zip_content : option bytesio) : M archive :=
  match zip_content with
  | Some content => fun w => (w_unzip w (buf content), w)
  | None => raise (AttributeError "seek")
  end.

(* ===================================================================== *)
(** ** Staged Materializer *)
(* ===================================================================== *)

Definition sanitize_path (path : string) : string := PyStr.rstrip "/\" path.

Definition string_of_Z (z : Z) : string :=
  NilZero.string_of_int (Z.to_int z).

(** [f"temp_extract_{int(time.time())}"] *)
Definition staging_name (stamp : Z) : string :=
  "temp_extract_" ++ string_of_Z stamp.

(** [os.path.join(os.path.dirname(output_dir), f"temp_extract_{...}")] *)
Definition staging_dir (output_dir : string) (stamp : Z) : string :=
  OsPath.join (OsPath.dirname output_dir) (staging_name stamp).

(** [file[len(folder_prefix):]] *)
Definition relative_to (folder_prefix file : string) : string :=
  PyStr.drop (String.length folder_prefix) file.

(** Where the body of the extraction loop writes a member. *)
Definition target_file_path (temp_dir folder_prefix file : string) : string :=
  OsPath.join temp_dir (sanitize_path (relative_to folder_prefix file)).

(** The statements under the [try] of the extraction loop. *)
Definition extract_body (zip_ref : archive) (temp_dir folder_prefix : string)
  (file : string) : M unit :=
  (let rel_path := relative_to folder_prefix file in
   if String.eqb rel_path "" then ret tt
   else
     let target := target_file_path temp_dir folder_prefix file in
     os_makedirs (OsPath.dirname target) ;;
     source <- zip_open zip_ref file ;;
     write_file target "" ;;
     data <- zip_read source ;;
     write_file target data)%py.

(** The body of the extraction loop, with its [try] and [except]. *)
Definition extract_one (zip_ref : archive) (temp_dir folder_prefix : string)
  (file : string) : M unit :=
  try_except is_Exception
    (extract_body zip_ref temp_dir folder_prefix file)
    (fun e => print (MsgWarnExtract file e)).

(** [if os.path.exists(dst_path): ...]: what is in the way is removed. *)
Definition remove_existing (dst_path : string) : M unit :=
  (there <- os_path_exists dst_path ;;
   if there : bool then
     is_d <- os_path_isdir dst_path ;;
     if is_d : bool then shutil_rmtree_ignore_errors dst_path
     else os_unlink dst_path
   else ret tt)%py.

(** The body of the move loop. *)
Definition move_item (temp_dir output_dir : string) (item : string) : M unit :=
  (let src_path := OsPath.join temp_dir item in
   let dst_path := OsPath.join output_dir item in
   remove_existing dst_path ;;
   try_except is_Exception
     (shutil_move src_path dst_path)
     (fun e => print (MsgWarnMove item e)))%py.

(** The statements under [try:], up to the end of the extraction loop. *)
Definition extract_phase (zip_ref : archive) (target_files : list string)
  (folder_prefix temp_dir : string) : M unit :=
  (os_makedirs temp_dir ;;
   print (MsgFound (List.length target_files)) ;;
   for_each target_files (extract_one zip_ref temp_dir folder_prefix))%py.

(** The statements under [try:] after the extraction loop. *)
Definition move_phase (temp_dir output_dir : string) : M unit :=
  (print MsgMoving ;;
   os_makedirs output_dir ;;
   items <- os_listdir temp_dir ;;
   for_each items (move_item temp_dir output_dir))%py.

(** The [finally:] block. *)
Definition cleanup (temp_dir : string) : M unit :=
  (there <- os_path_exists temp_dir ;;
   if there : bool then
     try_except (fun _ => true)
       (shutil_rmtree_ignore_errors temp_dir)
       (fun _ => print (MsgNoteCleanup temp_dir))
   else ret tt)%py.

Definition extract_to_temp_and_move (zip_ref : archive)
  (target_files : list string) (folder_prefix output_dir : string) : M unit :=
  (stamp <- now ;;
   let temp_dir := staging_dir output_dir stamp in
   try_finally
     (extract_phase zip_ref target_files folder_prefix temp_dir ;;
      move_phase temp_dir output_dir)
     (cleanup temp_dir))%py.

(* ===================================================================== *)
(** ** Archive Filter and Orchestrator *)
(* ===================================================================== *)

(** [repo_dir_prefix + folder_path + "/" if folder_path else repo_dir_prefix] *)
Definition folder_prefix_of (repo branch folder_path : string) : string :=
  let repo_dir_prefix := (repo ++ "-" ++ branch ++ "/")%string in
  if negb (String.eqb folder_path "")
  then (repo_dir_prefix ++ folder_path ++ "/")%string
  else repo_dir_prefix.

(** The list comprehension over [zip_ref.namelist()]. *)
Definition select_members (zip_ref : archive) (folder_prefix : string)
  : list string :=
  filter
    (fun file =>
       PyStr.startswith file folder_prefix
       && negb (String.eqb file folder_prefix))
    (namelist zip_ref).

Definition not_found (folder_path : string) : exn :=
  PlainException ("Folder '" ++ folder_path ++ "' not found in repository").

(** The Archive Filter: the selection, or the error raised when it is empty. *)
Definition archive_filter (zip_ref : archive) (folder_path folder_prefix : string)
  : result (list string) :=
  match select_members zip_ref folder_prefix with
  | [] => Raise (not_found folder_path)
  | target_files => Ok target_files
  end.

Definition primary_url (c : coordinates) : string :=
  "https://codeload.github.com/" ++ owner c ++ "/" ++ repo c
  ++ "/zip/refs/heads/" ++ branch c.

Definition secondary_url (c : coordinates) : string :=
  "https://github.com/" ++ owner c ++ "/" ++ repo c ++ "/archive/"
  ++ branch c ++ ".zip".

(** The inner [try] around the first download. *)
Definition fetch_archive (c : coordinates) : M (option bytesio) :=
  try_except is_Exception
    (download_with_progress (primary_url c)
       default_timeout default_retries default_backoff)
    (fun _ =>
       print MsgAlternative ;;
       download_with_progress (secondary_url c)
         default_timeout default_retries default_backoff)%py.

Definition default_output_dir (c : coordinates) : string :=
  if negb (String.eqb (folder_path c) "")
  then OsPath.basename (folder_path c)
  else repo c.

Definition download_github_folder (url : string) (output_dir : option string)
  : M bool :=
  try_except is_Exception
    (c <- lift (parse_github_folder_url url) ;;
     let output_dir :=
       match output_dir with
       | None => default_output_dir c
       | Some given => given
       end in
     let output_dir := sanitize_path output_dir in
     print (MsgTarget (if negb (String.eqb (folder_path c) "")
                       then folder_path c else "root")
                      (owner c) (repo c) (branch c)) ;;
     print (MsgSource (primary_url c)) ;;
     zip_content <- fetch_archive c ;;
     print MsgPreparing ;;
     zip_ref <- zipfile_ZipFile zip_content ;;
     let folder_prefix := folder_prefix_of (repo c) (branch c) (folder_path c) in
     target_files <- lift (archive_filter zip_ref (folder_path c) folder_prefix) ;;
     extract_to_temp_and_move zip_ref target_files folder_prefix output_dir ;;
     print (MsgSuccess output_dir) ;;
     ret true)%py
    (fun e => print (MsgError e) ;; ret false)%py.

(* ===================================================================== *)
(** ** The command line *)
(* ===================================================================== *)

(** The characters [str.isspace] holds of, among the code points 0..255:
    the characters [s.strip()] removes. *)
Definition whitespace : string :=
  string_of_list_ascii
    (map ascii_of_nat [9; 10; 11; 12; 13; 28; 29; 30; 31; 32; 133; 160]%nat).

(** [c.lower()] on the code points 0..255. *)
Definition lower_char (c : ascii) : ascii :=
  if Chr.between 65 90 c
     || (Chr.between 192 222 c && negb (Chr.code c =? 215)%nat)
  then ascii_of_nat (Chr.code c + 32)
  else c.

(** [s.lower()] *)
Fixpoint str_lower (s : string) : string :=
  match s with
  | EmptyString => EmptyString
  | String c rest => String (lower_char c) (str_lower rest)
  end.

(** What [parser.parse_args()] returns. *)
Record arguments : Type := Arguments {
  a_url : string;
  a_output : option string;   (* -o, --output *)
  a_timeout : Z;              (* -t, --timeout, 60 when not given *)
  a_retries : Z;              (* -r, --retries, 3 when not given *)
  a_force : bool              (* -f, --force *)
}.

(** The lines [main] itself writes, the prompt of [input] among them. *)
Inductive cli_line : Type :=
| LineTitle
| LineRule
| LineExists (output : string)
| LinePrompt
| LineCancelled
| LineInterrupted.

(** How the process ends: [sys.exit(code)], or an exception that nothing
    catches. *)
Inductive ending : Type :=
| Exit (code : Z)
| Uncaught (e : exn).

(** The [try] at the end of [main]; [lines] is what [main] has written
    before it. *)
Definition run_and_exit (args : arguments) (lines : list cli_line) (w : world)
  : ending * list cli_line * world :=
  match download_github_folder (a_url args) (a_output args) w with
  | (Ok result, w') => (Exit (if result : bool then 0 else 1), lines, w')
  | (Raise KeyboardInterrupt, w') => (Exit 1, lines ++ [LineInterrupted], w')
  | (Raise e, w') => (Uncaught e, lines, w')
  end.

(** [main()], from the parsed arguments on; [typed] is what [input]
    returns, or raises, if it is called. *)
Definition main (args : arguments) (typed : result string) (w : world)
  : ending * list cli_line * world :=
  let banner := [LineTitle; LineRule] in
  match a_output args with
  | Some output =>
      if negb (String.eqb output "")
         && FS.exists_ (w_root w) (w_cwd w) output
         && negb (a_force args)
      then
        let asked := banner ++ [LineExists output; LinePrompt] in
        match typed with
        | Raise e => (Uncaught e, asked, w)
        | Ok line =>
            let response := str_lower (strip whitespace line) in
            if negb (String.eqb response "y")
            then (Exit 0, asked ++ [LineCancelled], w)
            else run_and_exit args asked w
        end
      else run_and_exit args banner w
  | None => run_and_exit args banner w
  end.

(** [main] asks before it overwrites. *)
Definition asks (args : arguments) (w : world) : bool :=
  match a_output args with
  | Some output =>
      negb (String.eqb output "")
      && FS.exists_ (w_root w) (w_cwd w) output
      && negb (a_force args)
  | None => false
  end.

(* ===================================================================== *)
(** ** Vocabulary of the statements *)
(* ===================================================================== *)

(** What the parser returns for a locator that has passed both checks,
    read off the list of path segments. *)
Definition coordinates_of (parts : list string) : coordinates :=
  match parts with
  | o :: r :: third :: rest =>
      if in_list third ref_selectors
      then Coordinates o r
             (match rest with rev :: _ => rev | [] => "main" end)
             (join "/" (skipn 1 rest))
      else Coordinates o r "main" ""
  | o :: r :: [] => Coordinates o r "main" ""
  | _ => Coordinates "" "" "main" ""
  end.

(** The outcome of the [k]-th request, counted from 0, that a call to the
    Fetcher starting in world [w] makes to [url]. *)
Definition attempt (w : world) (url : string) (k : nat) : outcome :=
  w_server w (requests_made w + k) url.

(** A failure the retry loop catches. *)
Definition network_failure (o : outcome) : Prop :=
  exists e, o = Fail e /\ is_network_error e = true.

(** Requests and waits, without the lines printed. *)
Definition is_activity (e : event) : bool :=
  match e with
  | Printed _ => false
  | _ => true
  end.

Definition activity (w : world) : list event := filter is_activity (w_trace w).

Definition printed (w : world) : list message :=
  flat_map (fun e => match e with Printed m => [m] | _ => [] end) (w_trace w).

(** [b] multiplied [n] times with itself. *)
Fixpoint nth_power (b : Q) (n : nat) : Q :=
  match n with
  | O => 1%Q
  | S n' => (b * nth_power b n')%Q
  end.

(** The wait after the failed attempt number [k]: the multiplier to the
    power of [k], in lowest terms. *)
Definition wait (backoff_factor : Q) (k : Z) : Q :=
  Qred (nth_power backoff_factor (Z.to_nat k)).

(** The longest wait the statements consider, in seconds: some 136
    years. *)
Definition max_wait : Q := inject_Z (2 ^ 32).

(** The wait after the failed attempt number [k] is plain: the power is a
    float, so that nothing is rounded, it is not negative, and it is at
    most [max_wait]. *)
Definition plain_wait (backoff_factor : Q) (k : Z) : bool :=
  Float.representable (nth_power backoff_factor (Z.to_nat k))
  && Qle_bool 0 (nth_power backoff_factor (Z.to_nat k))
  && Qle_bool (nth_power backoff_factor (Z.to_nat k)) max_wait.

(** [n] failed attempts, each followed by its wait, when the attempt
    counter stood at [from] before the first of them. *)
Definition failed_attempts (url : string) (timeout : Z) (backoff_factor : Q)
  (from : Z) (n : nat) : list event :=
  flat_map
    (fun k => [Requested url timeout;
               Slept (wait backoff_factor (from + Z.of_nat k))])
    (seq 1 n).

(** The parts of the world no statement of the script changes. *)
Definition same_setting (w w' : world) : Prop :=
  w_cwd w' = w_cwd w /\ w_clock w' = w_clock w
  /\ w_server w' = w_server w /\ w_unzip w' = w_unzip w.

(** The world after a failed attempt that is to be retried: the request,
    the two lines printed and the wait. *)
Definition after_retry (url : string) (timeout retries : Z)
  (backoff_factor : Q) (current_retry : Z) (e : exn) (w : world) : world :=
  let wait_time := wait backoff_factor (current_retry + 1) in
  add_event
    (add_event
       (add_event (add_event w (Requested url timeout))
                  (Printed (MsgConnectionError e)))
       (Printed (MsgRetrying wait_time (current_retry + 1)%Z retries)))
    (Slept wait_time).

(** [w'] is [w] after the requests and waits [done], with the file system
    as it was. *)
Definition fetched (w w' : world) (done : list event) : Prop :=
  activity w' = (activity w ++ done)%list
  /\ w_root w' = w_root w
  /\ same_setting w w'.

(** [l1] is [l2] with some elements left out, the others in their order. *)
Inductive subsequence {A : Type} : list A -> list A -> Prop :=
| subsequence_nil : subsequence [] []
| subsequence_skip x l1 l2 : subsequence l1 l2 -> subsequence l1 (x :: l2)
| subsequence_keep x l1 l2 : subsequence l1 l2 -> subsequence (x :: l1) (x :: l2).

(** The test of the Archive Filter, in the words of the spec: the path
    starts with the prefix and is not the prefix. *)
Definition under_prefix (folder_prefix file : string) : Prop :=
  (exists rest, file = (folder_prefix ++ rest)%string) /\ file <> folder_prefix.

(** A name a directory entry can bear: not empty, not [.] or [..], and
    without a separator. *)
Definition name_ok (name : string) : bool :=
  negb (FS.is_trivial name) && negb (FS.is_dotdot name)
  && negb (PyStr.mem "/" name).

(** A relative path of one or more such names, separated by single
    slashes. *)
Definition clean_relative (s : string) : bool :=
  forallb name_ok (PyStr.split "/" s).

(** No component of the path is [..]. *)
Definition no_dotdot (s : string) : bool :=
  forallb (fun seg => negb (FS.is_dotdot seg)) (PyStr.split "/" s).

(** The location a path string names when every directory on the way
    exists: the components applied one after the other. *)
Definition locate (cwd : FS.path) (s : string) : FS.path :=
  fold_left FS.step (PyStr.split "/" s) (FS.start cwd s).

(** What the path string [s] names in [w]: a file, a directory with all
    it holds, or nothing. *)
Definition entry_at (w : world) (s : string) : option FS.node :=
  match FS.resolve (w_root w) (w_cwd w) s with
  | Some p => FS.lookup p (w_root w)
  | None => None
  end.

(** [os.listdir] of a directory that is there. *)
Definition names_in (w : world) (s : string) : list string :=
  match FS.listdir (w_root w) (w_cwd w) s with
  | Ok names => names
  | Raise _ => []
  end.

(** Two path strings neither of which leads through the other. *)
Definition apart (a b : string) : Prop :=
  FS.is_prefix (PyStr.split "/" a) (PyStr.split "/" b) = false
  /\ FS.is_prefix (PyStr.split "/" b) (PyStr.split "/" a) = false.

(** Where a clean relative path leads from the working directory. *)
Definition location (w : world) (s : string) : FS.path :=
  (w_cwd w ++ PyStr.split "/" s)%list.

(** In [root] the staging directory and the destination are directories. *)
Definition both_there (temp_dir output_dir : string) (root : FS.node)
  (w : world) : Prop :=
  FS.is_dir root (location w output_dir) = true
  /\ FS.is_dir root (location w temp_dir) = true.

(** The locations that the iteration of the move loop for [name] leaves
    alone: those neither under nor above the two entries of that name. *)
Definition untouched (temp_dir output_dir : string) (w : world)
  (name : string) (q : FS.path) : Prop :=
  FS.is_prefix (location w output_dir ++ [name]) q = false
  /\ FS.is_prefix q (location w output_dir ++ [name]) = false
  /\ FS.is_prefix (location w temp_dir ++ [name]) q = false
  /\ FS.is_prefix q (location w temp_dir ++ [name]) = false.

(** A statement that leaves the working directory, the clock, the server
    and the archive reader as they are. *)
Definition preserves_setting {A : Type} (m : M A) : Prop :=
  forall w r w', m w = (r, w') -> same_setting w w'.

(** The destination the Orchestrator settles on. *)
Definition chosen_output_dir (c : coordinates) (output_dir : option string)
  : string :=
  sanitize_path match output_dir with
                | None => default_output_dir c
                | Some given => given
                end.

(** The world after the two lines the Orchestrator prints before the
    first download. *)
Definition announced (c : coordinates) (w : world) : world :=
  add_event
    (add_event w
       (Printed (MsgTarget (if negb (String.eqb (folder_path c) "")
                            then folder_path c else "root")
                           (owner c) (repo c) (branch c))))
    (Printed (MsgSource (primary_url c))).

(* ===================================================================== *)
(** ** Vocabulary of the further properties *)
(* ===================================================================== *)

(** The strings a pattern describes. *)
Inductive in_language : Re.regex -> string -> Prop :=
| lang_eps : in_language Re.Eps ""
| lang_lit c : in_language (Re.Lit c) (String c "")
| lang_class (p : ascii -> bool) c :
    p c = true -> in_language (Re.Class p) (String c "")
| lang_seq r1 r2 s1 s2 :
    in_language r1 s1 -> in_language r2 s2 ->
    in_language (Re.Seq r1 r2) (s1 ++ s2)%string
| lang_alt_l r1 r2 s : in_language r1 s -> in_language (Re.Alt r1 r2) s
| lang_alt_r r1 r2 s : in_language r2 s -> in_language (Re.Alt r1 r2) s
| lang_star_nil r : in_language (Re.Star r) ""
| lang_star_cons r s1 s2 :
    in_language r s1 -> in_language (Re.Star r) s2 ->
    in_language (Re.Star r) (s1 ++ s2)%string.

(** The two character classes of the pattern. *)
Definition owner_char (c : ascii) : bool := Chr.is_word c || mem c "-".
Definition repo_char (c : ascii) : bool := Chr.is_word c || mem c ".-".

(** The locators the pattern describes: scheme, host, owner, repository. *)
Definition repository_url (secure : bool) (o r : string) : string :=
  ((if secure then "https" else "http") ++ "://github.com/"
   ++ o ++ "/" ++ r)%string.

(** A character [urlparse] leaves in the path: it starts no query, no
    fragment and no parameters, and is not deleted. *)
Definition path_char (c : ascii) : bool :=
  negb (mem c "?#;") && negb (Url.is_unsafe c).

(** A character of one path segment. *)
Definition segment_char (c : ascii) : bool :=
  path_char c && negb (Ascii.eqb c "/").

(** The locator of a folder: the repository, a ref-selector keyword, the
    revision and, when it is not empty, the subpath. *)
Definition folder_url (secure : bool) (o r keyword rev sub : string) : string :=
  (repository_url secure o r ++ "/" ++ keyword ++ "/" ++ rev
   ++ (if String.eqb sub "" then "" else "/" ++ sub))%string.

(** A statement after which the world stands to the world before it as
    [R] says, however the statement ends. *)
Definition keeps {A : Type} (R : world -> world -> Prop) (m : M A) : Prop :=
  forall w r w', m w = (r, w') -> R w w'.

(** No request was made and no wait was taken. *)
Definition offline (w w' : world) : Prop := activity w' = activity w.

(** The requests and waits of one call to the Fetcher with the defaults
    of its signature, when [n] attempts failed before the last one. *)
Definition attempts_on (url : string) (n : nat) : list event :=
  failed_attempts url default_timeout default_backoff 0 n
  ++ [Requested url default_timeout].

(** A statement that raises, whatever the world. *)
Definition always_raises {A : Type} (m : M A) : Prop :=
  forall w, exists e w', m w = (Raise e, w').

(** The listing [names'] is [names], with [h] added at its end if it was
    not there. *)
Definition grows_by (h : string) (names names' : list string) : Prop :=
  names' = names \/ (~ In h names /\ names' = names ++ [h]).

(** From [root] to [root'] the directory at [p] stays a directory, and
    its listing grows by [h] at most. *)
Definition listing_grows (p : FS.path) (h : string) (root root' : FS.node)
  : Prop :=
  forall es,
    FS.lookup p root = Some (FS.Dir es) ->
    exists es',
      FS.lookup p root' = Some (FS.Dir es')
      /\ grows_by h (map fst es) (map fst es').

(** Nothing stands in the way of a file at [segs] below the directory
    [base]: no regular file where a directory is needed, and no directory
    where the file goes. *)
Definition way_is_free (root : FS.node) (base : FS.path) (segs : list string)
  : Prop :=
  (forall k, (0 < k < List.length segs)%nat ->
             FS.is_file root (base ++ firstn k segs) = false)
  /\ FS.is_dir root (base ++ segs) = false.

(** No path of [rels] leads through another: the components of one are
    the first components of another only if the two are the same path. *)
Definition independent (rels : list string) : Prop :=
  forall r1 r2,
    In r1 rels -> In r2 rels ->
    FS.is_prefix (PyStr.split "/" r1) (PyStr.split "/" r2) = true ->
    r1 = r2.

(** For every path [r] of [rels] the archive has a member of the name
    [folder_prefix ++ r], whose bytes are [content r]. *)
Definition holds (zip_ref : archive) (folder_prefix : string)
  (content : string -> string) (rels : list string) : Prop :=
  forall r,
    In r rels ->
    exists m,
      getinfo zip_ref (folder_prefix ++ r)%string = Some m
      /\ m_body m = Stored (content r).

(** The state of the extraction loop between two iterations: the staging
    directory at [base] lists distinct names, each the first component of
    a path that was staged; the paths of [done] are files with their
    content, and nothing else is under [base] but the directories on the
    way to them; nothing stands in the way of the paths of [todo]; and
    what lies neither under [base] nor above it is as in [root0]. *)
Definition staged_so_far (base : FS.path) (content : string -> string)
  (root0 root : FS.node) (done todo : list string) : Prop :=
  (exists es,
      FS.lookup base root = Some (FS.Dir es)
      /\ NoDup (map fst es)
      /\ Forall (fun name =>
                   name_ok name = true
                   /\ exists r, In r done
                                /\ hd ""%string (PyStr.split "/" r) = name)
           (map fst es))
  /\ (forall r, In r done ->
                FS.lookup (base ++ PyStr.split "/" r) root
                = Some (FS.File (content r)))
  /\ (forall segs, segs <> [] -> FS.lookup (base ++ segs) root <> None ->
                   exists r, In r done
                             /\ FS.is_prefix segs (PyStr.split "/" r) = true)
  /\ (forall r, In r todo -> way_is_free root base (PyStr.split "/" r))
  /\ (forall q, FS.is_prefix base q = false -> FS.is_prefix q base = false ->
                FS.lookup q root = FS.lookup q root0).

(* ===================================================================== *)
(** ** Worlds and archives of the examples *)
(* ===================================================================== *)

Module Examples.

(** [/home/out] holds two files; the script runs in [/home]. *)
Definition root : FS.node :=
  FS.Dir [("home",
           FS.Dir [("out",
                    FS.Dir [("keep.txt", FS.File "kept");
                            ("a.txt", FS.File "old")])])].

(** Two refusals, then the archive in three chunks, one of them empty. *)
Definition flaky_server (n : nat) (url : string) : outcome :=
  match n with
  | O => Fail (RequestException "connection refused")
  | S O => Fail SocketTimeout
  | _ => Respond ["PK"; ""; "zip"]
  end.

Definition dead_server (n : nat) (url : string) : outcome :=
  Fail (RequestException "connection refused").

Definition good_server (n : nat) (url : string) : outcome :=
  Respond ["PK"].

(** A C library whose [pow] gives up where it would have to round. *)
Definition libm (b : Q) (k : Z) : result Q :=
  Raise (OverflowError "(34, 'Numerical result out of range')").

Definition world_of (server : nat -> string -> outcome) (zip : archive)
  : world :=
  World root ["home"] 5 server (fun _ => Ok zip) libm [].

(** The archive of the end-to-end example of the spec. *)
Definition widgets : archive :=
  [ Member "widgets-v2/README.md" (Stored "readme");
    Member "widgets-v2/src/lib/a.txt" (Stored "AAA");
    Member "widgets-v2/src/lib/sub/b.txt" (Stored "BBB") ].

Definition widgets_url : string :=
  "https://github.com/acme/widgets/tree/v2/src/lib".

(** The run of the end-to-end example: [widgets] into [/home/out]. *)
Definition before : world := world_of good_server widgets.

Definition lib_prefix : string := "widgets-v2/src/lib/".

Definition lib_members : list string := select_members widgets lib_prefix.

(** The world once the members are staged, before the move. *)
Definition staged : world :=
  Eval vm_compute in
    snd (extract_phase widgets lib_members lib_prefix
           (staging_dir "out" (w_clock before)) before).

(** A world where a file has the name of the destination. *)
Definition blocked : world :=
  World (FS.Dir [("home", FS.Dir [("out", FS.File "in the way")])])
        ["home"] 5 good_server (fun _ => Ok widgets) libm [].

(** An archive with a member that climbs out of the subtree, and one with
    a member whose only content cannot be opened. *)
Definition climbing : archive :=
  [ Member "widgets-v2/src/lib/a.txt" (Stored "AAA");
    Member "widgets-v2/src/lib/../evil.txt" (Stored "EVIL") ].

Definition climbing_members : list string := select_members climbing lib_prefix.

Definition unreadable : archive :=
  [ Member "widgets-v2/src/lib/a.txt"
      (BadOpen (BadZipFile "Bad magic number for file header")) ].

End Examples.

(* ##################################################################### *)
(** * Properties *)
(* ##################################################################### *)

Local Open Scope string_scope.

(* ===================================================================== *)
(** ** Strings *)
(* ===================================================================== *)

Section StringFacts.

Lemma rstrip_snoc chars s c :
  mem c chars = true -> rstrip chars (s ++ String c "") = rstrip chars s.
Proof.
  intros Hc. induction s as [|a s IH]; simpl.
  - now rewrite Hc.
  - now rewrite IH.
Qed.

Lemma startswith_app s rest : startswith (s ++ rest) s = true.
Proof.
  unfold startswith. induction s as [|a s IH]; simpl.
  - now destruct rest.
  - destruct (ascii_dec a a) as [_|N]; [exact IH | now elim N].
Qed.

Lemma startswith_inv s p :
  startswith s p = true -> exists rest, s = p ++ rest.
Proof.
  unfold startswith. revert s. induction p as [|a p IH]; intros s H.
  - now exists s.
  - destruct s as [|b s]; simpl in H; [discriminate|].
    destruct (ascii_dec a b) as [->|]; [|discriminate].
    destruct (IH _ H) as [rest ->]. now exists rest.
Qed.

Lemma startswith_spec s p :
  startswith s p = true <-> exists rest, s = p ++ rest.
Proof.
  split; [apply startswith_inv | intros [rest ->]; apply startswith_app].
Qed.

Lemma str_app_empty_r (s : string) : s ++ "" = s.
Proof. induction s; simpl; congruence. Qed.

Lemma str_app_assoc (a b c : string) : (a ++ b) ++ c = a ++ b ++ c.
Proof. induction a; simpl; congruence. Qed.

Lemma drop_app (a b : string) : drop (String.length a) (a ++ b) = b.
Proof. induction a; simpl; [now destruct b | assumption]. Qed.

End StringFacts.

(* ===================================================================== *)
(** ** Reference Parser *)
(* ===================================================================== *)

Section ReferenceParser.

Local Arguments in_list : simpl never.
Local Arguments join : simpl never.

Lemma parse_accepted url c :
  parse_github_folder_url url = Ok c ->
  Re.matches github_url_pattern (rstrip "/" url) = true
  /\ (2 <= List.length (path_parts_of (rstrip "/" url)))%nat
  /\ c = coordinates_of (path_parts_of (rstrip "/" url)).
Proof.
  unfold parse_github_folder_url.
  set (parts := path_parts_of (rstrip "/" url)).
  destruct (Re.matches github_url_pattern (rstrip "/" url)); simpl;
    [|discriminate].
  destruct parts as [|o [|r [|third rest]]]; simpl; try discriminate.
  - intros [= <-]. repeat split; auto.
  - destruct (in_list third ref_selectors); simpl.
    + destruct rest as [|rev [|x rest]]; simpl; intros [= <-];
        repeat split; auto; lia.
    + intros [= <-]. repeat split; auto; lia.
Qed.

Lemma parse_of_parts url :
  Re.matches github_url_pattern (rstrip "/" url) = true ->
  (2 <= List.length (path_parts_of (rstrip "/" url)))%nat ->
  parse_github_folder_url url
  = Ok (coordinates_of (path_parts_of (rstrip "/" url))).
Proof.
  unfold parse_github_folder_url.
  set (parts := path_parts_of (rstrip "/" url)).
  intros -> Hlen. simpl.
  destruct parts as [|o [|r [|third rest]]]; simpl in *; try lia.
  - reflexivity.
  - destruct (in_list third ref_selectors); simpl; [|reflexivity].
    destruct rest as [|rev [|x rest]]; reflexivity.
Qed.

Lemma parse_trailing_slash url :
  parse_github_folder_url (url ++ "/") = parse_github_folder_url url.
Proof.
  unfold parse_github_folder_url.
  now rewrite (rstrip_snoc "/" url "/"%char eq_refl).
Qed.

(** C6, as the code has it.  For a locator the parser accepts, with the
    path segments taken after trailing separators are stripped: when the
    third segment is a ref-selector keyword, the revision is the fourth
    segment if there is one and ["main"] if there is none, and the
    subpath is the slash-joined rest; when there is no third segment or
    it is no keyword, the revision is ["main"] and the subpath is empty;
    and one more trailing slash on the locator changes nothing. *)
Theorem parse_selector_semantics url c :
  parse_github_folder_url url = Ok c ->
  let parts := path_parts_of (rstrip "/" url) in
  (forall third,
      nth_error parts 2 = Some third ->
      in_list third ref_selectors = true ->
      (forall rev, nth_error parts 3 = Some rev -> branch c = rev)
      /\ (nth_error parts 3 = None -> branch c = "main")
      /\ folder_path c = join "/" (skipn 4 parts))
  /\ ((forall third,
          nth_error parts 2 = Some third ->
          in_list third ref_selectors = false) ->
      branch c = "main" /\ folder_path c = "")
  /\ parse_github_folder_url (url ++ "/") = Ok c.
Proof.
  intros Hparse parts.
  destruct (parse_accepted _ _ Hparse) as (_ & Hlen & ->). fold parts in Hlen |- *.
  split; [|split].
  - intros third H3 Hkw.
    destruct parts as [|o [|r [|t rest]]]; simpl in *; try lia; try discriminate.
    injection H3 as ->. rewrite Hkw. simpl.
    destruct rest as [|rev rest]; simpl.
    + split; [intros ? [=] | split; [reflexivity | reflexivity]].
    + split; [now intros ? [= <-] | split; [intros [=] | reflexivity]].
  - intros Hno.
    destruct parts as [|o [|r [|t rest]]]; simpl in *; try lia; auto.
    now rewrite (Hno t eq_refl).
  - rewrite parse_trailing_slash. subst parts.
    now apply parse_of_parts; [apply (parse_accepted _ _ Hparse)|].
Qed.

Lemma parse_selector_semantics_witness :
  let url := "https://github.com/acme/widgets/tree/v2/src/lib/" in
  exists c,
    parse_github_folder_url url = Ok c
    /\ branch c = "v2" /\ folder_path c = "src/lib"
    /\ parse_github_folder_url (url ++ "/") = Ok c.
Proof.
  exists (Coordinates "acme" "widgets" "v2" "src/lib").
  pose proof (@parse_selector_semantics
                "https://github.com/acme/widgets/tree/v2/src/lib/"
                (Coordinates "acme" "widgets" "v2" "src/lib") eq_refl)
    as (Hsel & _ & Hslash).
  destruct (Hsel "tree" eq_refl eq_refl) as (Hrev & _ & Hsub).
  repeat split; auto.
Defined.

(** C6 as the spec words it fails on a locator that ends at the keyword:
    the third segment is a ref selector, there is no fourth segment, and
    the revision, ["main"], is not "the fourth segment". *)
Lemma parse_selector_without_revision :
  let url := "https://github.com/acme/widgets/tree" in
  let parts := path_parts_of (rstrip "/" url) in
  exists c,
    parse_github_folder_url url = Ok c
    /\ nth_error parts 2 = Some "tree"
    /\ in_list "tree" ref_selectors = true
    /\ nth_error parts 3 <> Some (branch c)
    /\ branch c = "main".
Proof.
  exists (Coordinates "acme" "widgets" "main" "").
  repeat split; try reflexivity. vm_compute. discriminate.
Qed.

(** C10.  A locator that passes the pattern and whose path is exactly
    owner, repository and a ref-selector keyword parses, without error,
    to revision ["main"] and the empty subpath: the result of a locator
    whose path is the owner and the repository alone. *)
Theorem parse_selector_alone url o r keyword :
  Re.matches github_url_pattern (rstrip "/" url) = true ->
  path_parts_of (rstrip "/" url) = [o; r; keyword] ->
  in_list keyword ref_selectors = true ->
  parse_github_folder_url url = Ok (Coordinates o r "main" "")
  /\ forall url',
      Re.matches github_url_pattern (rstrip "/" url') = true ->
      path_parts_of (rstrip "/" url') = [o; r] ->
      parse_github_folder_url url' = parse_github_folder_url url.
Proof.
  intros Hre Hparts Hkw.
  assert (Hurl : parse_github_folder_url url = Ok (Coordinates o r "main" "")).
  { rewrite parse_of_parts by (auto; rewrite Hparts; simpl; lia).
    rewrite Hparts. simpl. now rewrite Hkw. }
  split; [exact Hurl|].
  intros url' Hre' Hparts'. rewrite Hurl.
  rewrite parse_of_parts by (auto; rewrite Hparts'; simpl; lia).
  now rewrite Hparts'.
Qed.

Lemma parse_selector_alone_witness :
  parse_github_folder_url "https://github.com/acme/widgets/blob"
  = Ok (Coordinates "acme" "widgets" "main" "")
  /\ parse_github_folder_url "https://github.com/acme/widgets"
     = parse_github_folder_url "https://github.com/acme/widgets/blob".
Proof.
  destruct (@parse_selector_alone "https://github.com/acme/widgets/blob"
              "acme" "widgets" "blob" eq_refl eq_refl eq_refl) as [H1 H2].
  split; [exact H1|].
  exact (H2 "https://github.com/acme/widgets" eq_refl eq_refl).
Defined.

End ReferenceParser.

(* ===================================================================== *)
(** ** Resilient Fetcher *)
(* ===================================================================== *)

Section Fetcher.

Lemma take_length s : take (String.length s) s = s.
Proof. induction s; simpl; congruence. Qed.

Lemma drop_beyond s n : drop (String.length s + n) s = "".
Proof. induction s; simpl; [now destruct n | assumption]. Qed.

Lemma str_length_app (a b : string) :
  String.length (a ++ b) = (String.length a + String.length b)%nat.
Proof. induction a; simpl; congruence. Qed.

Lemma bytesio_write_at_end acc chunk :
  bytesio_write (BytesIO acc (String.length acc)) chunk
  = BytesIO (acc ++ chunk) (String.length (acc ++ chunk)).
Proof.
  unfold bytesio_write. simpl.
  now rewrite take_length, drop_beyond, str_app_empty_r, str_length_app.
Qed.

Lemma concat_empty_cons chunk chunks :
  String.concat "" (chunk :: chunks) = chunk ++ String.concat "" chunks.
Proof.
  destruct chunks; simpl; [now rewrite str_app_empty_r | reflexivity].
Qed.

Lemma read_chunks_from acc chunks :
  fold_left
    (fun content chunk =>
       if String.eqb chunk "" then content else bytesio_write content chunk)
    chunks (BytesIO acc (String.length acc))
  = BytesIO (acc ++ String.concat "" chunks)
            (String.length (acc ++ String.concat "" chunks)).
Proof.
  revert acc. induction chunks as [|chunk chunks IH]; intros acc.
  - simpl. now rewrite str_app_empty_r.
  - rewrite concat_empty_cons. cbn [fold_left].
    destruct (String.eqb_spec chunk "") as [->|_].
    + apply IH.
    + rewrite bytesio_write_at_end, IH. now rewrite str_app_assoc.
Qed.

(** The whole body, in order, with the position back at the start. *)
Lemma read_chunks_buffers chunks :
  bytesio_seek0 (read_chunks chunks) = BytesIO (String.concat "" chunks) 0.
Proof.
  unfold read_chunks.
  change (BytesIO "" 0) with (BytesIO "" (String.length "")).
  now rewrite read_chunks_from.
Qed.

Lemma same_setting_refl w : same_setting w w.
Proof. now repeat split. Qed.

Lemma same_setting_trans w1 w2 w3 :
  same_setting w1 w2 -> same_setting w2 w3 -> same_setting w1 w3.
Proof.
  unfold same_setting. intros (?&?&?&?) (?&?&?&?). repeat split; congruence.
Qed.

Lemma same_setting_add_event w e : same_setting w (add_event w e).
Proof. now repeat split. Qed.

Lemma activity_add_event w e :
  activity (add_event w e)
  = (activity w ++ if is_activity e then [e] else [])%list.
Proof.
  unfold activity, add_event. cbn. rewrite filter_app. cbn.
  now destruct (is_activity e).
Qed.

Lemma requests_made_add_event w e :
  requests_made (add_event w e)
  = (requests_made w + if is_request e then 1 else 0)%nat.
Proof.
  unfold requests_made, add_event. cbn. rewrite filter_app, length_app. cbn.
  now destruct (is_request e).
Qed.

Lemma fetched_refl w : fetched w w [].
Proof.
  unfold fetched. rewrite app_nil_r. auto using same_setting_refl.
Qed.

Lemma fetched_trans w1 w2 w3 a b :
  fetched w1 w2 a -> fetched w2 w3 b -> fetched w1 w3 (a ++ b)%list.
Proof.
  intros (Ha & Hr & Hs) (Hb & Hr' & Hs'). split; [|split].
  - now rewrite Hb, Ha, <- app_assoc.
  - congruence.
  - exact (same_setting_trans _ _ _ Hs Hs').
Qed.

Lemma fetched_add_event w e :
  fetched w (add_event w e) (if is_activity e then [e] else []).
Proof.
  split; [apply activity_add_event | split; [reflexivity|]].
  apply same_setting_add_event.
Qed.

(** *** Waits *)

Lemma Qpower_nth_power b n : Qpower b (Z.of_nat n) == nth_power b n.
Proof.
  induction n as [|n IH]; [reflexivity|].
  rewrite Nat2Z.inj_succ. unfold Z.succ.
  rewrite Qpower_plus' by lia. rewrite IH. cbn [nth_power].
  change (b ^ 1) with b. apply Qmult_comm.
Qed.

Lemma representable_Qeq q q' :
  q == q' -> Float.representable q = Float.representable q'.
Proof.
  intros H. unfold Float.representable. now rewrite (Qred_complete _ _ H).
Qed.

Lemma plain_wait_spec b k :
  plain_wait b k = true ->
  Float.representable (nth_power b (Z.to_nat k)) = true
  /\ 0 <= nth_power b (Z.to_nat k) <= max_wait.
Proof.
  unfold plain_wait. rewrite !andb_true_iff, !Qle_bool_iff. tauto.
Qed.

(** A plain wait is computed exactly. *)
Lemma power_plain b k w :
  (0 <= k)%Z -> plain_wait b k = true -> power b k w = (Ok (wait b k), w).
Proof.
  intros Hk Hplain. apply plain_wait_spec in Hplain as [Hrep _].
  assert (Heq : Qpower b k == nth_power b (Z.to_nat k)).
  { rewrite <- (Z2Nat.id k Hk) at 1. apply Qpower_nth_power. }
  unfold power, wait.
  now rewrite (representable_Qeq _ _ Heq), Hrep, (Qred_complete _ _ Heq).
Qed.

(** A plain wait is slept. *)
Lemma sleep_plain b k w :
  plain_wait b k = true ->
  sleep (wait b k) w = (Ok tt, add_event w (Slept (wait b k))).
Proof.
  intros Hplain. apply plain_wait_spec in Hplain as [_ [H0 Hmax]].
  assert (Heq : wait b k == nth_power b (Z.to_nat k)) by apply Qred_correct.
  unfold max_wait in Hmax. unfold sleep.
  assert (Hlow : Qle_bool (inject_Z (- 2 ^ 63 - 1024))
                   (wait b k * inject_Z (10 ^ 9)) = true).
  { apply Qle_bool_iff. rewrite Heq.
    change (inject_Z (- 2 ^ 63 - 1024)) with (-9223372036854776832 # 1).
    change (inject_Z (10 ^ 9)) with (1000000000 # 1). lra. }
  assert (Hhigh : Qle_bool (inject_Z (2 ^ 63 - 512))
                    (wait b k * inject_Z (10 ^ 9)) = false).
  { apply not_true_iff_false. rewrite Qle_bool_iff, Heq.
    change (inject_Z (2 ^ 63 - 512)) with (9223372036854775296 # 1).
    change (inject_Z (10 ^ 9)) with (1000000000 # 1).
    change (inject_Z (2 ^ 32)) with (4294967296 # 1) in Hmax. lra. }
  assert (Hpos : Qle_bool 0 (wait b k) = true).
  { apply Qle_bool_iff. now rewrite Heq. }
  now rewrite Hlow, Hhigh, Hpos.
Qed.

(** A negative wait is refused. *)
Lemma sleep_negative q w :
  - max_wait <= q -> q < 0 ->
  sleep q w = (Raise (ValueError "sleep length must be non-negative"), w).
Proof.
  intros Hlow Hneg. unfold max_wait in Hlow. unfold sleep.
  assert (H1 : Qle_bool (inject_Z (- 2 ^ 63 - 1024))
                 (q * inject_Z (10 ^ 9)) = true).
  { apply Qle_bool_iff.
    change (inject_Z (- 2 ^ 63 - 1024)) with (-9223372036854776832 # 1).
    change (inject_Z (10 ^ 9)) with (1000000000 # 1).
    change (inject_Z (2 ^ 32)) with (4294967296 # 1) in Hlow. lra. }
  assert (H2 : Qle_bool (inject_Z (2 ^ 63 - 512))
                 (q * inject_Z (10 ^ 9)) = false).
  { apply not_true_iff_false. rewrite Qle_bool_iff.
    change (inject_Z (2 ^ 63 - 512)) with (9223372036854775296 # 1).
    change (inject_Z (10 ^ 9)) with (1000000000 # 1). lra. }
  assert (H3 : Qle_bool 0 q = false).
  { apply not_true_iff_false. rewrite Qle_bool_iff. lra. }
  now rewrite H1, H2, H3.
Qed.

Variables (url : string) (timeout retries : Z) (backoff : Q).

Lemma failed_attempts_succ from n :
  ([Requested url timeout; Slept (wait backoff (from + 1))]
   ++ failed_attempts url timeout backoff (from + 1) n)%list
  = failed_attempts url timeout backoff from (S n).
Proof.
  unfold failed_attempts. cbn [seq flat_map].
  replace (from + Z.of_nat 1)%Z with (from + 1)%Z by lia.
  cbn [app]. do 2 f_equal.
  rewrite <- (seq_shift n 1).
  generalize (seq 1 n) as ks. induction ks as [|k ks IH]; [reflexivity|].
  cbn [map flat_map app]. rewrite IH.
  now replace (from + 1 + Z.of_nat k)%Z with (from + Z.of_nat (S k))%Z by lia.
Qed.

Lemma fetched_after_retry current_retry e w :
  fetched w (after_retry url timeout retries backoff current_retry e w)
    [Requested url timeout; Slept (wait backoff (current_retry + 1))].
Proof.
  unfold after_retry. split; [|split; [reflexivity | now repeat split]].
  rewrite !activity_add_event. cbn.
  now rewrite !app_nil_r, <- app_assoc.
Qed.

Lemma attempt_after_retry current_retry e w k :
  attempt (after_retry url timeout retries backoff current_retry e w) url k
  = attempt w url (S k).
Proof.
  unfold attempt, after_retry.
  rewrite !requests_made_add_event. cbn.
  now replace (requests_made w + 1 + 0 + 0 + 0 + k)%nat
    with (requests_made w + S k)%nat by lia.
Qed.

(** The statements of the [except] block before a retry, for a plain
    wait. *)
Lemma handler_plain current_retry e w :
  (0 <= current_retry)%Z ->
  plain_wait backoff (current_retry + 1) = true ->
  (wait_time <- power backoff (current_retry + 1) ;;
   print (MsgConnectionError e) ;;
   print (MsgRetrying wait_time (current_retry + 1) retries) ;;
   sleep wait_time)%py (add_event w (Requested url timeout))
  = (Ok tt, after_retry url timeout retries backoff current_retry e w).
Proof.
  intros Hcr Hplain.
  assert (H1 : (0 <= current_retry + 1)%Z) by lia.
  unfold bind. rewrite (power_plain _ _ _ H1 Hplain). cbn [print].
  now rewrite (sleep_plain _ _ _ Hplain).
Qed.

(** One turn of the loop that fails and is retried. *)
Lemma retry_loop_retries fuel current_retry w e :
  (0 <= current_retry)%Z ->
  (current_retry + 1 <= retries)%Z ->
  plain_wait backoff (current_retry + 1) = true ->
  attempt w url 0 = Fail e ->
  is_network_error e = true ->
  retry_loop (S fuel) url timeout retries backoff current_retry w
  = retry_loop fuel url timeout retries backoff (current_retry + 1)
      (after_retry url timeout retries backoff current_retry e w).
Proof.
  intros H0 Hcr Hplain He Hnet. cbn [retry_loop].
  replace (current_retry <=? retries)%Z with true
    by (symmetry; apply Z.leb_le; lia).
  unfold request. unfold attempt in He. rewrite Nat.add_0_r in He.
  rewrite He, Hnet.
  replace (current_retry + 1 <=? retries)%Z with true
    by (symmetry; apply Z.leb_le; lia).
  now rewrite (handler_plain current_retry e w H0 Hplain).
Qed.

Lemma retry_loop_succeeds n : forall fuel current_retry w chunks,
  (n < fuel)%nat ->
  (0 <= current_retry)%Z ->
  (current_retry + Z.of_nat n <= retries)%Z ->
  (forall k, (1 <= k <= n)%nat ->
             plain_wait backoff (current_retry + Z.of_nat k) = true) ->
  (forall k, (k < n)%nat -> network_failure (attempt w url k)) ->
  attempt w url n = Respond chunks ->
  exists w',
    retry_loop fuel url timeout retries backoff current_retry w
    = Some (Ok (Some (BytesIO (String.concat "" chunks) 0)), w')
    /\ fetched w w'
         (failed_attempts url timeout backoff current_retry n
          ++ [Requested url timeout])%list.
Proof.
  induction n as [|n IH]; intros fuel cr w chunks Hfuel H0 Hcr Hplain Hfail Hok;
    (destruct fuel as [|fuel]; [lia|]).
  - cbn [retry_loop].
    replace (cr <=? retries)%Z with true by (symmetry; apply Z.leb_le; lia).
    unfold request. unfold attempt in Hok. rewrite Nat.add_0_r in Hok.
    rewrite Hok, read_chunks_buffers.
    eexists. split; [reflexivity|].
    apply (fetched_add_event w (Requested url timeout)).
  - destruct (Hfail 0%nat ltac:(lia)) as (e & He & Hnet).
    rewrite (retry_loop_retries fuel cr w e H0 ltac:(lia)
               (Hplain 1%nat ltac:(lia)) He Hnet).
    destruct (IH fuel (cr + 1)%Z
                (after_retry url timeout retries backoff cr e w) chunks)
      as (w' & Hrun & Hfetched); try lia.
    + intros k Hk.
      replace (cr + 1 + Z.of_nat k)%Z with (cr + Z.of_nat (S k))%Z by lia.
      apply Hplain. lia.
    + intros k Hk. rewrite attempt_after_retry. apply Hfail. lia.
    + now rewrite attempt_after_retry.
    + exists w'. split; [exact Hrun|].
      rewrite <- failed_attempts_succ, <- app_assoc.
      exact (fetched_trans _ _ _ _ _ (fetched_after_retry cr e w) Hfetched).
Qed.

Lemma retry_loop_exhausts n : forall fuel current_retry w e,
  (n < fuel)%nat ->
  (0 <= current_retry)%Z ->
  (current_retry + Z.of_nat n = retries)%Z ->
  (forall k, (1 <= k <= n)%nat ->
             plain_wait backoff (current_retry + Z.of_nat k) = true) ->
  (forall k, (k < n)%nat -> network_failure (attempt w url k)) ->
  attempt w url n = Fail e ->
  is_network_error e = true ->
  exists w',
    retry_loop fuel url timeout retries backoff current_retry w
    = Some (Raise e, w')
    /\ fetched w w'
         (failed_attempts url timeout backoff current_retry n
          ++ [Requested url timeout])%list.
Proof.
  induction n as [|n IH];
    intros fuel cr w e Hfuel H0 Hcr Hplain Hfail Hlast Hnet;
    (destruct fuel as [|fuel]; [lia|]).
  - cbn [retry_loop].
    replace (cr <=? retries)%Z with true by (symmetry; apply Z.leb_le; lia).
    unfold request. unfold attempt in Hlast. rewrite Nat.add_0_r in Hlast.
    rewrite Hlast, Hnet.
    replace (cr + 1 <=? retries)%Z with false
      by (symmetry; apply Z.leb_gt; lia).
    cbn. eexists. split; [reflexivity|].
    change [Requested url timeout] with ([Requested url timeout] ++ [])%list.
    eapply fetched_trans.
    + apply (fetched_add_event w (Requested url timeout)).
    + apply (fetched_add_event _ (Printed (MsgFailedAfter retries e))).
  - destruct (Hfail 0%nat ltac:(lia)) as (e0 & He & Hnet0).
    rewrite (retry_loop_retries fuel cr w e0 H0 ltac:(lia)
               (Hplain 1%nat ltac:(lia)) He Hnet0).
    destruct (IH fuel (cr + 1)%Z
                (after_retry url timeout retries backoff cr e0 w) e)
      as (w' & Hrun & Hfetched); try lia; auto.
    + intros k Hk.
      replace (cr + 1 + Z.of_nat k)%Z with (cr + Z.of_nat (S k))%Z by lia.
      apply Hplain. lia.
    + intros k Hk. rewrite attempt_after_retry. apply Hfail. lia.
    + now rewrite attempt_after_retry.
    + exists w'. split; [exact Hrun|].
      rewrite <- failed_attempts_succ, <- app_assoc.
      exact (fetched_trans _ _ _ _ _ (fetched_after_retry cr e0 w) Hfetched).
Qed.

Lemma retry_loop_has_fuel fuel : forall current_retry w,
  (Z.to_nat (retries + 1 - current_retry) <= fuel)%nat ->
  retry_loop fuel url timeout retries backoff current_retry w <> None.
Proof.
  induction fuel as [|fuel IH]; intros cr w Hfuel; cbn [retry_loop];
    destruct (Z.leb_spec cr retries) as [Hle|Hgt]; try discriminate.
  - lia.
  - destruct (request url timeout w) as [[chunks|e] w1]; [discriminate|].
    destruct (is_network_error e); [|discriminate].
    destruct (Z.leb_spec (cr + 1) retries).
    + match goal with
      | |- context [match ?m with _ => _ end] => destruct m as [[[]|raised] w2]
      end; [apply IH; lia | discriminate].
    + cbn [print]. discriminate.
Qed.

(** A wait that [time.sleep] refuses ends the call: the exception leaves
    the [except] block, and no further request is made. *)
Lemma retry_loop_refused fuel w e :
  (1 <= retries)%Z ->
  Float.representable backoff = true ->
  - max_wait <= backoff -> backoff < 0 ->
  attempt w url 0 = Fail e ->
  is_network_error e = true ->
  exists w',
    retry_loop (S fuel) url timeout retries backoff 0 w
    = Some (Raise (ValueError "sleep length must be non-negative"), w')
    /\ activity w' = (activity w ++ [Requested url timeout])%list.
Proof.
  intros Hr Hrep Hlow Hneg He Hnet. cbn [retry_loop].
  replace (0 <=? retries)%Z with true by (symmetry; apply Z.leb_le; lia).
  unfold request. unfold attempt in He. rewrite Nat.add_0_r in He.
  rewrite He, Hnet. cbn [Z.add].
  replace (1 <=? retries)%Z with true by (symmetry; apply Z.leb_le; lia).
  assert (Hq : Qred backoff == backoff) by apply Qred_correct.
  unfold bind. unfold power at 1. change (backoff ^ 1) with backoff.
  rewrite Hrep. cbn [print].
  rewrite sleep_negative by (rewrite Hq; assumption).
  eexists. split; [reflexivity|].
  rewrite !activity_add_event. cbn. now rewrite !app_nil_r.
Qed.


End Fetcher.


(** C3 as the spec words it fails: with the multiplier [-1.5] the first
    attempt meets a network failure and the second would be answered,
    within a budget of three retries; yet the call makes one request and
    raises the [ValueError] of [time.sleep], which is asked to wait
    [-1.5] seconds. *)
Lemma negative_backoff_ends_the_call :
  let server (n : nat) (u : string) :=
    match n with
    | O => Fail SocketTimeout
    | _ => Respond ["PK"]
    end in
  let w := Examples.world_of server [] in
  network_failure (attempt w "u" 0)
  /\ attempt w "u" 1 = Respond ["PK"]
  /\ exists w',
       download_with_progress "u" 30 3 (- 3 # 2) w
       = (Raise (ValueError "sleep length must be non-negative"), w')
       /\ activity w' = [Requested "u" 30].
Proof.
  intros server w. split; [eexists; split; reflexivity|].
  split; [reflexivity|].
  destruct (retry_loop_refused "u" 30 3 (- 3 # 2) 3 w SocketTimeout)
    as (w' & Hrun & Hact); try reflexivity; try lia.
  - unfold Qle, max_wait. cbn. lia.
  - exists w'. split; [|exact Hact].
    unfold download_with_progress, retry_fuel.
    change (Z.to_nat (3 + 1)) with 4%nat. now rewrite Hrun.
Qed.

(* ===================================================================== *)
(** ** Archive Filter *)
(* ===================================================================== *)

Section ArchiveFilter.

Lemma subsequence_filter {A} (keep : A -> bool) (l : list A) :
  subsequence (filter keep l) l.
Proof.
  induction l as [|x l IH]; cbn [filter].
  - constructor.
  - destruct (keep x); now constructor.
Qed.

Lemma count_occ_filter (keep : string -> bool) (l : list string) file :
  count_occ string_dec (filter keep l) file
  = if keep file then count_occ string_dec l file else 0%nat.
Proof.
  induction l as [|x l IH]; cbn [filter].
  - now destruct (keep file).
  - destruct (keep x) eqn:Hx; cbn [count_occ];
      destruct (string_dec x file) as [->|Hne]; rewrite ?IH, ?Hx;
      try reflexivity; now destruct (keep file).
Qed.

Lemma selected_iff folder_prefix file :
  startswith file folder_prefix && negb (String.eqb file folder_prefix) = true
  <-> under_prefix folder_prefix file.
Proof.
  unfold under_prefix.
  rewrite andb_true_iff, negb_true_iff, startswith_spec, String.eqb_neq.
  reflexivity.
Qed.

Lemma folder_prefix_of_spec repo branch folder_path :
  folder_prefix_of repo branch folder_path
  = if String.eqb folder_path ""
    then repo ++ "-" ++ branch ++ "/"
    else repo ++ "-" ++ branch ++ "/" ++ folder_path ++ "/".
Proof.
  unfold folder_prefix_of.
  destruct (String.eqb folder_path ""); cbn [negb]; [reflexivity|].
  now rewrite !str_app_assoc.
Qed.

(** C4.  The prefix is ["{repo}-{revision}/{subpath}/"], or
    ["{repo}-{revision}/"] for an empty subpath; the selection holds a
    member path exactly when the archive lists it, it starts with the
    prefix and is not the prefix; it holds it as often as the archive
    lists it; and it is the archive's list with the other entries left
    out, in the order of the archive. *)
Theorem archive_filter_selects zip_ref repo branch folder_path :
  let folder_prefix := folder_prefix_of repo branch folder_path in
  let selection := select_members zip_ref folder_prefix in
  folder_prefix
  = (if String.eqb folder_path ""
     then repo ++ "-" ++ branch ++ "/"
     else repo ++ "-" ++ branch ++ "/" ++ folder_path ++ "/")
  /\ (forall file,
         In file selection
         <-> In file (namelist zip_ref) /\ under_prefix folder_prefix file)
  /\ (forall file,
         under_prefix folder_prefix file ->
         count_occ string_dec selection file
         = count_occ string_dec (namelist zip_ref) file)
  /\ subsequence selection (namelist zip_ref).
Proof.
  intros folder_prefix selection. subst selection. unfold select_members.
  split; [apply folder_prefix_of_spec | split; [|split]].
  - intros file. rewrite filter_In, selected_iff. reflexivity.
  - intros file Hunder. rewrite count_occ_filter.
    apply selected_iff in Hunder. now rewrite Hunder.
  - apply subsequence_filter.
Qed.

(** C5.  The filter raises exactly when the selection is empty, and then
    it raises the "not found" error; when the archive lists a path that
    starts with the prefix and differs from it, the filter returns the
    selection. *)
Theorem archive_filter_fails_iff_empty zip_ref folder_path folder_prefix :
  (archive_filter zip_ref folder_path folder_prefix
   = Raise (not_found folder_path)
   <-> select_members zip_ref folder_prefix = [])
  /\ (forall e,
         archive_filter zip_ref folder_path folder_prefix = Raise e ->
         e = not_found folder_path)
  /\ ((exists file,
          In file (namelist zip_ref) /\ under_prefix folder_prefix file) ->
      archive_filter zip_ref folder_path folder_prefix
      = Ok (select_members zip_ref folder_prefix)).
Proof.
  unfold archive_filter. split; [|split].
  - destruct (select_members zip_ref folder_prefix); split;
      try reflexivity; discriminate.
  - intros e. destruct (select_members zip_ref folder_prefix);
      now intros [= <-].
  - intros (file & Hin & Hunder).
    assert (Hsel : In file (select_members zip_ref folder_prefix)).
    { unfold select_members. rewrite filter_In, selected_iff. now split. }
    destruct (select_members zip_ref folder_prefix); [destruct Hsel|].
    reflexivity.
Qed.

Lemma archive_filter_fails_iff_empty_witness :
  archive_filter Examples.widgets "src/lib" "widgets-v2/src/lib/"
  = Ok ["widgets-v2/src/lib/a.txt"; "widgets-v2/src/lib/sub/b.txt"]
  /\ archive_filter Examples.widgets "docs" "widgets-v2/docs/"
     = Raise (not_found "docs").
Proof.
  destruct (archive_filter_fails_iff_empty
              Examples.widgets "src/lib" "widgets-v2/src/lib/")
    as (_ & _ & Hsome).
  destruct (archive_filter_fails_iff_empty
              Examples.widgets "docs" "widgets-v2/docs/")
    as (Hnone & _ & _).
  split.
  - apply Hsome. exists "widgets-v2/src/lib/a.txt".
    split; [right; left; reflexivity|].
    split; [now exists "a.txt" | discriminate].
  - apply Hnone. reflexivity.
Defined.

End ArchiveFilter.

(* ===================================================================== *)
(** ** The file system tree *)
(* ===================================================================== *)

Module FSFacts.
Import FS.

(** *** Directory listings *)

Lemma assoc_put_same k v es : assoc k (assoc_put k v es) = Some v.
Proof.
  induction es as [|[k' v'] es IH]; cbn.
  - now rewrite String.eqb_refl.
  - destruct (String.eqb_spec k k'); cbn.
    + now rewrite String.eqb_refl.
    + destruct (String.eqb_spec k k'); [contradiction | exact IH].
Qed.

Lemma assoc_put_other k k' v es :
  k <> k' -> assoc k (assoc_put k' v es) = assoc k es.
Proof.
  intros Hne. induction es as [|[k2 v2] es IH]; cbn.
  - destruct (String.eqb_spec k k'); [contradiction | reflexivity].
  - destruct (String.eqb_spec k' k2) as [<-|Hk2]; cbn.
    + destruct (String.eqb_spec k k'); [contradiction | reflexivity].
    + destruct (String.eqb_spec k k2); [reflexivity | exact IH].
Qed.

Lemma assoc_del_same k es : assoc k (assoc_del k es) = None.
Proof.
  induction es as [|[k' v'] es IH]; cbn; [reflexivity|].
  destruct (String.eqb_spec k k') as [|Hne]; [exact IH|]. cbn.
  destruct (String.eqb_spec k k'); [contradiction | exact IH].
Qed.

Lemma assoc_del_other k k' es :
  k <> k' -> assoc k (assoc_del k' es) = assoc k es.
Proof.
  intros Hne. induction es as [|[k2 v2] es IH]; cbn; [reflexivity|].
  destruct (String.eqb_spec k' k2) as [<-|Hk2]; cbn.
  - destruct (String.eqb_spec k k'); [contradiction | exact IH].
  - destruct (String.eqb_spec k k2); [reflexivity | exact IH].
Qed.

Lemma assoc_in k es : assoc k es <> None <-> In k (map fst es).
Proof.
  induction es as [|[k' v'] es IH]; cbn.
  - split; [congruence | tauto].
  - destruct (String.eqb_spec k k') as [->|Hne].
    + split; [auto | discriminate].
    + rewrite IH. split; [auto | intros [Heq|]; [congruence | auto]].
Qed.

(** *** Prefixes *)

Lemma is_prefix_iff p q : is_prefix p q = true <-> exists r, q = (p ++ r)%list.
Proof.
  revert q. induction p as [|a p IH]; intros q; cbn.
  - split; [now exists q | reflexivity].
  - destruct q as [|b q].
    + split; [discriminate | intros [r [=]]].
    + rewrite andb_true_iff, IH. split.
      * intros [Hab [r ->]]. apply String.eqb_eq in Hab as ->. now exists r.
      * intros [r [= -> ->]]. split; [apply String.eqb_refl | now exists r].
Qed.

Lemma is_prefix_refl p : is_prefix p p = true.
Proof. apply is_prefix_iff. exists []. now rewrite app_nil_r. Qed.

Lemma is_prefix_app p r : is_prefix p (p ++ r)%list = true.
Proof. apply is_prefix_iff. now exists r. Qed.

Lemma is_prefix_trans p q r :
  is_prefix p q = true -> is_prefix q r = true -> is_prefix p r = true.
Proof.
  rewrite !is_prefix_iff. intros [a ->] [b ->].
  exists (a ++ b)%list. now rewrite app_assoc.
Qed.

Lemma same_path_iff p q : same_path p q = true <-> p = q.
Proof.
  unfold same_path. rewrite andb_true_iff, !is_prefix_iff. split.
  - intros [[a ->] [b Hb]].
    rewrite <- app_assoc in Hb.
    rewrite <- (app_nil_r p) in Hb at 1.
    apply app_inv_head in Hb. symmetry in Hb.
    apply app_eq_nil in Hb as [-> _]. now rewrite app_nil_r.
  - intros ->. split; exists []; now rewrite app_nil_r.
Qed.

(** *** Looking up and updating *)

Lemma lookup_app p r root :
  lookup (p ++ r)%list root
  = match lookup p root with
    | Some n => lookup r n
    | None => None
    end.
Proof.
  revert root. induction p as [|s p IH]; intros root; cbn; [reflexivity|].
  destruct root as [|es]; [reflexivity|].
  destruct (assoc s es); [apply IH | reflexivity].
Qed.

(** Whatever lies under a path lies in a directory. *)
Lemma lookup_below_dir p r root n :
  lookup (p ++ r)%list root = Some n -> r <> [] -> is_dir root p = true.
Proof.
  rewrite lookup_app. unfold is_dir.
  destruct (lookup p root) as [[|es]|]; try discriminate; auto.
  destruct r; [congruence | discriminate].
Qed.

Lemma is_dir_prefix p q root :
  is_prefix p q = true -> is_dir root q = true -> is_dir root p = true.
Proof.
  rewrite is_prefix_iff. intros [r ->] Hq.
  destruct r as [|s r]; [now rewrite app_nil_r in Hq|].
  unfold is_dir in Hq.
  destruct (lookup (p ++ s :: r)%list root) as [n|] eqn:Hn; [|discriminate].
  now apply (lookup_below_dir p (s :: r) root n).
Qed.

Lemma update_parent p v root root' :
  update p v root = Some root' -> is_dir root (removelast p) = true.
Proof.
  revert root root'. induction p as [|s p IH]; intros root root'; cbn [update];
    [discriminate|].
  destruct root as [|es]; [discriminate|].
  destruct p as [|s' p]; [reflexivity|].
  destruct (assoc s es) as [child|] eqn:Hs; [|discriminate].
  destruct (update (s' :: p) v child) as [child'|] eqn:Hu; [|discriminate].
  intros _. specialize (IH _ _ Hu).
  change (removelast (s :: s' :: p)) with (s :: removelast (s' :: p)).
  unfold is_dir in *. cbn [lookup]. now rewrite Hs.
Qed.

Lemma update_succeeds parent s v root :
  is_dir root parent = true ->
  exists root', update (parent ++ [s])%list v root = Some root'.
Proof.
  revert root. induction parent as [|a parent IH]; intros root Hdir.
  - unfold is_dir in Hdir. cbn in Hdir. destruct root; [discriminate|].
    cbn. eauto.
  - unfold is_dir in Hdir. cbn [lookup] in Hdir.
    destruct root as [|es]; [discriminate|].
    destruct (assoc a es) as [child|] eqn:Ha; [|discriminate].
    destruct (IH child Hdir) as [child' Hc].
    cbn [app update]. rewrite Ha.
    destruct (parent ++ [s])%list eqn:Hp; [now destruct parent|].
    rewrite Hc. eauto.
Qed.

Lemma lookup_update_below p r v root root' :
  update p v root = Some root' ->
  lookup (p ++ r)%list root'
  = match v with
    | Some n => lookup r n
    | None => match r with [] => None | _ => None end
    end.
Proof.
  revert root root'. induction p as [|s p IH]; intros root root'; cbn [update];
    [discriminate|].
  destruct root as [|es]; [discriminate|].
  destruct p as [|s' p].
  - intros [= <-]. cbn [app lookup].
    destruct v as [n|].
    + now rewrite assoc_put_same.
    + rewrite assoc_del_same. now destruct r.
  - destruct (assoc s es) as [child|] eqn:Hs; [|discriminate].
    destruct (update (s' :: p) v child) as [child'|] eqn:Hu; [|discriminate].
    intros [= <-]. cbn [app lookup]. rewrite assoc_put_same.
    exact (IH _ _ Hu).
Qed.

Lemma lookup_update_same p v root root' :
  update p v root = Some root' -> lookup p root' = v.
Proof.
  intros Hu. rewrite <- (app_nil_r p).
  rewrite (lookup_update_below p [] v root root' Hu). now destruct v.
Qed.

(** An update leaves alone what is neither under nor above its path. *)
Lemma lookup_update_apart p q v root root' :
  update p v root = Some root' ->
  is_prefix p q = false -> is_prefix q p = false ->
  lookup q root' = lookup q root.
Proof.
  revert q root root'. induction p as [|s p IH]; intros q root root';
    cbn [update]; [discriminate|].
  destruct root as [|es]; [discriminate|].
  destruct q as [|t q]; [discriminate|].
  cbn [is_prefix]. intros Hu Hpq Hqp.
  destruct (String.eqb_spec s t) as [<-|Hst].
  - rewrite String.eqb_refl in Hqp. cbn [andb] in Hpq, Hqp.
    destruct p as [|s' p]; [discriminate|].
    destruct (assoc s es) as [child|] eqn:Hs; [|discriminate].
    destruct (update (s' :: p) v child) as [child'|] eqn:Hc; [|discriminate].
    injection Hu as <-. cbn [lookup]. rewrite assoc_put_same, Hs.
    exact (IH q _ _ Hc Hpq Hqp).
  - assert (Hts : t <> s) by congruence.
    destruct p as [|s' p].
    + injection Hu as <-. cbn [lookup].
      destruct v; now rewrite ?assoc_put_other, ?assoc_del_other.
    + destruct (assoc s es) as [child|] eqn:Hs; [|discriminate].
      destruct (update (s' :: p) v child) as [child'|]; [|discriminate].
      injection Hu as <-. cbn [lookup]. now rewrite assoc_put_other.
Qed.

(** Above the path of an update there are directories, before and after. *)
Lemma is_dir_update_above p q v root root' :
  update p v root = Some root' ->
  is_prefix q p = true -> q <> p ->
  is_dir root' q = true /\ is_dir root q = true.
Proof.
  revert q root root'. induction p as [|s p IH]; intros q root root';
    cbn [update]; [discriminate|].
  destruct root as [|es]; [discriminate|].
  intros Hu Hqp Hne.
  destruct q as [|t q].
  - destruct p; [injection Hu as <- | ]; cbn.
    + now split.
    + destruct (assoc s es); [|discriminate].
      destruct (update _ v n); [|discriminate].
      injection Hu as <-. now split.
  - cbn [is_prefix] in Hqp. apply andb_true_iff in Hqp as [Hts Hqp].
    apply String.eqb_eq in Hts as ->.
    destruct p as [|s' p]; [now destruct q|].
    destruct (assoc s es) as [child|] eqn:Hs; [|discriminate].
    destruct (update (s' :: p) v child) as [child'|] eqn:Hc; [|discriminate].
    injection Hu as <-.
    assert (Hne' : q <> s' :: p) by congruence.
    destruct (IH q _ _ Hc Hqp Hne') as [H1 H2].
    unfold is_dir in *. cbn [lookup]. now rewrite assoc_put_same, Hs.
Qed.

(** Outside the subtree of an update, directories stay directories and
    nothing becomes one. *)
Lemma is_dir_update_outside p q v root root' :
  update p v root = Some root' ->
  is_prefix p q = false ->
  is_dir root' q = is_dir root q.
Proof.
  intros Hu Hpq.
  destruct (is_prefix q p) eqn:Hqp.
  - assert (Hne : q <> p).
    { intros ->. now rewrite is_prefix_refl in Hpq. }
    destruct (is_dir_update_above p q v root root' Hu Hqp Hne) as [-> ->].
    reflexivity.
  - unfold is_dir. now rewrite (lookup_update_apart p q v root root' Hu).
Qed.

End FSFacts.

(* ===================================================================== *)
(** ** Path strings and their resolution *)
(* ===================================================================== *)

Module PathFacts.
Import FS FSFacts.

(** *** Splitting and joining *)

Lemma split_nonempty sep s : split sep s <> [].
Proof.
  destruct s as [|c s]; cbn; [discriminate|].
  destruct (Ascii.eqb c sep); [discriminate|].
  destruct (split sep s); discriminate.
Qed.

Lemma split_app_sep sep a b :
  split sep (a ++ String sep b) = (split sep a ++ split sep b)%list.
Proof.
  induction a as [|c a IH]; cbn.
  - now rewrite Ascii.eqb_refl.
  - rewrite IH. destruct (Ascii.eqb c sep); [reflexivity|].
    destruct (split sep a) eqn:Ha; [now destruct (split_nonempty sep a)|].
    reflexivity.
Qed.

Lemma split_no_sep sep s : mem sep s = false -> split sep s = [s].
Proof.
  induction s as [|c s IH]; cbn; [reflexivity|].
  rewrite Ascii.eqb_sym. destruct (Ascii.eqb c sep); cbn; [discriminate|].
  intros Hs. now rewrite (IH Hs).
Qed.

Lemma endswith_split sep s :
  endswith_char s sep = true ->
  exists l, l <> [] /\ split sep s = (l ++ [""])%list.
Proof.
  induction s as [|c s IH]; [discriminate|].
  destruct s as [|d s].
  - cbn. intros ->. now exists [""].
  - intros H. destruct (IH H) as (l & Hl & Hsplit).
    cbn [split]. cbn [split] in Hsplit. rewrite Hsplit.
    destruct (Ascii.eqb c sep).
    + exists ("" :: l). split; [discriminate | reflexivity].
    + destruct l as [|hd tl]; [contradiction|].
      exists (String c hd :: tl). split; [discriminate | reflexivity].
Qed.

Lemma name_ok_proper name :
  name_ok name = true ->
  is_trivial name = false /\ is_dotdot name = false
  /\ mem "/" name = false.
Proof.
  unfold name_ok. rewrite !andb_true_iff, !negb_true_iff. tauto.
Qed.

Lemma name_ok_relative name :
  name_ok name = true -> startswith name "/" = false.
Proof.
  intros H. apply name_ok_proper in H as (_ & _ & Hsep).
  destruct name as [|c name]; [reflexivity|].
  unfold startswith. cbn [String.prefix mem] in Hsep |- *.
  destruct (ascii_dec "/" c) as [<-|]; [|reflexivity].
  now rewrite Ascii.eqb_refl in Hsep.
Qed.

Lemma clean_first s :
  clean_relative s = true ->
  s <> "" /\ startswith s "/" = false /\ endswith_char s "/" = false.
Proof.
  unfold clean_relative. intros H. repeat split.
  - intros ->. discriminate.
  - destruct s as [|c s]; [reflexivity|].
    unfold startswith. cbn [String.prefix split] in H |- *.
    destruct (ascii_dec "/" c) as [<-|]; [|reflexivity].
    rewrite Ascii.eqb_refl in H. discriminate.
  - destruct (endswith_char s "/") eqn:E; [|reflexivity].
    destruct (endswith_split "/" s E) as (l & _ & Hl).
    rewrite Hl, forallb_app in H. cbn in H.
    now rewrite andb_false_r in H.
Qed.

Lemma join_clean a name :
  clean_relative a = true -> name_ok name = true ->
  OsPath.join a name = a ++ String "/" name.
Proof.
  intros Ha Hn. unfold OsPath.join.
  rewrite (name_ok_relative name Hn).
  destruct (clean_first a Ha) as (Hne & _ & Hend).
  unfold OsPath.sep. rewrite Hend.
  destruct (String.eqb_spec a ""); [contradiction | reflexivity].
Qed.

Lemma split_join_clean a name :
  clean_relative a = true -> name_ok name = true ->
  split "/" (OsPath.join a name) = (split "/" a ++ [name])%list.
Proof.
  intros Ha Hn. rewrite (join_clean a name Ha Hn), split_app_sep.
  apply name_ok_proper in Hn as (_ & _ & Hsep).
  now rewrite (split_no_sep "/" name Hsep).
Qed.

Lemma join_clean_clean a name :
  clean_relative a = true -> name_ok name = true ->
  clean_relative (OsPath.join a name) = true.
Proof.
  intros Ha Hn. unfold clean_relative.
  rewrite (split_join_clean a name Ha Hn), forallb_app. cbn.
  fold (clean_relative a). now rewrite Ha, Hn.
Qed.

(** *** Walking *)

Lemma walk_app root cur a b :
  walk root cur (a ++ b)
  = match walk root cur a with
    | Some c => walk root c b
    | None => None
    end.
Proof.
  revert cur. induction a as [|s a IH]; intros cur; cbn; [reflexivity|].
  destruct (is_dir root cur); [apply IH | reflexivity].
Qed.

Lemma walk_lexical root cur segs p :
  walk root cur segs = Some p -> p = fold_left step segs cur.
Proof.
  revert cur. induction segs as [|s segs IH]; intros cur; cbn.
  - now intros [= <-].
  - destruct (is_dir root cur); [apply IH | discriminate].
Qed.

Lemma step_name cur name :
  name_ok name = true -> step cur name = (cur ++ [name])%list.
Proof.
  intros H. apply name_ok_proper in H as (Ht & Hd & _).
  unfold step. now rewrite Ht, Hd.
Qed.

Lemma lexical_clean cur segs :
  forallb name_ok segs = true -> fold_left step segs cur = (cur ++ segs)%list.
Proof.
  revert cur. induction segs as [|s segs IH]; intros cur; cbn.
  - now rewrite app_nil_r.
  - rewrite andb_true_iff. intros [Hs Hsegs].
    rewrite (step_name cur s Hs), (IH _ Hsegs), <- app_assoc. reflexivity.
Qed.

Lemma step_extends cur seg :
  is_dotdot seg = false -> is_prefix cur (step cur seg) = true.
Proof.
  intros Hd. unfold step. rewrite Hd.
  destruct (is_trivial seg); [apply is_prefix_refl | apply is_prefix_app].
Qed.

Lemma lexical_extends cur segs :
  forallb (fun seg => negb (is_dotdot seg)) segs = true ->
  is_prefix cur (fold_left step segs cur) = true.
Proof.
  revert cur. induction segs as [|s segs IH]; intros cur; cbn.
  - intros _. apply is_prefix_refl.
  - rewrite andb_true_iff, negb_true_iff. intros [Hs Hsegs].
    exact (is_prefix_trans _ _ _ (step_extends cur s Hs) (IH _ Hsegs)).
Qed.

(** Resolution follows the directories: where fewer are directories,
    fewer paths resolve, and to the same places. *)
Lemma walk_mono root root' cur segs p :
  (forall q, is_dir root' q = true -> is_dir root q = true) ->
  walk root' cur segs = Some p -> walk root cur segs = Some p.
Proof.
  intros Hmono. revert cur. induction segs as [|s segs IH]; intros cur; cbn;
    [auto|].
  destruct (is_dir root' cur) eqn:Hd; [|discriminate].
  rewrite (Hmono _ Hd). apply IH.
Qed.

(** A path without [..] that leads to a directory resolves. *)
Lemma walk_to_dir root cur segs :
  forallb (fun seg => negb (is_dotdot seg)) segs = true ->
  is_dir root (fold_left step segs cur) = true ->
  walk root cur segs = Some (fold_left step segs cur).
Proof.
  revert cur. induction segs as [|s segs IH]; intros cur Hsegs Hdir; cbn;
    [reflexivity|].
  assert (Hcur : is_dir root cur = true).
  { apply (is_dir_prefix cur _ root (lexical_extends cur (s :: segs) Hsegs)).
    exact Hdir. }
  rewrite Hcur. cbn in Hsegs. apply andb_true_iff in Hsegs as [_ Hsegs].
  now apply IH.
Qed.

Lemma clean_no_dotdot segs :
  forallb name_ok segs = true ->
  forallb (fun seg => negb (is_dotdot seg)) segs = true.
Proof.
  rewrite !forallb_forall. intros H seg Hin.
  destruct (name_ok_proper seg (H seg Hin)) as (_ & -> & _). reflexivity.
Qed.

(** The entries of a directory resolve as long as it is one. *)
Lemma walk_child root cur segs name :
  forallb name_ok segs = true -> name_ok name = true ->
  is_dir root (cur ++ segs)%list = true ->
  walk root cur (segs ++ [name]) = Some (cur ++ segs ++ [name])%list.
Proof.
  intros Hsegs Hname Hdir. rewrite walk_app.
  rewrite (walk_to_dir root cur segs (clean_no_dotdot segs Hsegs));
    rewrite (lexical_clean cur segs Hsegs); [|exact Hdir].
  cbn. rewrite Hdir, (step_name _ name Hname), <- app_assoc. reflexivity.
Qed.

(** A clean path that does not resolve names nothing. *)
Lemma walk_clean_fails root cur segs :
  forallb name_ok segs = true ->
  walk root cur segs = None -> lookup (cur ++ segs)%list root = None.
Proof.
  revert cur. induction segs as [|s segs IH]; intros cur Hsegs; cbn;
    [discriminate|].
  apply andb_true_iff in Hsegs as [Hs Hsegs].
  destruct (is_dir root cur) eqn:Hdir.
  - rewrite (step_name cur s Hs). intros Hw.
    specialize (IH _ Hsegs Hw). now rewrite <- app_assoc in IH.
  - intros _. destruct (lookup (cur ++ s :: segs)%list root) eqn:Hl; [|reflexivity].
    rewrite (lookup_below_dir cur (s :: segs) root n Hl) in Hdir;
      [discriminate | discriminate].
Qed.

Lemma start_clean cwd s : clean_relative s = true -> start cwd s = cwd.
Proof.
  intros H. unfold start, is_absolute.
  now destruct (clean_first s H) as (_ & -> & _).
Qed.

Lemma resolve_clean root cwd s :
  clean_relative s = true ->
  resolve root cwd s = walk root cwd (split "/" s).
Proof.
  intros H. unfold resolve. rewrite (start_clean cwd s H).
  destruct (clean_first s H) as (Hne & _ & _).
  destruct (String.eqb_spec s ""); [contradiction | reflexivity].
Qed.

(** What a clean path names is what lies at its components. *)
Lemma resolve_clean_lookup root cwd s :
  clean_relative s = true ->
  match resolve root cwd s with
  | Some p => lookup p root
  | None => None
  end = lookup (cwd ++ split "/" s)%list root.
Proof.
  intros H. rewrite (resolve_clean root cwd s H).
  destruct (walk root cwd (split "/" s)) as [p|] eqn:Hw.
  - apply walk_lexical in Hw as ->. now rewrite (lexical_clean cwd _ H).
  - symmetry. now apply walk_clean_fails.
Qed.

Lemma resolve_child root cwd s name :
  clean_relative s = true -> name_ok name = true ->
  is_dir root (cwd ++ split "/" s)%list = true ->
  resolve root cwd (OsPath.join s name)
  = Some (cwd ++ split "/" s ++ [name])%list.
Proof.
  intros Hs Hn Hdir.
  rewrite (resolve_clean root cwd _ (join_clean_clean s name Hs Hn)).
  rewrite (split_join_clean s name Hs Hn).
  now apply walk_child.
Qed.

Lemma resolve_dir root cwd s :
  clean_relative s = true ->
  is_dir root (cwd ++ split "/" s)%list = true ->
  resolve root cwd s = Some (cwd ++ split "/" s)%list.
Proof.
  intros Hs Hdir. rewrite (resolve_clean root cwd s Hs).
  rewrite <- (lexical_clean cwd _ Hs) in Hdir |- *.
  apply walk_to_dir; [now apply clean_no_dotdot | exact Hdir].
Qed.

End PathFacts.

(* ===================================================================== *)
(** ** Paths that lie apart *)
(* ===================================================================== *)

Local Open Scope list_scope.

Module ApartFacts.
Import FS FSFacts.

Lemma is_prefix_common c p q :
  is_prefix (c ++ p) (c ++ q)%list = is_prefix p q.
Proof.
  induction c as [|s c IH]; cbn; [reflexivity|].
  now rewrite String.eqb_refl.
Qed.

(** Two paths with a common extension are comparable. *)
Lemma prefix_comparable p q a b :
  (p ++ a = q ++ b)%list ->
  is_prefix p q = true \/ is_prefix q p = true.
Proof.
  revert q. induction p as [|s p IH]; intros q H; [now left|].
  destruct q as [|t q]; [now right|].
  injection H as -> H. cbn. rewrite String.eqb_refl. cbn. now apply IH.
Qed.

Lemma apart_extensions p q a b :
  is_prefix p q = false -> is_prefix q p = false ->
  is_prefix (p ++ a) (q ++ b)%list = false.
Proof.
  intros Hpq Hqp.
  destruct (is_prefix (p ++ a) (q ++ b)%list) eqn:H; [|reflexivity].
  apply is_prefix_iff in H as [r Hr].
  rewrite <- app_assoc in Hr. symmetry in Hr.
  destruct (prefix_comparable p q _ _ Hr); congruence.
Qed.

Lemma sibling_apart p a b r :
  a <> b -> is_prefix (p ++ [a]) (p ++ b :: r)%list = false.
Proof.
  intros Hab. rewrite is_prefix_common. cbn.
  destruct (String.eqb_spec a b); [contradiction | reflexivity].
Qed.

Lemma child_not_above p a : is_prefix (p ++ [a])%list p = false.
Proof.
  rewrite <- (app_nil_r p) at 2. rewrite is_prefix_common. reflexivity.
Qed.

Lemma not_prefix_of_shorter p q a :
  is_prefix p q = false -> is_prefix (p ++ a)%list q = false.
Proof.
  intros H. destruct (is_prefix (p ++ a)%list q) eqn:E; [|reflexivity].
  rewrite <- H. symmetry.
  exact (is_prefix_trans _ _ _ (is_prefix_app p a) E).
Qed.

End ApartFacts.

(* ===================================================================== *)
(** ** Making directories *)
(* ===================================================================== *)

Module MakedirsFacts.
Import FS FSFacts PathFacts ApartFacts.

(** On a clean path [os.makedirs] changes nothing but on the way to its
    target, where it leaves directories. *)
Lemma makedirs_from_clean segs : forall root cur root',
  forallb name_ok segs = true ->
  is_dir root cur = true ->
  makedirs_from root cur segs = (true, root') ->
  is_dir root' (cur ++ segs)%list = true
  /\ forall q, is_prefix q (cur ++ segs)%list = false ->
               lookup q root' = lookup q root.
Proof.
  induction segs as [|s segs IH]; intros root cur root' Hsegs Hcur; cbn.
  - intros [= <-]. rewrite app_nil_r. auto.
  - apply andb_true_iff in Hsegs as [Hs Hsegs].
    destruct (name_ok_proper s Hs) as (-> & -> & _).
    replace (cur ++ s :: segs)%list with ((cur ++ [s]) ++ segs)%list
      by now rewrite <- app_assoc.
    destruct (lookup (cur ++ [s]) root) as [[data|es]|] eqn:Hnext.
    + discriminate.
    + apply IH; [exact Hsegs|]. unfold is_dir. now rewrite Hnext.
    + destruct (update (cur ++ [s]) (Some (Dir [])) root) as [root1|] eqn:Hu;
        [|discriminate].
      intros Hrec.
      assert (Hdir1 : is_dir root1 (cur ++ [s])%list = true).
      { unfold is_dir. now rewrite (lookup_update_same _ _ _ _ Hu). }
      destruct (IH root1 (cur ++ [s])%list root' Hsegs Hdir1 Hrec)
        as [Hdir Hframe].
      split; [exact Hdir|].
      intros q Hq. rewrite (Hframe q Hq).
      destruct (is_prefix (cur ++ [s]) q) eqn:Hunder.
      * apply is_prefix_iff in Hunder as [r ->].
        rewrite (lookup_update_below _ r _ _ _ Hu), lookup_app, Hnext.
        destruct r; [|reflexivity].
        rewrite app_nil_r, is_prefix_app in Hq. discriminate.
      * apply (lookup_update_apart _ q _ _ _ Hu Hunder).
        destruct (is_prefix q (cur ++ [s])) eqn:Habove; [|reflexivity].
        rewrite <- Hq. symmetry.
        exact (is_prefix_trans _ _ _ Habove (is_prefix_app _ segs)).
Qed.

Lemma makedirs_clean root cwd s root' :
  clean_relative s = true ->
  makedirs root cwd s = (Ok tt, root') ->
  is_dir root' (cwd ++ split "/" s)%list = true
  /\ forall q, is_prefix q (cwd ++ split "/" s)%list = false ->
               lookup q root' = lookup q root.
Proof.
  intros Hs. unfold makedirs. rewrite (start_clean cwd s Hs).
  destruct (String.eqb s ""); [discriminate|].
  destruct (is_dir root cwd) eqn:Hcwd; cbn [negb]; [|discriminate].
  destruct (makedirs_from root cwd (split "/" s)) as [[|] r] eqn:Hm;
    [|discriminate].
  intros [= <-]. now apply (makedirs_from_clean _ root cwd r).
Qed.

End MakedirsFacts.

(* ===================================================================== *)
(** ** Staged Materializer: the move loop *)
(* ===================================================================== *)

(** How the statements run: one equation for each. *)
Section Statements.

Lemma bind_run {A B} (m : M A) (k : A -> M B) w :
  bind m k w
  = match m w with
    | (Ok a, w') => k a w'
    | (Raise e, w') => (Raise e, w')
    end.
Proof. reflexivity. Qed.

Lemma try_except_run {A} caught (body : M A) handler w :
  try_except caught body handler w
  = match body w with
    | (Raise e, w') => if caught e then handler e w' else (Raise e, w')
    | done => done
    end.
Proof. reflexivity. Qed.

Lemma fs_call_run f w :
  fs_call f w
  = match f (w_root w) (w_cwd w) with
    | Ok root' => (Ok tt, set_root w root')
    | Raise e => (Raise e, w)
    end.
Proof. reflexivity. Qed.

Lemma os_path_exists_run s w :
  os_path_exists s w = (Ok (FS.exists_ (w_root w) (w_cwd w) s), w).
Proof. reflexivity. Qed.

Lemma os_path_isdir_run s w :
  os_path_isdir s w = (Ok (FS.isdir (w_root w) (w_cwd w) s), w).
Proof. reflexivity. Qed.

Lemma os_listdir_run s w :
  os_listdir s w = (FS.listdir (w_root w) (w_cwd w) s, w).
Proof. reflexivity. Qed.

Lemma set_root_same w : set_root w (w_root w) = w.
Proof. now destruct w. Qed.

Lemma set_root_twice w r1 r2 : set_root (set_root w r1) r2 = set_root w r2.
Proof. reflexivity. Qed.

End Statements.

(** What the path strings of the script observe, at their locations. *)
Section Observations.
Import FS FSFacts PathFacts.

Lemma observe_clean {A} (f : option node -> A) root cwd s :
  clean_relative s = true ->
  match resolve root cwd s with
  | Some p => f (lookup p root)
  | None => f None
  end = f (lookup (cwd ++ split "/" s) root).
Proof.
  intros H. rewrite <- (resolve_clean_lookup root cwd s H).
  now destruct (resolve root cwd s).
Qed.

Lemma entry_at_clean w s :
  clean_relative s = true ->
  entry_at w s = lookup (location w s) (w_root w).
Proof. intros H. exact (resolve_clean_lookup _ _ s H). Qed.

Lemma entry_at_child w s name :
  clean_relative s = true -> name_ok name = true ->
  entry_at w (OsPath.join s name)
  = lookup (location w s ++ [name]) (w_root w).
Proof.
  intros Hs Hn. rewrite (entry_at_clean w _ (join_clean_clean s name Hs Hn)).
  unfold location. now rewrite (split_join_clean s name Hs Hn), app_assoc.
Qed.

Lemma exists_clean root cwd s :
  clean_relative s = true ->
  exists_ root cwd s = present root (cwd ++ split "/" s).
Proof.
  intros H. unfold exists_, present.
  exact (observe_clean
           (fun o => match o with Some _ => true | None => false end)
           root cwd s H).
Qed.

Lemma isdir_clean root cwd s :
  clean_relative s = true ->
  isdir root cwd s = is_dir root (cwd ++ split "/" s).
Proof.
  intros H. unfold isdir, is_dir.
  exact (observe_clean
           (fun o => match o with Some (Dir _) => true | _ => false end)
           root cwd s H).
Qed.

Lemma listdir_clean root cwd s es :
  clean_relative s = true ->
  lookup (cwd ++ split "/" s) root = Some (Dir es) ->
  listdir root cwd s = Ok (map fst es).
Proof.
  intros H Hl. unfold listdir.
  assert (Hdir : is_dir root (cwd ++ split "/" s) = true).
  { unfold is_dir. now rewrite Hl. }
  now rewrite (resolve_dir root cwd s H Hdir), Hl.
Qed.

End Observations.

Section MoveLoop.
Import FS FSFacts PathFacts ApartFacts MakedirsFacts.

Variables (temp_dir output_dir : string).
Hypothesis clean_temp : clean_relative temp_dir = true.
Hypothesis clean_out : clean_relative output_dir = true.
Hypothesis temp_out_apart : apart temp_dir output_dir.

Lemma staging_destination_apart w :
  is_prefix (location w temp_dir) (location w output_dir) = false
  /\ is_prefix (location w output_dir) (location w temp_dir) = false.
Proof.
  unfold location. rewrite !is_prefix_common.
  exact temp_out_apart.
Qed.

Lemma resolve_in_destination w name :
  name_ok name = true -> is_dir (w_root w) (location w output_dir) = true ->
  resolve (w_root w) (w_cwd w) (OsPath.join output_dir name)
  = Some (location w output_dir ++ [name]).
Proof.
  intros Hn Hd. unfold location. rewrite <- app_assoc.
  now apply resolve_child.
Qed.

Lemma resolve_in_staging w name :
  name_ok name = true -> is_dir (w_root w) (location w temp_dir) = true ->
  resolve (w_root w) (w_cwd w) (OsPath.join temp_dir name)
  = Some (location w temp_dir ++ [name]).
Proof.
  intros Hn Hd. unfold location. rewrite <- app_assoc.
  now apply resolve_child.
Qed.

(** Removing what is in the way of [name] at the destination. *)
Lemma clear_destination w name :
  name_ok name = true ->
  both_there temp_dir output_dir (w_root w) w ->
  exists root1,
    remove_existing (OsPath.join output_dir name) w
    = (Ok tt, set_root w root1)
    /\ lookup (location w output_dir ++ [name]) root1 = None
    /\ (forall q, is_prefix (location w output_dir ++ [name]) q = false ->
                  is_dir root1 q = is_dir (w_root w) q)
    /\ (forall q, is_prefix (location w output_dir ++ [name]) q = false ->
                  is_prefix q (location w output_dir ++ [name]) = false ->
                  lookup q root1 = lookup q (w_root w)).
Proof.
  intros Hn [Hdst Hstg].
  pose proof (resolve_in_destination w name Hn Hdst) as Hres.
  destruct (update_succeeds (location w output_dir) name None (w_root w) Hdst)
    as [root1 Hu].
  assert (Hfacts :
    lookup (location w output_dir ++ [name]) root1 = None
    /\ (forall q, is_prefix (location w output_dir ++ [name]) q = false ->
                  is_dir root1 q = is_dir (w_root w) q)
    /\ (forall q, is_prefix (location w output_dir ++ [name]) q = false ->
                  is_prefix q (location w output_dir ++ [name]) = false ->
                  lookup q root1 = lookup q (w_root w))).
  { split; [exact (lookup_update_same _ _ _ _ Hu)|]. split.
    - intros q Hq. exact (is_dir_update_outside _ q _ _ _ Hu Hq).
    - intros q Hq Hq'. exact (lookup_update_apart _ q _ _ _ Hu Hq Hq'). }
  destruct (lookup (location w output_dir ++ [name]) (w_root w)) as [[data|es]|] eqn:Hl.
  - (* a file is in the way *)
    exists root1. split; [|exact Hfacts]. unfold remove_existing.
    rewrite bind_run, os_path_exists_run.
    unfold exists_, present. rewrite Hres, Hl.
    rewrite bind_run, os_path_isdir_run.
    unfold isdir, is_dir. rewrite Hres, Hl.
    unfold os_unlink. rewrite fs_call_run.
    unfold unlink. now rewrite Hres, Hl, Hu.
  - (* a directory is in the way *)
    exists root1. split; [|exact Hfacts]. unfold remove_existing.
    rewrite bind_run, os_path_exists_run.
    unfold exists_, present. rewrite Hres, Hl.
    rewrite bind_run, os_path_isdir_run.
    unfold isdir, is_dir. rewrite Hres, Hl.
    unfold shutil_rmtree_ignore_errors. rewrite fs_call_run.
    unfold rmtree_ignore_errors. rewrite Hres, Hl, Hu.
    destruct (location w output_dir ++ [name]) eqn:E; [|reflexivity].
    now destruct (location w output_dir).
  - (* nothing is in the way *)
    exists (w_root w). split.
    + unfold remove_existing. rewrite bind_run, os_path_exists_run.
      unfold exists_, present. rewrite Hres, Hl.
      now rewrite set_root_same.
    + split; [exact Hl | split; reflexivity].
Qed.

(** One iteration of the move loop: the staged entry takes the place
    of what the destination had under that name. *)
Lemma move_item_moves w name n :
  name_ok name = true ->
  both_there temp_dir output_dir (w_root w) w ->
  lookup (location w temp_dir ++ [name]) (w_root w) = Some n ->
  exists root',
    move_item temp_dir output_dir name w = (Ok tt, set_root w root')
    /\ both_there temp_dir output_dir root' w
    /\ lookup (location w output_dir ++ [name]) root' = Some n
    /\ forall q, untouched temp_dir output_dir w name q -> lookup q root' = lookup q (w_root w).
Proof.
  intros Hn Hboth Hstaged.
  destruct (staging_destination_apart w) as [Hsd Hds].
  destruct (clear_destination w name Hn Hboth)
    as (root1 & Hclear & Hnone & Hdirs1 & Hframe1).
  destruct Hboth as [Hdst Hstg].
  assert (Hdst1 : is_dir root1 (location w output_dir) = true).
  { rewrite Hdirs1; [exact Hdst | apply child_not_above]. }
  assert (Hstg1 : is_dir root1 (location w temp_dir) = true).
  { rewrite Hdirs1; [exact Hstg | now apply not_prefix_of_shorter]. }
  assert (Hsrc1 : lookup (location w temp_dir ++ [name]) root1 = Some n).
  { rewrite Hframe1; [exact Hstaged | now apply apart_extensions ..]. }
  destruct (update_succeeds (location w temp_dir) name None root1 Hstg1)
    as [root2 Hu2].
  assert (Hdst2 : is_dir root2 (location w output_dir) = true).
  { rewrite (is_dir_update_outside _ _ _ _ _ Hu2); [exact Hdst1|].
    now apply not_prefix_of_shorter. }
  destruct (update_succeeds (location w output_dir) name (Some n) root2 Hdst2)
    as [root3 Hu3].
  exists root3. split; [|split; [|split]].
  - unfold move_item. rewrite bind_run, Hclear.
    set (w1 := set_root w root1).
    assert (Hrd : resolve (w_root w1) (w_cwd w1) (OsPath.join output_dir name)
                  = Some (location w output_dir ++ [name])).
    { apply (resolve_in_destination w1 name Hn). exact Hdst1. }
    assert (Hrs : resolve (w_root w1) (w_cwd w1) (OsPath.join temp_dir name)
                  = Some (location w temp_dir ++ [name])).
    { apply (resolve_in_staging w1 name Hn). exact Hstg1. }
    rewrite try_except_run. unfold shutil_move. rewrite fs_call_run.
    unfold move, isdir, is_dir. rewrite Hrd. cbn [w_root w1 set_root].
    rewrite Hnone. unfold rename. cbn [w_root w_cwd w1 set_root] in Hrd, Hrs |- *.
    rewrite Hrd, Hrs, Hsrc1.
    replace (same_path (location w temp_dir ++ [name]) (location w output_dir ++ [name]))
      with false.
    2:{ symmetry. unfold same_path.
        now rewrite (apart_extensions _ _ [name] [name] Hsd Hds). }
    rewrite (apart_extensions _ _ [name] [name] Hsd Hds), Hnone.
    destruct n; now rewrite Hu2, Hu3.
  - split.
    + rewrite (is_dir_update_outside _ _ _ _ _ Hu3); [exact Hdst2|].
      apply child_not_above.
    + rewrite (is_dir_update_outside _ _ _ _ _ Hu3),
        (is_dir_update_outside _ _ _ _ _ Hu2);
        [exact Hstg1 | apply child_not_above
        | now apply not_prefix_of_shorter].
  - exact (lookup_update_same _ _ _ _ Hu3).
  - intros q (Hq1 & Hq2 & Hq3 & Hq4).
    rewrite (lookup_update_apart _ q _ _ _ Hu3 Hq1 Hq2).
    rewrite (lookup_update_apart _ q _ _ _ Hu2 Hq3 Hq4).
    exact (Hframe1 q Hq1 Hq2).
Qed.

Lemma untouched_sibling_staged w name other r :
  other <> name -> untouched temp_dir output_dir w name (location w temp_dir ++ other :: r).
Proof.
  intros Hne. destruct (staging_destination_apart w) as [Hsd Hds].
  repeat split.
  - now apply apart_extensions.
  - destruct (is_prefix (location w temp_dir ++ other :: r) (location w output_dir ++ [name]))
      eqn:E; [|reflexivity].
    apply is_prefix_iff in E as [x Hx]. rewrite <- app_assoc in Hx.
    symmetry in Hx. destruct (prefix_comparable _ _ _ _ Hx); congruence.
  - apply sibling_apart. congruence.
  - rewrite is_prefix_common. cbn.
    destruct (String.eqb_spec other name); [contradiction | reflexivity].
Qed.

Lemma untouched_sibling_destination w name other :
  other <> name -> untouched temp_dir output_dir w name (location w output_dir ++ [other]).
Proof.
  intros Hne. destruct (staging_destination_apart w) as [Hsd Hds].
  repeat split.
  - apply sibling_apart. congruence.
  - apply sibling_apart. congruence.
  - now apply apart_extensions.
  - now apply apart_extensions.
Qed.

(** The move loop over distinct names that are all staged. *)
Lemma move_loop_moves items : forall w,
  NoDup items ->
  Forall (fun name => name_ok name = true) items ->
  both_there temp_dir output_dir (w_root w) w ->
  (forall name, In name items ->
                lookup (location w temp_dir ++ [name]) (w_root w) <> None) ->
  exists root',
    for_each items (move_item temp_dir output_dir) w
    = (Ok tt, set_root w root')
    /\ both_there temp_dir output_dir root' w
    /\ (forall name, In name items ->
                     lookup (location w output_dir ++ [name]) root'
                     = lookup (location w temp_dir ++ [name]) (w_root w))
    /\ (forall q, (forall name, In name items -> untouched temp_dir output_dir w name q) ->
                  lookup q root' = lookup q (w_root w)).
Proof.
  induction items as [|item items IH]; intros w Hnodup Hok Hboth Hstaged.
  - exists (w_root w). cbn [for_each]. unfold ret.
    rewrite set_root_same. repeat split; try apply Hboth; intros ? [].
  - inversion Hnodup as [|? ? Hnotin Hnodup']; subst.
    inversion Hok as [|? ? Hitem Hok']; subst.
    destruct (lookup (location w temp_dir ++ [item]) (w_root w)) as [n|] eqn:Hn;
      [|now elim (Hstaged item (or_introl eq_refl))].
    destruct (move_item_moves w item n Hitem Hboth Hn)
      as (root1 & Hrun & Hboth1 & Hmoved & Hframe1).
    assert (Hother : forall name, In name items -> name <> item).
    { intros name Hin ->. contradiction. }
    destruct (IH (set_root w root1) Hnodup' Hok' Hboth1)
      as (root' & Hloop & Hboth' & Hmoved' & Hframe').
    { intros name Hin. cbn [w_root set_root].
      change (location (set_root w root1) temp_dir) with (location w temp_dir).
      rewrite (Hframe1 _ (untouched_sibling_staged w item name [] (Hother _ Hin))).
      apply Hstaged. now right. }
    change (location (set_root w root1) temp_dir) with (location w temp_dir) in *.
    change (location (set_root w root1) output_dir) with (location w output_dir) in *.
    cbn [w_root set_root] in *.
    exists root'. split; [|split; [|split]].
    + cbn [for_each]. rewrite bind_run, Hrun, Hloop. reflexivity.
    + exact Hboth'.
    + intros name [<-|Hin].
      * rewrite Hframe', Hmoved; [now rewrite Hn|].
        intros other Hin.
        apply (untouched_sibling_destination (set_root w root1)).
        intros ->. now apply (Hother _ Hin).
      * rewrite (Hmoved' name Hin).
        apply (Hframe1 _ (untouched_sibling_staged w item name []
                            (Hother _ Hin))).
    + intros q Hq. rewrite Hframe'.
      * apply Hframe1. apply Hq. now left.
      * intros name Hin. apply (Hq name). now right.
Qed.

Lemma prefix_of_child p q a :
  is_prefix p (q ++ [a]) = true -> is_prefix p q = true \/ p = q ++ [a].
Proof.
  revert q. induction p as [|s p IH]; intros q; [now left|].
  destruct q as [|t q]; cbn.
  - rewrite andb_true_iff. intros [Hs Hp]. apply String.eqb_eq in Hs as ->.
    destruct p; [now right | discriminate].
  - rewrite andb_true_iff. intros [Hs Hp]. apply String.eqb_eq in Hs as ->.
    rewrite String.eqb_refl. cbn.
    destruct (IH q Hp) as [H| ->]; [now left | now right].
Qed.

(** Removing the staging directory leaves the destination as it is. *)
Lemma cleanup_removes w :
  both_there temp_dir output_dir (w_root w) w ->
  exists root',
    cleanup temp_dir w = (Ok tt, set_root w root')
    /\ lookup (location w temp_dir) root' = None
    /\ is_dir root' (location w output_dir) = true
    /\ forall name r,
         lookup (location w output_dir ++ name :: r) root'
         = lookup (location w output_dir ++ name :: r) (w_root w).
Proof.
  intros [Hdst Hstg].
  destruct (staging_destination_apart w) as [Hsd Hds].
  assert (Hparent : exists parent last, location w temp_dir = parent ++ [last]).
  { unfold location. destruct (split "/" temp_dir) as [|x l] eqn:E using rev_ind;
      [now destruct (split_nonempty "/" temp_dir)|].
    exists (w_cwd w ++ l), x. now rewrite app_assoc. }
  destruct Hparent as (parent & last & Hloc).
  assert (Hpdir : is_dir (w_root w) parent = true).
  { apply (is_dir_prefix parent (location w temp_dir)); [|exact Hstg].
    rewrite Hloc. apply is_prefix_app. }
  destruct (update_succeeds parent last None (w_root w) Hpdir) as [root' Hu].
  rewrite <- Hloc in Hu.
  exists root'. split; [|split; [|split]].
  - unfold cleanup. rewrite bind_run, os_path_exists_run.
    rewrite (exists_clean _ _ _ clean_temp). fold (location w temp_dir).
    unfold present. unfold is_dir in Hstg.
    destruct (lookup (location w temp_dir) (w_root w)) as [[|es]|] eqn:Hl;
      try discriminate.
    rewrite try_except_run. unfold shutil_rmtree_ignore_errors.
    rewrite fs_call_run. unfold rmtree_ignore_errors.
    assert (Hstg' : is_dir (w_root w) (w_cwd w ++ split "/" temp_dir) = true).
    { unfold is_dir. fold (location w temp_dir). now rewrite Hl. }
    rewrite (resolve_dir _ _ _ clean_temp Hstg').
    fold (location w temp_dir). rewrite Hl, Hu, Hloc.
    now destruct (parent ++ [last]) eqn:E; [destruct parent|].
  - exact (lookup_update_same _ _ _ _ Hu).
  - rewrite (is_dir_update_outside _ _ _ _ _ Hu Hsd). exact Hdst.
  - intros name r. apply (lookup_update_apart _ _ _ _ _ Hu).
    + rewrite <- (app_nil_r (location w temp_dir)).
      now apply apart_extensions.
    + now apply not_prefix_of_shorter.
Qed.

(** The move loop and the clean-up, for a staging directory and a
    destination given by clean relative paths that lie apart. *)
Lemma move_and_cleanup_merge w root1 :
  isdir (w_root w) (w_cwd w) temp_dir = true ->
  NoDup (names_in w temp_dir) ->
  Forall (fun name => name_ok name = true) (names_in w temp_dir) ->
  makedirs (w_root w) (w_cwd w) output_dir = (Ok tt, root1) ->
  exists w1 w2,
    move_phase temp_dir output_dir w = (Ok tt, w1)
    /\ cleanup temp_dir w1 = (Ok tt, w2)
    /\ isdir (w_root w2) (w_cwd w2) output_dir = true
    /\ exists_ (w_root w2) (w_cwd w2) temp_dir = false
    /\ (forall name,
           In name (names_in w temp_dir) ->
           entry_at w2 (OsPath.join output_dir name)
           = entry_at w (OsPath.join temp_dir name))
    /\ (forall name,
           name_ok name = true ->
           ~ In name (names_in w temp_dir) ->
           entry_at w2 (OsPath.join output_dir name)
           = entry_at w (OsPath.join output_dir name)).
Proof.
  intros Hstg Hnodup Hnames Hmk.
  destruct (staging_destination_apart w) as [Hsd Hds].
  rewrite (isdir_clean _ _ _ clean_temp) in Hstg. fold (location w temp_dir) in Hstg.
  destruct (makedirs_clean _ _ _ _ clean_out Hmk) as [Hdst1 Hframe1].
  fold (location w output_dir) in Hdst1, Hframe1.
  (* the staging directory as the listing finds it *)
  assert (Hsame : forall r, lookup (location w temp_dir ++ r) root1
                            = lookup (location w temp_dir ++ r) (w_root w)).
  { intros r. apply Hframe1. now apply not_prefix_of_shorter. }
  pose proof (Hsame []) as Hsame0. rewrite app_nil_r in Hsame0.
  unfold is_dir in Hstg.
  destruct (lookup (location w temp_dir) (w_root w)) as [[|es]|] eqn:Hes;
    try discriminate.
  assert (Hlist : names_in w temp_dir = map fst es).
  { unfold names_in. now rewrite (listdir_clean _ _ _ es clean_temp Hes). }
  rewrite Hlist in *.
  set (w0 := set_root (add_event w (Printed MsgMoving)) root1).
  assert (Hboth : both_there temp_dir output_dir (w_root w0) w0).
  { split; [exact Hdst1|]. unfold is_dir. cbn [w_root w0 set_root].
    change (location w0 temp_dir) with (location w temp_dir).
    now rewrite Hsame0, ?Hes. }
  destruct (move_loop_moves (map fst es) w0 Hnodup Hnames Hboth)
    as (root2 & Hloop & Hboth2 & Hmoved & Hframe2).
  { intros name Hin. cbn [w_root w0 set_root].
    change (location w0 temp_dir) with (location w temp_dir).
    rewrite Hsame, lookup_app, Hes. cbn.
    destruct (assoc name es) eqn:Ha; [discriminate|].
    now apply assoc_in in Hin. }
  destruct (cleanup_removes (set_root w0 root2) Hboth2)
    as (root3 & Hclean & Hgone & Hdst3 & Hframe3).
  change (location (set_root w0 root2) temp_dir) with (location w temp_dir) in *.
  change (location (set_root w0 root2) output_dir)
    with (location w output_dir) in *.
  change (location w0 temp_dir) with (location w temp_dir) in *.
  change (location w0 output_dir) with (location w output_dir) in *.
  cbn [w_root w0 set_root] in Hmoved, Hframe2, Hframe3.
  exists (set_root w0 root2), (set_root w0 root3).
  split; [|split; [|split; [|split; [|split]]]].
  - unfold move_phase. rewrite bind_run. cbn [print].
    rewrite bind_run. unfold os_makedirs.
    cbn [w_root w_cwd add_event]. rewrite Hmk.
    fold w0. rewrite bind_run, os_listdir_run.
    rewrite (listdir_clean _ _ _ es clean_temp); [exact Hloop|].
    cbn [w_root w_cwd w0 set_root add_event].
    fold (location w temp_dir). now rewrite Hsame0.
  - exact Hclean.
  - rewrite (isdir_clean _ _ _ clean_out). exact Hdst3.
  - rewrite (exists_clean _ _ _ clean_temp). unfold present.
    cbn [w_root w_cwd w0 set_root add_event].
    fold (location w temp_dir). now rewrite Hgone.
  - intros name Hin.
    assert (Hn : name_ok name = true).
    { rewrite Forall_forall in Hnames. now apply Hnames. }
    rewrite !entry_at_child by assumption.
    change (location (set_root w0 root3) output_dir)
      with (location w output_dir).
    cbn [w_root set_root]. rewrite Hframe3, (Hmoved name Hin). apply Hsame.
  - intros name Hn Hnotin.
    rewrite !entry_at_child by assumption.
    change (location (set_root w0 root3) output_dir)
      with (location w output_dir).
    cbn [w_root set_root]. rewrite Hframe3, Hframe2.
    + apply Hframe1. apply child_not_above.
    + intros other Hin.
      apply (untouched_sibling_destination w0 other name).
      intros ->. contradiction.
Qed.

End MoveLoop.

(* ===================================================================== *)
(** ** The name and the place of the staging directory *)
(* ===================================================================== *)

Section StagingDirectory.
Import FS FSFacts PathFacts.

Lemma mem_app c (a b : string) : mem c (a ++ b)%string = mem c a || mem c b.
Proof. induction a as [|d a IH]; cbn; [reflexivity|]. now rewrite IH, orb_assoc. Qed.

Lemma digits_no_sep d : mem "/" (NilEmpty.string_of_uint d) = false.
Proof. induction d; cbn; auto. Qed.

Lemma string_of_Z_no_sep z : mem "/" (string_of_Z z) = false.
Proof.
  unfold string_of_Z, NilZero.string_of_int, NilZero.string_of_uint.
  destruct (Z.to_int z) as [d|d]; destruct d; cbn [mem];
    rewrite ?digits_no_sep; try reflexivity;
    cbn [NilEmpty.string_of_uint mem]; now rewrite ?digits_no_sep.
Qed.

Lemma staging_name_ok stamp : name_ok (staging_name stamp) = true.
Proof.
  unfold name_ok, staging_name.
  change (is_trivial ("temp_extract_" ++ string_of_Z stamp)%string) with false.
  change (is_dotdot ("temp_extract_" ++ string_of_Z stamp)%string) with false.
  rewrite mem_app, string_of_Z_no_sep. reflexivity.
Qed.

(** The staging directory is a sibling of whatever the destination path
    names last: its path is the destination's with the last component
    replaced. *)
Lemma endswith_snoc s c : endswith_char s c = true -> exists s', s = (s' ++ String c "")%string.
Proof.
  induction s as [|d s IH]; [discriminate|].
  destruct s as [|e s].
  - cbn. intros H. apply Ascii.eqb_eq in H as ->. now exists "".
  - intros H. destruct (IH H) as [s' Hs']. exists (String d s').
    cbn [String.append]. now rewrite <- Hs'.
Qed.

Lemma split_staging_dir output_dir stamp :
  exists l, split "/" (staging_dir output_dir stamp) = l ++ [staging_name stamp].
Proof.
  unfold staging_dir, OsPath.join, OsPath.sep.
  rewrite (name_ok_relative _ (staging_name_ok stamp)).
  destruct (name_ok_proper _ (staging_name_ok stamp)) as (_ & _ & Hsep).
  set (d := OsPath.dirname output_dir).
  destruct (String.eqb_spec d "") as [->|Hd]; cbn [orb].
  - exists []. cbn [String.append app]. now apply split_no_sep.
  - destruct (endswith_char d "/") eqn:E.
    + destruct (endswith_snoc d _ E) as [d' ->].
      exists (split "/" d'). rewrite str_app_assoc. cbn [String.append].
      rewrite split_app_sep. now rewrite (split_no_sep "/" _ Hsep).
    + exists (split "/" d). cbn [String.append].
      rewrite split_app_sep. now rewrite (split_no_sep "/" _ Hsep).
Qed.

Lemma rfind_none c s : rfind c s = None -> mem c s = false.
Proof.
  induction s as [|d s IH]; cbn [rfind mem]; [reflexivity|].
  destruct (rfind c s); [discriminate|].
  destruct (Ascii.eqb_spec d c) as [|Hne]; [discriminate|].
  intros _. rewrite (IH eq_refl).
  destruct (Ascii.eqb_spec c d); [congruence | reflexivity].
Qed.

Lemma take_rfind c s i :
  rfind c s = Some i -> take (S i) s = (take i s ++ String c "")%string.
Proof.
  revert i. induction s as [|d s IH]; intros i; cbn [rfind]; [discriminate|].
  destruct (rfind c s) as [j|].
  - intros [= <-].
    change (take (S (S j)) (String d s)) with (String d (take (S j) s)).
    change (take (S j) (String d s)) with (String d (take j s)).
    rewrite (IH j eq_refl). reflexivity.
  - destruct (Ascii.eqb_spec d c) as [->|]; [|discriminate].
    intros [= <-]. cbn. now destruct s.
Qed.

(** The last separator cuts a path into the path of all components but
    the last, and the last component. *)
Lemma split_rfind s :
  match rfind "/" s with
  | None => split "/" s = [s]
  | Some i =>
      split "/" s = split "/" (take i s) ++ [drop (S i) s]
  end.
Proof.
  induction s as [|c s IH]; [reflexivity|].
  cbn [rfind]. destruct (rfind "/" s) as [i|].
  - cbn [take drop split]. rewrite IH.
    destruct (Ascii.eqb c "/"); [reflexivity|].
    destruct (split "/" (take i s)) eqn:E;
      [now destruct (split_nonempty "/" (take i s)) | reflexivity].
  - cbn [split]. rewrite IH.
    destruct (Ascii.eqb c "/"); [now destruct s | reflexivity].
Qed.

Lemma rstrip_keeps s :
  endswith_char s "/" = false -> rstrip "/" s = s.
Proof.
  induction s as [|c s IH]; [reflexivity|].
  destruct s as [|d s].
  - cbn. intros ->. reflexivity.
  - intros H. cbn [rstrip]. cbn [rstrip] in IH. rewrite (IH H). reflexivity.
Qed.

Lemma all_head p c s : p c = false -> all p (String c s) = false.
Proof. intros H. cbn. now rewrite H. Qed.

Lemma dirname_clean s :
  clean_relative s = true ->
  exists parent,
    split "/" s = parent ++ [OsPath.basename s]
    /\ match parent with
       | [] => OsPath.dirname s = ""
       | _ :: _ =>
           clean_relative (OsPath.dirname s) = true
           /\ split "/" (OsPath.dirname s) = parent
       end.
Proof.
  intros Hclean. pose proof (split_rfind s) as Hsplit.
  unfold OsPath.dirname, OsPath.basename, OsPath.cut_last, OsPath.sep.
  destruct (rfind "/" s) as [i|] eqn:Hr.
  - exists (split "/" (take i s)). cbn [fst snd]. split; [exact Hsplit|].
    destruct (split "/" (take i s)) as [|x l] eqn:E;
      [now destruct (split_nonempty "/" (take i s))|].
    assert (Hpre : clean_relative (take i s) = true).
    { unfold clean_relative in Hclean |- *.
      rewrite Hsplit, forallb_app in Hclean.
      apply andb_true_iff in Hclean as [Hc _]. now rewrite E. }
    destruct (clean_first _ Hpre) as (Hne & Hrel & Hend).
    rewrite (take_rfind "/" s i Hr).
    destruct (take i s) as [|c t] eqn:Et; [contradiction|].
    cbn [String.append String.eqb negb andb].
    rewrite all_head.
    2:{ unfold startswith in Hrel. cbn [String.prefix] in Hrel.
        destruct (Ascii.eqb_spec "/" c) as [<-|]; [|reflexivity].
        destruct (ascii_dec "/" "/"); [discriminate | contradiction]. }
    cbn [negb].
    change (String c (t ++ "/")%string) with (String c t ++ "/")%string.
    rewrite (rstrip_snoc "/" (String c t) "/" eq_refl), (rstrip_keeps _ Hend).
    split; [exact Hpre | exact E].
  - exists []. cbn [fst snd app]. split; [exact Hsplit | reflexivity].
Qed.

Lemma staging_dir_sibling output_dir stamp :
  clean_relative output_dir = true ->
  exists parent,
    split "/" output_dir = parent ++ [OsPath.basename output_dir]
    /\ split "/" (staging_dir output_dir stamp)
       = parent ++ [staging_name stamp].
Proof.
  intros Hclean.
  destruct (dirname_clean output_dir Hclean) as (parent & Hsplit & Hdir).
  exists parent. split; [exact Hsplit|].
  unfold staging_dir. destruct parent as [|x l].
  - rewrite Hdir. unfold OsPath.join.
    rewrite (name_ok_relative _ (staging_name_ok stamp)).
    cbn [String.eqb orb String.append app].
    destruct (name_ok_proper _ (staging_name_ok stamp)) as (_ & _ & Hsep).
    now apply split_no_sep.
  - destruct Hdir as [Hdclean Hdsplit].
    now rewrite (split_join_clean _ _ Hdclean (staging_name_ok stamp)), Hdsplit.
Qed.

Lemma staging_dir_clean output_dir stamp :
  clean_relative output_dir = true ->
  clean_relative (staging_dir output_dir stamp) = true.
Proof.
  intros Hclean.
  destruct (staging_dir_sibling output_dir stamp Hclean)
    as (parent & Hout & Htemp).
  unfold clean_relative in *. rewrite Htemp, forallb_app.
  rewrite Hout, forallb_app in Hclean.
  apply andb_true_iff in Hclean as [-> _]. cbn [forallb andb].
  now rewrite staging_name_ok.
Qed.

Lemma staging_dir_apart output_dir stamp :
  clean_relative output_dir = true ->
  OsPath.basename output_dir <> staging_name stamp ->
  apart (staging_dir output_dir stamp) output_dir.
Proof.
  intros Hclean Hne.
  destruct (staging_dir_sibling output_dir stamp Hclean)
    as (parent & Hout & Htemp).
  unfold apart. rewrite Htemp, Hout. split.
  - rewrite <- (app_nil_r (parent ++ [OsPath.basename output_dir])),
      <- app_assoc.
    apply ApartFacts.sibling_apart. congruence.
  - rewrite <- (app_nil_r (parent ++ [staging_name stamp])), <- app_assoc.
    apply ApartFacts.sibling_apart. congruence.
Qed.

End StagingDirectory.

(* ===================================================================== *)
(** ** What no statement changes *)
(* ===================================================================== *)

Create HintDb setting discriminated.

Section Setting.

Lemma ps_ret {A} (a : A) : preserves_setting (ret a).
Proof. intros w r w' [= <- <-]. apply same_setting_refl. Qed.

Lemma ps_raise {A} e : preserves_setting (@raise A e).
Proof. intros w r w' [= <- <-]. apply same_setting_refl. Qed.

Lemma ps_lift {A} (x : result A) : preserves_setting (lift x).
Proof. intros w r w' [= <- <-]. apply same_setting_refl. Qed.

Lemma ps_bind {A B} (m : M A) (k : A -> M B) :
  preserves_setting m -> (forall a, preserves_setting (k a)) ->
  preserves_setting (bind m k).
Proof.
  intros Hm Hk w r w'. rewrite bind_run.
  destruct (m w) as [[a|e] w1] eqn:E.
  - intros Hrun.
    exact (same_setting_trans _ _ _ (Hm _ _ _ E) (Hk a _ _ _ Hrun)).
  - intros [= <- <-]. exact (Hm _ _ _ E).
Qed.

Lemma ps_try_except {A} caught (body : M A) handler :
  preserves_setting body -> (forall e, preserves_setting (handler e)) ->
  preserves_setting (try_except caught body handler).
Proof.
  intros Hb Hh w r w'. rewrite try_except_run.
  destruct (body w) as [[a|e] w1] eqn:E.
  - intros [= <- <-]. exact (Hb _ _ _ E).
  - destruct (caught e).
    + intros Hrun.
      exact (same_setting_trans _ _ _ (Hb _ _ _ E) (Hh e _ _ _ Hrun)).
    + intros [= <- <-]. exact (Hb _ _ _ E).
Qed.

Lemma ps_try_finally {A} (body : M A) final :
  preserves_setting body -> preserves_setting final ->
  preserves_setting (try_finally body final).
Proof.
  intros Hb Hf w r w'. unfold try_finally.
  destruct (body w) as [rb w1] eqn:E.
  destruct (final w1) as [[[]|e] w2] eqn:F; intros [= <- <-];
    exact (same_setting_trans _ _ _ (Hb _ _ _ E) (Hf _ _ _ F)).
Qed.

Lemma ps_for_each {A} (items : list A) body :
  (forall x, preserves_setting (body x)) ->
  preserves_setting (for_each items body).
Proof.
  intros Hb. induction items as [|x items IH]; cbn [for_each].
  - apply ps_ret.
  - apply ps_bind; auto.
Qed.

Lemma ps_if {A} (c : bool) (a b : M A) :
  preserves_setting a -> preserves_setting b ->
  preserves_setting (if c then a else b).
Proof. now destruct c. Qed.

Lemma ps_print m : preserves_setting (print m).
Proof. intros w r w' [= <- <-]. apply same_setting_add_event. Qed.

Lemma ps_now : preserves_setting now.
Proof. intros w r w' [= <- <-]. apply same_setting_refl. Qed.

Lemma same_setting_set_root w root : same_setting w (set_root w root).
Proof. now repeat split. Qed.

Lemma ps_fs_call f : preserves_setting (fs_call f).
Proof.
  intros w r w'. rewrite fs_call_run.
  destruct (f (w_root w) (w_cwd w)); intros [= <- <-];
    [apply same_setting_set_root | apply same_setting_refl].
Qed.

Lemma ps_fs_read {A} (f : FS.node -> FS.path -> A) :
  preserves_setting (fs_read f).
Proof. intros w r w' [= <- <-]. apply same_setting_refl. Qed.

Lemma ps_os_makedirs s : preserves_setting (os_makedirs s).
Proof.
  intros w r w'. unfold os_makedirs.
  destruct (FS.makedirs (w_root w) (w_cwd w) s). intros [= <- <-].
  apply same_setting_set_root.
Qed.

Lemma ps_os_listdir s : preserves_setting (os_listdir s).
Proof. intros w r w' [= <- <-]. apply same_setting_refl. Qed.

Lemma ps_zip_open zip_ref name : preserves_setting (zip_open zip_ref name).
Proof.
  unfold zip_open. destruct (getinfo zip_ref name) as [m|];
    [destruct (m_body m)|]; auto using ps_ret, ps_raise.
Qed.

Lemma ps_zip_read source : preserves_setting (zip_read source).
Proof. destruct source; cbn; auto using ps_ret, ps_raise. Qed.

End Setting.

#[export] Hint Resolve ps_ret ps_raise ps_lift ps_bind ps_try_except
  ps_try_finally ps_for_each ps_if ps_print ps_now ps_fs_call ps_fs_read
  ps_os_makedirs ps_os_listdir ps_zip_open ps_zip_read : setting.

Section SettingOfTheMaterializer.

Lemma ps_extract_one zip_ref temp_dir folder_prefix file :
  preserves_setting (extract_one zip_ref temp_dir folder_prefix file).
Proof.
  unfold extract_one, extract_body, write_file. auto 10 with setting.
Qed.

Lemma ps_move_item temp_dir output_dir item :
  preserves_setting (move_item temp_dir output_dir item).
Proof.
  unfold move_item, remove_existing, os_path_exists, os_path_isdir,
    os_unlink, shutil_rmtree_ignore_errors, shutil_move.
  auto 10 with setting.
Qed.

Lemma ps_extract_phase zip_ref target_files folder_prefix temp_dir :
  preserves_setting (extract_phase zip_ref target_files folder_prefix temp_dir).
Proof.
  unfold extract_phase. auto 10 using ps_extract_one with setting.
Qed.

Lemma ps_move_phase temp_dir output_dir :
  preserves_setting (move_phase temp_dir output_dir).
Proof.
  unfold move_phase. auto 10 using ps_move_item with setting.
Qed.

Lemma ps_cleanup temp_dir : preserves_setting (cleanup temp_dir).
Proof.
  unfold cleanup, os_path_exists, shutil_rmtree_ignore_errors.
  auto 10 with setting.
Qed.

End SettingOfTheMaterializer.

(* ===================================================================== *)
(** ** Staged Materializer: clean-up and promotion *)
(* ===================================================================== *)

Section Materializer.
Import FS FSFacts PathFacts.

Lemma same_setting_location w w' s :
  same_setting w w' -> location w' s = location w s.
Proof. intros (Hcwd & _). unfold location. now rewrite Hcwd. Qed.

(** The clean-up never raises, and leaves no directory at the staging
    path. *)
Lemma cleanup_total temp_dir w :
  clean_relative temp_dir = true ->
  exists w',
    cleanup temp_dir w = (Ok tt, w')
    /\ is_dir (w_root w') (location w temp_dir) = false
    /\ isdir (w_root w') (w_cwd w') temp_dir = false
    /\ exists_ (w_root w') (w_cwd w') temp_dir
       = is_file (w_root w) (location w temp_dir).
Proof.
  intros Hclean.
  assert (Hgoal : exists root',
             cleanup temp_dir w = (Ok tt, set_root w root')
             /\ is_dir root' (location w temp_dir) = false
             /\ present root' (location w temp_dir)
                = is_file (w_root w) (location w temp_dir)).
  { unfold cleanup. rewrite bind_run, os_path_exists_run.
    rewrite (exists_clean _ _ _ Hclean). fold (location w temp_dir).
    unfold present.
    destruct (lookup (location w temp_dir) (w_root w)) as [[data|es]|] eqn:Hl.
    - (* a file has the name of the staging directory *)
      exists (w_root w). rewrite try_except_run.
      unfold shutil_rmtree_ignore_errors. rewrite fs_call_run.
      unfold rmtree_ignore_errors. rewrite (resolve_clean _ _ _ Hclean).
      split; [|unfold is_dir, is_file, present; now rewrite Hl].
      destruct (walk (w_root w) (w_cwd w) (split "/" temp_dir)) as [p|] eqn:Hw;
        [|reflexivity].
      apply walk_lexical in Hw. rewrite (lexical_clean _ _ Hclean) in Hw.
      subst p. fold (location w temp_dir). now rewrite Hl.
    - (* the staging directory is there *)
      assert (Hdir : is_dir (w_root w) (w_cwd w ++ split "/" temp_dir) = true).
      { unfold is_dir. fold (location w temp_dir). now rewrite Hl. }
      assert (Hparent : exists parent last,
                 location w temp_dir = parent ++ [last]).
      { unfold location.
        destruct (split "/" temp_dir) as [|x l] eqn:E using rev_ind;
          [now destruct (split_nonempty "/" temp_dir)|].
        exists (w_cwd w ++ l), x. now rewrite app_assoc. }
      destruct Hparent as (parent & last & Hloc).
      assert (Hpdir : is_dir (w_root w) parent = true).
      { apply (is_dir_prefix parent (location w temp_dir)); [|exact Hdir].
        rewrite Hloc. apply is_prefix_app. }
      destruct (update_succeeds parent last None (w_root w) Hpdir)
        as [root' Hu].
      rewrite <- Hloc in Hu. exists root'. split.
      + rewrite try_except_run. unfold shutil_rmtree_ignore_errors.
        rewrite fs_call_run. unfold rmtree_ignore_errors.
        rewrite (resolve_dir _ _ _ Hclean Hdir).
        fold (location w temp_dir). rewrite Hl, Hu, Hloc.
        now destruct (parent ++ [last]) eqn:E; [destruct parent|].
      + unfold is_dir, is_file, present.
        now rewrite (lookup_update_same _ _ _ _ Hu), Hl.
    - (* nothing is there *)
      exists (w_root w). rewrite set_root_same.
      split; [reflexivity | unfold is_dir, is_file, present; now rewrite Hl]. }
  destruct Hgoal as (root' & Hrun & Hnodir & Hleft).
  exists (set_root w root').
  split; [exact Hrun | split; [exact Hnodir | split]].
  - now rewrite (isdir_clean _ _ _ Hclean).
  - now rewrite (exists_clean _ _ _ Hclean).
Qed.

(** C7.  For a destination given by a clean relative path: whatever the
    statements under [try] come to, a normal end or an exception, the
    clean-up runs after them and ends normally, so that the call returns
    or raises what those statements returned or raised; after the call
    there is no directory at the staging path, and nothing at all unless
    a regular file had taken that name when the clean-up began. *)
Theorem staging_removed_on_every_exit zip_ref target_files folder_prefix
  output_dir w :
  clean_relative output_dir = true ->
  let temp_dir := staging_dir output_dir (w_clock w) in
  exists outcome w1 w2,
    (extract_phase zip_ref target_files folder_prefix temp_dir ;;
     move_phase temp_dir output_dir)%py w = (outcome, w1)
    /\ cleanup temp_dir w1 = (Ok tt, w2)
    /\ extract_to_temp_and_move zip_ref target_files folder_prefix
         output_dir w = (outcome, w2)
    /\ is_dir (w_root w2) (location w temp_dir) = false
    /\ isdir (w_root w2) (w_cwd w2) temp_dir = false
    /\ exists_ (w_root w2) (w_cwd w2) temp_dir
       = is_file (w_root w1) (location w temp_dir).
Proof.
  intros Hclean temp_dir.
  pose proof (staging_dir_clean output_dir (w_clock w) Hclean) as Htemp.
  fold temp_dir in Htemp.
  destruct ((extract_phase zip_ref target_files folder_prefix temp_dir ;;
             move_phase temp_dir output_dir)%py w) as [outcome w1] eqn:Hbody.
  assert (Hset : same_setting w w1).
  { refine ((_ : preserves_setting _) _ _ _ Hbody).
    auto using ps_extract_phase, ps_move_phase with setting. }
  destruct (cleanup_total temp_dir w1 Htemp)
    as (w2 & Hclean2 & Hnodir & Hno & Hleft).
  rewrite (same_setting_location _ _ temp_dir Hset) in Hnodir, Hleft.
  exists outcome, w1, w2.
  split; [reflexivity|]. split; [exact Hclean2|].
  split; [|split; [exact Hnodir | split; [exact Hno | exact Hleft]]].
  unfold extract_to_temp_and_move. rewrite bind_run. cbn [now].
  fold temp_dir. unfold try_finally. now rewrite Hbody, Hclean2.
Qed.

Lemma staging_removed_on_every_exit_witness :
  (exists w2,
      extract_to_temp_and_move Examples.widgets Examples.lib_members
        Examples.lib_prefix "out" Examples.before = (Ok tt, w2)
      /\ exists_ (w_root w2) (w_cwd w2) "temp_extract_5" = false)
  /\ (exists w2,
         extract_to_temp_and_move Examples.widgets Examples.lib_members
           Examples.lib_prefix "out" Examples.blocked
         = (Raise (OSError EEXIST "out"), w2)
         /\ exists_ (w_root w2) (w_cwd w2) "temp_extract_5" = false).
Proof.
  split.
  - destruct (staging_removed_on_every_exit Examples.widgets
                Examples.lib_members Examples.lib_prefix "out"
                Examples.before eq_refl)
      as (outcome & w1 & w2 & Hbody & _ & Hrun & _ & _ & Hleft).
    change (staging_dir "out" (w_clock Examples.before))
      with "temp_extract_5" in Hbody, Hleft.
    assert (Hfst : fst ((extract_phase Examples.widgets Examples.lib_members
                           Examples.lib_prefix "temp_extract_5" ;;
                         move_phase "temp_extract_5" "out")%py Examples.before)
                   = Ok tt) by (vm_compute; reflexivity).
    assert (Hleft' : is_file
                       (w_root
                          (snd ((extract_phase Examples.widgets
                                   Examples.lib_members Examples.lib_prefix
                                   "temp_extract_5" ;;
                                 move_phase "temp_extract_5" "out")%py
                                  Examples.before)))
                       (location Examples.before "temp_extract_5") = false)
      by (vm_compute; reflexivity).
    rewrite Hbody in Hfst, Hleft'. cbn [fst snd] in Hfst, Hleft'.
    exists w2. split; [now rewrite Hrun, Hfst|].
    now rewrite Hleft.
  - destruct (staging_removed_on_every_exit Examples.widgets
                Examples.lib_members Examples.lib_prefix "out"
                Examples.blocked eq_refl)
      as (outcome & w1 & w2 & Hbody & _ & Hrun & _ & _ & Hleft).
    change (staging_dir "out" (w_clock Examples.blocked))
      with "temp_extract_5" in Hbody, Hleft.
    assert (Hfst : fst ((extract_phase Examples.widgets Examples.lib_members
                           Examples.lib_prefix "temp_extract_5" ;;
                         move_phase "temp_extract_5" "out")%py Examples.blocked)
                   = Raise (OSError EEXIST "out")) by (vm_compute; reflexivity).
    assert (Hleft' : is_file
                       (w_root
                          (snd ((extract_phase Examples.widgets
                                   Examples.lib_members Examples.lib_prefix
                                   "temp_extract_5" ;;
                                 move_phase "temp_extract_5" "out")%py
                                  Examples.blocked)))
                       (location Examples.blocked "temp_extract_5") = false)
      by (vm_compute; reflexivity).
    rewrite Hbody in Hfst, Hleft'. cbn [fst snd] in Hfst, Hleft'.
    exists w2. split; [now rewrite Hrun, Hfst|].
    now rewrite Hleft.
Defined.

End Materializer.

(* ===================================================================== *)
(** ** Staged Materializer: where a member is written *)
(* ===================================================================== *)

Section WritePath.
Import FS FSFacts PathFacts.

Lemma rstrip_tail chars s :
  exists tail,
    s = (rstrip chars s ++ tail)%string
    /\ all (fun c => mem c chars) tail = true.
Proof.
  induction s as [|c s (tail & Hs & Htail)]; [now exists ""|].
  cbn [rstrip]. destruct (rstrip chars s) as [|d kept] eqn:E.
  - cbn [String.append] in Hs. subst tail.
    destruct (mem c chars) eqn:Hc.
    + exists (String c s). split; [reflexivity|].
      cbn [all]. rewrite Hc. exact Htail.
    + exists s. split; [reflexivity | exact Htail].
  - exists tail. cbn [String.append] in Hs |- *. now rewrite <- Hs.
Qed.

Lemma rstrip_no_trailing chars s c :
  mem c chars = true -> endswith_char (rstrip chars s) c = false.
Proof.
  intros Hc. induction s as [|d s IH]; [reflexivity|].
  cbn [rstrip]. destruct (rstrip chars s) as [|e kept] eqn:E.
  - destruct (mem d chars) eqn:Hd; [reflexivity|]. cbn.
    destruct (Ascii.eqb_spec d c); [congruence | reflexivity].
  - exact IH.
Qed.

Lemma endswith_app a b c :
  b <> "" -> endswith_char (a ++ b)%string c = endswith_char b c.
Proof.
  intros Hb. induction a as [|d a IH]; [reflexivity|].
  cbn [String.append endswith_char].
  destruct (a ++ b)%string eqn:E; [|exact IH].
  destruct a; cbn in E; [contradiction | discriminate].
Qed.

Lemma endswith_mem s c : endswith_char s c = true -> mem c s = true.
Proof.
  induction s as [|d s IH]; [discriminate|].
  destruct s as [|e s].
  - cbn. intros H. apply Ascii.eqb_eq in H as ->.
    now rewrite Ascii.eqb_refl.
  - intros H.
    change (mem c (String d (String e s)))
      with (Ascii.eqb c d || mem c (String e s)).
    rewrite (IH H). apply orb_true_r.
Qed.

Lemma staging_dir_shape output_dir stamp :
  staging_dir output_dir stamp <> ""
  /\ endswith_char (staging_dir output_dir stamp) "/" = false.
Proof.
  assert (Hname : staging_name stamp <> "") by discriminate.
  assert (Hend : endswith_char (staging_name stamp) "/" = false).
  { destruct (endswith_char (staging_name stamp) "/") eqn:E; [|reflexivity].
    apply endswith_mem in E.
    destruct (name_ok_proper _ (staging_name_ok stamp)) as (_ & _ & Hsep).
    congruence. }
  unfold staging_dir, OsPath.join.
  rewrite (name_ok_relative _ (staging_name_ok stamp)).
  destruct (_ || _).
  - split; [now destruct (OsPath.dirname output_dir)|].
    now rewrite endswith_app.
  - split; [now destruct (OsPath.dirname output_dir)|].
    rewrite endswith_app; [|discriminate].
    change ("/" ++ staging_name stamp)%string
      with (String "/" (staging_name stamp)).
    cbn [endswith_char]. now destruct (staging_name stamp).
Qed.

Lemma start_app cwd a b : a <> "" -> start cwd (a ++ b)%string = start cwd a.
Proof.
  intros Ha. destruct a; [contradiction|].
  unfold start, is_absolute, startswith. cbn [String.append String.prefix].
  destruct (ascii_dec "/" a); [|reflexivity].
  assert (Hp : forall s, String.prefix "" s = true) by (now intros []).
  now rewrite !Hp.
Qed.

(** C1, as the code has it.  Sanitizing a member's path relative to the
    prefix takes the trailing slashes and backslashes off it and nothing
    else; the path so obtained is joined onto the staging directory;
    and when it has no [..] component and does not start with a
    separator, the path written to, if it names anything at all, names
    something inside the staging directory. *)
Theorem write_path_inside_staging output_dir stamp folder_prefix file
  root cwd :
  let temp_dir := staging_dir output_dir stamp in
  let rel_path := sanitize_path (relative_to folder_prefix file) in
  (exists tail,
      relative_to folder_prefix file = (rel_path ++ tail)%string
      /\ all (fun c => mem c "/\") tail = true)
  /\ endswith_char rel_path "/" = false
  /\ endswith_char rel_path "\" = false
  /\ target_file_path temp_dir folder_prefix file
     = OsPath.join temp_dir rel_path
  /\ (no_dotdot rel_path = true ->
      startswith rel_path "/" = false ->
      forall p,
        resolve root cwd (target_file_path temp_dir folder_prefix file)
        = Some p ->
        exists staging,
          resolve root cwd temp_dir = Some staging
          /\ is_prefix staging p = true).
Proof.
  intros temp_dir rel_path.
  split; [apply rstrip_tail|].
  split; [now apply rstrip_no_trailing|].
  split; [now apply rstrip_no_trailing|].
  split; [reflexivity|].
  intros Hdots Hrel p.
  destruct (staging_dir_shape output_dir stamp) as [Hne Hend].
  fold temp_dir in Hne, Hend.
  unfold target_file_path. fold rel_path. unfold OsPath.join, OsPath.sep.
  rewrite Hrel, Hend.
  destruct (String.eqb_spec temp_dir "") as [|_]; [contradiction|].
  cbn [orb]. unfold resolve.
  destruct (String.eqb_spec temp_dir "") as [|_]; [contradiction|].
  destruct (String.eqb_spec (temp_dir ++ "/" ++ rel_path)%string "") as [E|_].
  { discriminate. }
  rewrite (start_app cwd temp_dir _ Hne).
  change ("/" ++ rel_path)%string with (String "/" rel_path).
  rewrite split_app_sep, walk_app.
  destruct (walk root (start cwd temp_dir) (split "/" temp_dir))
    as [staging|]; [|discriminate].
  intros Hwalk. exists staging. split; [reflexivity|].
  apply walk_lexical in Hwalk as ->. now apply lexical_extends.
Qed.

Lemma write_path_inside_staging_witness :
  sanitize_path (relative_to Examples.lib_prefix
                   "widgets-v2/src/lib/sub/c/\") = "sub/c"
  /\ exists staging,
       resolve (w_root Examples.staged) ["home"] "temp_extract_5"
       = Some staging
       /\ is_prefix staging ["home"; "temp_extract_5"; "sub"; "c"] = true.
Proof.
  split; [reflexivity|].
  destruct (write_path_inside_staging "out" 5 Examples.lib_prefix
              "widgets-v2/src/lib/sub/c/\" (w_root Examples.staged) ["home"])
    as (_ & _ & _ & _ & Hinside).
  exact (Hinside eq_refl eq_refl
           ["home"; "temp_extract_5"; "sub"; "c"] eq_refl).
Defined.

(** C1 as the spec words it fails: a member path with a [..] component
    is sanitized to itself, the path written to leads out of the staging
    directory, and the call leaves the member's bytes in a file that is
    neither in the staging directory nor in the destination. *)
Lemma traversal_escapes_staging :
  let file := "widgets-v2/src/lib/../evil.txt" in
  let temp_dir := staging_dir "out" (w_clock Examples.before) in
  In file Examples.climbing_members
  /\ sanitize_path (relative_to Examples.lib_prefix file) = "../evil.txt"
  /\ target_file_path temp_dir Examples.lib_prefix file
     = "temp_extract_5/../evil.txt"
  /\ resolve (w_root Examples.staged) ["home"] temp_dir
     = Some ["home"; "temp_extract_5"]
  /\ resolve (w_root Examples.staged) ["home"]
       (target_file_path temp_dir Examples.lib_prefix file)
     = Some ["home"; "evil.txt"]
  /\ is_prefix ["home"; "temp_extract_5"] ["home"; "evil.txt"] = false
  /\ entry_at Examples.before "evil.txt" = None
  /\ exists w2,
       extract_to_temp_and_move Examples.climbing Examples.climbing_members
         Examples.lib_prefix "out" Examples.before = (Ok tt, w2)
       /\ entry_at w2 "evil.txt" = Some (File "EVIL")
       /\ entry_at w2 "out/a.txt" = Some (File "AAA")
       /\ entry_at w2 "temp_extract_5" = None.
Proof.
  cbv zeta. repeat (split; [vm_compute; auto; reflexivity|]).
  eexists. split; [vm_compute; reflexivity|].
  repeat split; vm_compute; reflexivity.
Qed.

End WritePath.

(* ===================================================================== *)
(** ** Orchestrator *)
(* ===================================================================== *)

Section Orchestrator.

Lemma network_error_is_Exception e :
  is_network_error e = true -> is_Exception e = true.
Proof. now destruct e. Qed.

Lemma attempt_add_printed w m url k :
  attempt (add_event w (Printed m)) url k = attempt w url k.
Proof.
  unfold attempt. now rewrite requests_made_add_event, Nat.add_0_r.
Qed.

Lemma fetched_printed w m : fetched w (add_event w (Printed m)) [].
Proof. exact (fetched_add_event w (Printed m)). Qed.

(** The world in which the first download starts: two lines are printed
    before it. *)
Lemma orchestrator_start url output_dir w c :
  parse_github_folder_url url = Ok c ->
  exists w1,
    fetched w w1 []
    /\ (forall u k, attempt w1 u k = attempt w u k)
    /\ forall e w2,
        fetch_archive c w1 = (Raise e, w2) ->
        is_Exception e = true ->
        download_github_folder url output_dir w
        = (Ok false, add_event w2 (Printed (MsgError e))).
Proof.
  intros Hparse.
  eexists (add_event (add_event w (Printed _)) (Printed _)).
  split; [|split].
  - exact (fetched_trans _ _ _ [] [] (fetched_printed _ _)
             (fetched_printed _ _)).
  - intros u k. now rewrite !attempt_add_printed.
  - intros e w2 Hfetch Hexc.
    unfold download_github_folder. rewrite try_except_run, bind_run.
    unfold lift. rewrite Hparse.
    rewrite bind_run. cbn [print]. rewrite bind_run. cbn [print].
    rewrite bind_run, Hfetch, Hexc. reflexivity.
Qed.

Lemma filter_activity_requests (trace : list event) :
  filter is_request (filter is_activity trace) = filter is_request trace.
Proof.
  induction trace as [|[| |] trace IH]; cbn; now rewrite ?IH.
Qed.

Lemma requests_made_fetched w w' acts :
  fetched w w' acts ->
  requests_made w' = (requests_made w + List.length (filter is_request acts))%nat.
Proof.
  intros (Hact & _). unfold requests_made.
  rewrite <- (filter_activity_requests (w_trace w')),
    <- (filter_activity_requests (w_trace w)).
  fold (activity w') (activity w).
  now rewrite Hact, filter_app, length_app.
Qed.

Lemma attempt_fetched w w' acts url k :
  fetched w w' acts ->
  attempt w' url k = attempt w url (List.length (filter is_request acts) + k).
Proof.
  intros Hf. unfold attempt.
  rewrite (requests_made_fetched _ _ _ Hf).
  destruct Hf as (_ & _ & _ & _ & -> & _). now rewrite Nat.add_assoc.
Qed.

(** A call whose every attempt meets a network failure raises the last. *)
Lemma download_exhausts url timeout retries backoff w n e :
  Z.of_nat n = retries ->
  (forall k, (1 <= k <= n)%nat -> plain_wait backoff (Z.of_nat k) = true) ->
  (forall k, (k < n)%nat -> network_failure (attempt w url k)) ->
  attempt w url n = Fail e ->
  is_network_error e = true ->
  exists w',
    download_with_progress url timeout retries backoff w = (Raise e, w')
    /\ fetched w w'
         (failed_attempts url timeout backoff 0 n ++ [Requested url timeout]).
Proof.
  intros Hn Hplain Hfail Hlast Hnet. unfold download_with_progress, retry_fuel.
  destruct (retry_loop_exhausts url timeout retries backoff n
              (Z.to_nat (retries + 1)) 0%Z w e)
    as (w' & Hrun & Hfetched); auto; try lia.
  rewrite Hrun. now exists w'.
Qed.

(** The budget of the two downloads: four attempts each. *)
Lemma default_budget : Z.of_nat 3 = default_retries.
Proof. reflexivity. Qed.

(** The waits of the defaults are plain: 1.5, 2.25 and 3.375 seconds. *)
Lemma default_waits_plain k :
  (1 <= k <= 3)%nat -> plain_wait default_backoff (Z.of_nat k) = true.
Proof. destruct k as [|[|[|[|k]]]]; intros Hk; try lia; reflexivity. Qed.

Lemma default_attempts url :
  (failed_attempts url default_timeout default_backoff 0 3
   ++ [Requested url default_timeout])%list
  = [Requested url 30; Slept (3 # 2);
     Requested url 30; Slept (9 # 4);
     Requested url 30; Slept (27 # 8);
     Requested url 30].
Proof. reflexivity. Qed.

(** C2.  Let the locator parse, and let the four attempts that the budget
    allows on the primary URL all meet network failures.  Then the first
    download raises, and what the Orchestrator makes of it is one more
    download, of the URL [https://github.com/<owner>/<repo>/archive/<branch>.zip]
    built from the same coordinates, with the same timeout, retries and
    backoff.  If its four attempts meet network failures as well, the run
    returns [False]: the requests were four to each URL, each with a
    timeout of 30 seconds and with waits of 1.5, 2.25 and 3.375 seconds
    between them, and the file system is as it was. *)
Theorem fallback_once_then_failure url output_dir w c :
  let first :=
    ("https://codeload.github.com/" ++ owner c ++ "/" ++ repo c
     ++ "/zip/refs/heads/" ++ branch c)%string in
  let second :=
    ("https://github.com/" ++ owner c ++ "/" ++ repo c ++ "/archive/"
     ++ branch c ++ ".zip")%string in
  parse_github_folder_url url = Ok c ->
  (forall k, (k < 4)%nat -> network_failure (attempt w first k)) ->
  (exists w1 e1 w2,
      fetched w w1 []
      /\ download_with_progress first
           default_timeout default_retries default_backoff w1
         = (Raise e1, w2)
      /\ fetch_archive c w1
         = download_with_progress second
             default_timeout default_retries default_backoff
             (add_event w2 (Printed MsgAlternative)))
  /\ ((forall k, (k < 4)%nat -> network_failure (attempt w second (4 + k))) ->
      exists w',
        download_github_folder url output_dir w = (Ok false, w')
        /\ w_root w' = w_root w
        /\ activity w'
           = (activity w
              ++ [Requested first 30; Slept (3 # 2);
                  Requested first 30; Slept (9 # 4);
                  Requested first 30; Slept (27 # 8);
                  Requested first 30]
              ++ [Requested second 30; Slept (3 # 2);
                  Requested second 30; Slept (9 # 4);
                  Requested second 30; Slept (27 # 8);
                  Requested second 30])%list).
Proof.
  intros first second Hparse Hprimary.
  assert (Hfirst : primary_url c = first) by reflexivity.
  assert (Hsecond : secondary_url c = second) by reflexivity.
  destruct (orchestrator_start url output_dir w c Hparse)
    as (w1 & Hw1 & Hatt1 & Hreport).
  destruct (Hprimary 3%nat ltac:(lia)) as (e1 & He1 & Hnet1).
  destruct (download_exhausts first default_timeout default_retries
              default_backoff w1 3 e1 default_budget default_waits_plain)
    as (w2 & Hrun1 & Hf1); auto.
  { intros k Hk. rewrite Hatt1. apply Hprimary. lia. }
  { now rewrite Hatt1. }
  assert (Hfallback :
            fetch_archive c w1
            = download_with_progress second
                default_timeout default_retries default_backoff
                (add_event w2 (Printed MsgAlternative))).
  { unfold fetch_archive. rewrite try_except_run, Hfirst, Hrun1.
    now rewrite (network_error_is_Exception e1 Hnet1), Hsecond. }
  split.
  - exists w1, e1, w2.
    split; [exact Hw1 | split; [exact Hrun1 | exact Hfallback]].
  - intros Hsecondary.
    set (w3 := add_event w2 (Printed MsgAlternative)) in *.
    assert (Hf3 : fetched w w3
                    ((failed_attempts first
                        default_timeout default_backoff 0 3
                      ++ [Requested first default_timeout]))).
    { rewrite <- (app_nil_r (_ ++ [_])).
      apply (fetched_trans _ w2); [|apply fetched_printed].
      exact (fetched_trans _ _ _ [] _ Hw1 Hf1). }
    assert (Hatt3 : forall k, attempt w3 second k = attempt w second (4 + k)).
    { intros k. exact (attempt_fetched _ _ _ _ k Hf3). }
    destruct (Hsecondary 3%nat ltac:(lia)) as (e2 & He2 & Hnet2).
    destruct (download_exhausts second default_timeout
                default_retries default_backoff w3 3 e2 default_budget
                default_waits_plain)
      as (w4 & Hrun2 & Hf4); auto.
    { intros k Hk. rewrite Hatt3. apply Hsecondary. lia. }
    { now rewrite Hatt3. }
    rewrite Hrun2 in Hfallback.
    exists (add_event w4 (Printed (MsgError e2))). split; [|split].
    + exact (Hreport e2 w4 Hfallback (network_error_is_Exception e2 Hnet2)).
    + destruct Hf3 as (_ & Hr3 & _). destruct Hf4 as (_ & Hr4 & _).
      cbn [w_root add_event]. congruence.
    + pose proof (fetched_trans _ _ _ _ _ Hf3 Hf4) as (Hact & _).
      rewrite activity_add_event. cbn [is_activity].
      rewrite app_nil_r, Hact, !default_attempts. reflexivity.
Qed.

Lemma fallback_once_then_failure_witness :
  let w := Examples.world_of Examples.dead_server Examples.widgets in
  let first := "https://codeload.github.com/acme/widgets/zip/refs/heads/v2" in
  let second := "https://github.com/acme/widgets/archive/v2.zip" in
  exists w',
    download_github_folder Examples.widgets_url (Some "out") w = (Ok false, w')
    /\ w_root w' = Examples.root
    /\ activity w'
       = [Requested first 30; Slept (3 # 2);
          Requested first 30; Slept (9 # 4);
          Requested first 30; Slept (27 # 8);
          Requested first 30;
          Requested second 30; Slept (3 # 2);
          Requested second 30; Slept (9 # 4);
          Requested second 30; Slept (27 # 8);
          Requested second 30].
Proof.
  intros w first second.
  assert (Hdead : forall u k, network_failure (attempt w u k)).
  { intros u k. eexists. split; reflexivity. }
  destruct (fallback_once_then_failure Examples.widgets_url (Some "out") w
              (Coordinates "acme" "widgets" "v2" "src/lib") eq_refl
              (fun k _ => Hdead _ k))
    as (_ & Hfail).
  destruct (Hfail (fun k _ => Hdead _ (4 + k)%nat)) as (w' & Hrun & Hroot & Hact).
  exists w'. split; [exact Hrun | split; [exact Hroot | exact Hact]].
Defined.

End Orchestrator.

(* ===================================================================== *)
(** ** Failures of single members and items *)
(* ===================================================================== *)

Section PartialFailure.

(** An iteration of the extraction loop ends normally, unless what is
    raised is no [Exception]. *)
Lemma extract_one_outcome zip_ref temp_dir folder_prefix file w :
  exists w',
    extract_one zip_ref temp_dir folder_prefix file w = (Ok tt, w')
    \/ exists e,
         extract_one zip_ref temp_dir folder_prefix file w = (Raise e, w')
         /\ is_Exception e = false.
Proof.
  unfold extract_one. rewrite try_except_run.
  destruct (extract_body zip_ref temp_dir folder_prefix file w)
    as [[[]|e] w1]; [now exists w1; left|].
  destruct (is_Exception e) eqn:He.
  - eexists. left. reflexivity.
  - exists w1. right. now exists e.
Qed.

Lemma extract_loop_outcome zip_ref temp_dir folder_prefix files : forall w,
  exists w',
    for_each files (extract_one zip_ref temp_dir folder_prefix) w = (Ok tt, w')
    \/ exists e,
         for_each files (extract_one zip_ref temp_dir folder_prefix) w
         = (Raise e, w')
         /\ is_Exception e = false.
Proof.
  induction files as [|file files IH]; intros w; cbn [for_each].
  - exists w. now left.
  - rewrite bind_run.
    destruct (extract_one_outcome zip_ref temp_dir folder_prefix file w)
      as (w1 & [-> | (e & -> & He)]); [apply IH|].
    exists w1. right. now exists e.
Qed.

(** The run after the locator has parsed and the archive is open. *)
Lemma orchestrator_materializes url output_dir w c bio w2 zip_ref :
  parse_github_folder_url url = Ok c ->
  fetch_archive c (announced c w) = (Ok (Some bio), w2) ->
  w_unzip w2 (buf bio) = Ok zip_ref ->
  download_github_folder url output_dir w
  = try_except is_Exception
      (target_files <-
         lift (archive_filter zip_ref (folder_path c)
                 (folder_prefix_of (repo c) (branch c) (folder_path c))) ;;
       extract_to_temp_and_move zip_ref target_files
         (folder_prefix_of (repo c) (branch c) (folder_path c))
         (chosen_output_dir c output_dir) ;;
       print (MsgSuccess (chosen_output_dir c output_dir)) ;;
       ret true)%py
      (fun e => print (MsgError e) ;; ret false)%py
      (add_event w2 (Printed MsgPreparing)).
Proof.
  intros Hparse Hfetch Hzip.
  unfold download_github_folder. rewrite !try_except_run.
  rewrite bind_run. unfold lift at 1. rewrite Hparse.
  rewrite bind_run. cbn [print]. rewrite bind_run. cbn [print].
  fold (announced c w). rewrite bind_run, Hfetch.
  rewrite bind_run. cbn [print].
  rewrite bind_run. unfold zipfile_ZipFile. cbn [w_unzip add_event].
  rewrite Hzip. reflexivity.
Qed.

(** C9, as the code has it.  The extraction loop ends normally whatever
    its members raise, short of something that is no [Exception]: a
    member whose extraction raises is reported and passed over, and the
    loop goes on with the members after it; an item whose move raises is
    reported and passed over likewise;
    and once the archive is open and the selection is not empty, the run
    returns [True] whenever the Materializer returns, however many members
    or items were passed over. *)
Theorem failures_are_passed_over :
  (forall zip_ref temp_dir folder_prefix files w,
      exists w',
        for_each files (extract_one zip_ref temp_dir folder_prefix) w
        = (Ok tt, w')
        \/ exists e,
             for_each files (extract_one zip_ref temp_dir folder_prefix) w
             = (Raise e, w')
             /\ is_Exception e = false)
  /\ (forall zip_ref temp_dir folder_prefix file rest w e w1,
      extract_body zip_ref temp_dir folder_prefix file w = (Raise e, w1) ->
      is_Exception e = true ->
      for_each (file :: rest) (extract_one zip_ref temp_dir folder_prefix) w
      = for_each rest (extract_one zip_ref temp_dir folder_prefix)
          (add_event w1 (Printed (MsgWarnExtract file e))))
  /\ (forall temp_dir output_dir item rest w w1 e w2,
         remove_existing (OsPath.join output_dir item) w = (Ok tt, w1) ->
         shutil_move (OsPath.join temp_dir item)
           (OsPath.join output_dir item) w1 = (Raise e, w2) ->
         is_Exception e = true ->
         for_each (item :: rest) (move_item temp_dir output_dir) w
         = for_each rest (move_item temp_dir output_dir)
             (add_event w2 (Printed (MsgWarnMove item e))))
  /\ (forall url output_dir w c bio w2 zip_ref target_files w3,
         parse_github_folder_url url = Ok c ->
         fetch_archive c (announced c w) = (Ok (Some bio), w2) ->
         w_unzip w2 (buf bio) = Ok zip_ref ->
         archive_filter zip_ref (folder_path c)
           (folder_prefix_of (repo c) (branch c) (folder_path c))
         = Ok target_files ->
         extract_to_temp_and_move zip_ref target_files
           (folder_prefix_of (repo c) (branch c) (folder_path c))
           (chosen_output_dir c output_dir)
           (add_event w2 (Printed MsgPreparing)) = (Ok tt, w3) ->
         download_github_folder url output_dir w
         = (Ok true,
            add_event w3 (Printed (MsgSuccess (chosen_output_dir c output_dir))))).
Proof.
  split; [|split; [|split]].
  - intros zip_ref temp_dir folder_prefix files w. apply extract_loop_outcome.
  - intros zip_ref temp_dir folder_prefix file rest w e w1 Hbody Hexc.
    cbn [for_each]. rewrite bind_run. unfold extract_one at 1.
    rewrite try_except_run, Hbody, Hexc. reflexivity.
  - intros temp_dir output_dir item rest w w1 e w2 Hclear Hmove Hexc.
    cbn [for_each]. rewrite bind_run. unfold move_item at 1.
    rewrite bind_run, Hclear, try_except_run, Hmove, Hexc. reflexivity.
  - intros url output_dir w c bio w2 zip_ref target_files w3
      Hparse Hfetch Hzip Hfilter Hrun.
    rewrite (orchestrator_materializes _ _ _ _ _ _ _ Hparse Hfetch Hzip).
    rewrite try_except_run, bind_run. unfold lift. rewrite Hfilter.
    rewrite bind_run, Hrun. reflexivity.
Qed.

(** C9 as the spec words it fails: the one member of the subtree cannot
    be opened, it is passed over with a warning, the run returns [True],
    and the destination is an empty directory. *)
Lemma success_without_the_subtree :
  let w := Examples.world_of Examples.good_server Examples.unreadable in
  select_members Examples.unreadable Examples.lib_prefix
  = ["widgets-v2/src/lib/a.txt"]
  /\ exists w',
       download_github_folder Examples.widgets_url (Some "fresh") w
       = (Ok true, w')
       /\ entry_at w' "fresh" = Some (FS.Dir [])
       /\ entry_at w' "fresh/a.txt" = None
       /\ In (MsgWarnExtract "widgets-v2/src/lib/a.txt"
                (BadZipFile "Bad magic number for file header"))
             (printed w')
       /\ In (MsgSuccess "fresh") (printed w').
Proof.
  cbv zeta. split; [reflexivity|].
  eexists. split; [vm_compute; reflexivity|].
  repeat split; vm_compute; auto 10.
Qed.

Lemma failures_are_passed_over_witness :
  let w := Examples.world_of Examples.good_server Examples.unreadable in
  exists w',
    download_github_folder Examples.widgets_url (Some "fresh") w
    = (Ok true, w').
Proof.
  intros w.
  destruct failures_are_passed_over as (_ & _ & _ & Hsuccess).
  pose (c := Coordinates "acme" "widgets" "v2" "src/lib").
  pose (w2 := snd (fetch_archive c (announced c w))).
  pose (w3 := snd (extract_to_temp_and_move Examples.unreadable
                     ["widgets-v2/src/lib/a.txt"] Examples.lib_prefix "fresh"
                     (add_event w2 (Printed MsgPreparing)))).
  exists (add_event w3 (Printed (MsgSuccess "fresh"))).
  apply (Hsuccess Examples.widgets_url (Some "fresh") w c
           (BytesIO "PK" 0) w2 Examples.unreadable
           ["widgets-v2/src/lib/a.txt"] w3);
    vm_compute; reflexivity.
Defined.

End PartialFailure.

(* ##################################################################### *)
(** * Further properties *)
(* ##################################################################### *)

Local Open Scope string_scope.

(* ===================================================================== *)
(** ** Patterns and the strings they describe *)
(* ===================================================================== *)

Section Patterns.

Lemma nullable_spec r : Re.nullable r = true <-> in_language r "".
Proof.
  induction r as [| | | |r1 IH1 r2 IH2|r1 IH1 r2 IH2|r IH]; cbn [Re.nullable].
  - split; [discriminate | intros H; inversion H].
  - split; [constructor | reflexivity].
  - split; [discriminate | intros H; inversion H].
  - split; [discriminate | intros H; inversion H].
  - rewrite andb_true_iff, IH1, IH2. split.
    + intros [H1 H2]. change "" with ("" ++ ""). now constructor.
    + intros H. inversion H as [| | |? ? s1 s2 H1 H2 E1 E| | | |]; subst.
      destruct s1; [|discriminate]. destruct s2; [|discriminate]. now split.
  - rewrite orb_true_iff, IH1, IH2. split.
    + intros [H|H]; [now apply lang_alt_l | now apply lang_alt_r].
    + intros H. inversion H; subst; [now left | now right].
  - split; [constructor | reflexivity].
Qed.

Lemma star_cons_inv r c s :
  in_language (Re.Star r) (String c s) ->
  exists s1 s2, s = s1 ++ s2 /\ in_language r (String c s1)
                /\ in_language (Re.Star r) s2.
Proof.
  intros H. remember (Re.Star r) as r' eqn:Er. remember (String c s) as t eqn:Et.
  revert c s Et.
  induction H as [|a|p a Ha|r1 r2 s1 s2 H1 _ H2 _|r1 r2 s0 H0 _|r1 r2 s0 H0 _
                  |r0|r0 s1 s2 H1 _ H2 IH2];
    try discriminate.
  injection Er as ->. intros c' s' Et.
  destruct s1 as [|c1 s1].
  - simpl in Et. now apply IH2.
  - simpl in Et. injection Et as -> <-. now exists s1, s2.
Qed.

Lemma deriv_spec r : forall c s,
  in_language (Re.deriv c r) s <-> in_language r (String c s).
Proof.
  induction r as [| |d|p|r1 IH1 r2 IH2|r1 IH1 r2 IH2|r IH]; intros c s;
    cbn [Re.deriv].
  - split; intros H; inversion H.
  - split; intros H; inversion H.
  - split; intros H.
    + destruct (Ascii.eqb_spec c d) as [->|]; inversion H; subst. constructor.
    + inversion H; subst. rewrite Ascii.eqb_refl. constructor.
  - split; intros H.
    + destruct (p c) eqn:Hp; inversion H; subst. now constructor.
    + inversion H as [| |? ? Hp| | | | |]; subst. rewrite Hp. constructor.
  - split; intros H.
    + destruct (Re.nullable r1) eqn:Hn.
      * inversion H as [| | | |? ? ? H'|? ? ? H'| |]; subst.
        -- inversion H' as [| | |? ? s1 s2 H1 H2| | | |]; subst.
           change (String c (s1 ++ s2)) with (String c s1 ++ s2).
           constructor; [now apply IH1 | assumption].
        -- change (String c s) with ("" ++ String c s).
           constructor; [now apply nullable_spec | now apply IH2].
      * inversion H as [| | |? ? s1 s2 H1 H2| | | |]; subst.
        change (String c (s1 ++ s2)) with (String c s1 ++ s2).
        constructor; [now apply IH1 | assumption].
    + inversion H as [| | |? ? s1 s2 H1 H2 E1 E| | | |]; subst.
      destruct s1 as [|c1 s1].
      * simpl in E. subst s2.
        apply nullable_spec in H1. rewrite H1.
        apply lang_alt_r. now apply IH2.
      * simpl in E. injection E as -> <-.
        assert (Hd : in_language (Re.Seq (Re.deriv c r1) r2) (s1 ++ s2))
          by (constructor; [now apply IH1 | assumption]).
        destruct (Re.nullable r1); [now apply lang_alt_l | exact Hd].
  - split; intros H; inversion H; subst;
      solve [apply lang_alt_l; now apply IH1 | apply lang_alt_r; now apply IH2].
  - split; intros H.
    + inversion H as [| | |? ? s1 s2 H1 H2| | | |]; subst.
      change (String c (s1 ++ s2)) with (String c s1 ++ s2).
      constructor; [now apply IH | assumption].
    + apply star_cons_inv in H as (s1 & s2 & -> & H1 & H2).
      constructor; [now apply IH | assumption].
Qed.

(** [re.match] succeeds exactly on the strings that begin with a string
    the pattern describes. *)
Lemma matches_spec r : forall s,
  Re.matches r s = true
  <-> exists p rest, s = p ++ rest /\ in_language r p.
Proof.
  intros s. revert r. induction s as [|c s IH]; intros r; cbn [Re.matches].
  - rewrite orb_false_r, nullable_spec. split.
    + intros H. now exists "", "".
    + intros (p & rest & E & H). destruct p; [exact H | discriminate].
  - rewrite orb_true_iff, nullable_spec, IH. split.
    + intros [H | (p & rest & -> & H)].
      * now exists "", (String c s).
      * exists (String c p), rest. split; [reflexivity | now apply deriv_spec].
    + intros (p & rest & E & H). destruct p as [|c' p].
      * now left.
      * simpl in E. injection E as <- ->. right.
        exists p, rest. split; [reflexivity | now apply deriv_spec].
Qed.

End Patterns.

(* ===================================================================== *)
(** ** The locators the pattern accepts *)
(* ===================================================================== *)

Section AcceptedLocators.

Lemma lang_str s p : in_language (Re.Str s) p <-> p = s.
Proof.
  revert p. induction s as [|c s IH]; intros p; cbn [Re.Str]; split; intros H.
  - now inversion H.
  - subst. constructor.
  - inversion H as [| | |? ? s1 s2 H1 H2| | | |]; subst.
    inversion H1; subst. apply IH in H2. now subst.
  - subst. change (String c s) with (String c "" ++ s).
    constructor; [constructor | now apply IH].
Qed.

Lemma lang_star_class p s :
  in_language (Re.Star (Re.Class p)) s <-> all p s = true.
Proof.
  split.
  - intros H. remember (Re.Star (Re.Class p)) as r eqn:Er.
    induction H as [|a|q a Ha|r1 r2 s1 s2 H1 _ H2 _|r1 r2 s0 H0 _|r1 r2 s0 H0 _
                    |r0|r0 s1 s2 H1 _ H2 IH2];
      try discriminate.
    + reflexivity.
    + injection Er as ->. inversion H1 as [| |? ? Hp| | | | |]; subst.
      cbn. rewrite Hp. now apply IH2.
  - induction s as [|c s IH]; cbn [all]; intros H.
    + constructor.
    + apply andb_true_iff in H as [Hc Hs].
      change (String c s) with (String c "" ++ s).
      constructor; [now constructor | now apply IH].
Qed.

Lemma lang_plus_class p s :
  in_language (Re.Plus (Re.Class p)) s <-> s <> "" /\ all p s = true.
Proof.
  unfold Re.Plus. split.
  - intros H. inversion H as [| | |? ? s1 s2 H1 H2| | | |]; subst.
    inversion H1 as [| |? ? Hp| | | | |]; subst.
    apply lang_star_class in H2. cbn. rewrite Hp. now split.
  - intros [Hne Hall]. destruct s as [|c s]; [now elim Hne|].
    cbn in Hall. apply andb_true_iff in Hall as [Hc Hs].
    change (String c s) with (String c "" ++ s).
    constructor; [now constructor | now apply lang_star_class].
Qed.

(** What the pattern describes: [http] or [https], the host, an owner and
    a repository name, each of one or more characters of its class. *)
Lemma lang_github_url p :
  in_language github_url_pattern p
  <-> exists secure o r,
        p = repository_url secure o r
        /\ o <> "" /\ all owner_char o = true
        /\ r <> "" /\ all repo_char r = true.
Proof.
  unfold github_url_pattern, repository_url. split.
  - intros H.
    inversion H as [| | |? ? p1 t1 H1 T1| | | |]; subst; clear H.
    inversion T1 as [| | |? ? p2 t2 H2 T2| | | |]; subst; clear T1.
    inversion T2 as [| | |? ? p3 t3 H3 T3| | | |]; subst; clear T2.
    inversion T3 as [| | |? ? p4 t4 H4 T4| | | |]; subst; clear T3.
    inversion T4 as [| | |? ? p5 t5 H5 T5| | | |]; subst; clear T4.
    apply (lang_str "http") in H1. apply (lang_str "://github.com/") in H3.
    subst p1 p3.
    apply lang_plus_class in H4 as [Ho1 Ho2].
    apply (lang_plus_class (fun c => Chr.is_word c || mem c ".-")) in T5
      as [Hr1 Hr2].
    inversion H5; subst.
    assert (Hs : p2 = "" \/ p2 = "s").
    { inversion H2 as [| | | |? ? ? H'|? ? ? H'| |]; subst;
        inversion H'; subst; auto. }
    exists (if String.eqb p2 "" then false else true), p4, t5.
    split; [|now repeat split].
    destruct Hs as [-> | ->]; cbn; now rewrite ?str_app_assoc.
  - intros (secure & o & r & -> & Ho1 & Ho2 & Hr1 & Hr2).
    replace ((if secure then "https" else "http") ++ "://github.com/" ++ o ++ "/" ++ r)
      with ("http" ++ (if secure then "s" else "") ++ "://github.com/"
            ++ o ++ String "/" "" ++ r)
      by (now destruct secure).
    constructor; [now apply lang_str|].
    constructor; [destruct secure; [apply lang_alt_l | apply lang_alt_r]; constructor|].
    constructor; [now apply lang_str|].
    constructor; [now apply lang_plus_class|].
    constructor; [constructor|].
    now apply (lang_plus_class (fun c => Chr.is_word c || mem c ".-")).
Qed.

(** What [re.match] accepts: a locator of the pattern, and anything
    after it. *)
Lemma matches_github_url s :
  Re.matches github_url_pattern s = true
  <-> exists secure o r rest,
        s = repository_url secure o r ++ rest
        /\ o <> "" /\ all owner_char o = true
        /\ r <> "" /\ all repo_char r = true.
Proof.
  rewrite matches_spec. split.
  - intros (p & rest & -> & H). apply lang_github_url in H
      as (secure & o & r & -> & H).
    now exists secure, o, r, rest.
  - intros (secure & o & r & rest & -> & H).
    exists (repository_url secure o r), rest. split; [reflexivity|].
    apply lang_github_url. now exists secure, o, r.
Qed.

End AcceptedLocators.

(* ===================================================================== *)
(** ** The path of a locator *)
(* ===================================================================== *)

Section LocatorPath.

Lemma repo_char_segment c : repo_char c = true -> segment_char c = true.
Proof.
  destruct c as [[] [] [] [] [] [] [] []]; intros H;
    solve [reflexivity | discriminate H].
Qed.

Lemma owner_char_repo c : owner_char c = true -> repo_char c = true.
Proof.
  unfold owner_char, repo_char. intros H.
  apply orb_true_iff in H as [->|H]; [reflexivity|].
  apply orb_true_iff. right. cbn in *.
  destruct (Ascii.eqb c "-"); [now rewrite orb_true_r | discriminate].
Qed.

Lemma all_impl (p q : ascii -> bool) s :
  (forall c, p c = true -> q c = true) -> all p s = true -> all q s = true.
Proof.
  intros Hpq. induction s as [|c s IH]; cbn; [reflexivity|].
  intros H. apply andb_true_iff in H as [Hc Hs].
  now rewrite (Hpq _ Hc), IH.
Qed.

Lemma all_app p a b : all p (a ++ b) = all p a && all p b.
Proof.
  induction a as [|c a IH]; cbn; [reflexivity|]. now rewrite IH, andb_assoc.
Qed.

Lemma all_not_mem (p : ascii -> bool) c s :
  p c = false -> all p s = true -> mem c s = false.
Proof.
  intros Hc. induction s as [|d s IH]; cbn; [reflexivity|].
  intros H. apply andb_true_iff in H as [Hd Hs].
  rewrite (IH Hs), orb_false_r.
  destruct (Ascii.eqb_spec c d) as [->|]; [congruence | reflexivity].
Qed.

Lemma remove_app p a b : remove p (a ++ b) = remove p a ++ remove p b.
Proof.
  induction a as [|c a IH]; cbn; [reflexivity|].
  destruct (p c); cbn; now rewrite IH.
Qed.

Lemma remove_none p s :
  all (fun c => negb (p c)) s = true -> remove p s = s.
Proof.
  induction s as [|c s IH]; cbn; [reflexivity|].
  intros H. apply andb_true_iff in H as [Hc Hs].
  apply negb_true_iff in Hc. now rewrite Hc, IH.
Qed.

Lemma find_none c s : mem c s = false -> find c s = None.
Proof.
  induction s as [|d s IH]; cbn; [reflexivity|].
  intros H. apply orb_false_iff in H as [Hd Hs].
  rewrite (Ascii.eqb_sym d c), Hd, (IH Hs). reflexivity.
Qed.

Lemma before_absent c s : mem c s = false -> Url.before c s = s.
Proof. intros H. unfold Url.before. now rewrite (find_none _ _ H). Qed.

Lemma before_app c a b :
  mem c a = false -> Url.before c (a ++ b) = a ++ Url.before c b.
Proof.
  unfold Url.before. induction a as [|d a IH]; cbn; [reflexivity|].
  intros H. apply orb_false_iff in H as [Hd Ha].
  rewrite (Ascii.eqb_sym d c), Hd. specialize (IH Ha).
  destruct (find c (a ++ b)) as [i|]; destruct (find c b) as [j|]; cbn;
    now f_equal.
Qed.

Lemma mem_drop c n s : mem c s = false -> mem c (drop n s) = false.
Proof.
  revert s. induction n as [|n IH]; intros [|d s]; cbn; auto.
  intros H. apply orb_false_iff in H as [_ Hs]. now apply IH.
Qed.

Lemma strip_params_absent p : mem ";" p = false -> Url.strip_params p = p.
Proof.
  intros H. unfold Url.strip_params.
  destruct (rfind "/" p) as [i|]; [|now apply before_absent].
  now rewrite (find_none _ _ (mem_drop _ i _ H)).
Qed.

Lemma take_drop n s : take n s ++ drop n s = s.
Proof.
  revert s. induction n as [|n IH]; intros [|c s]; cbn; try reflexivity.
  now rewrite IH.
Qed.

Lemma take_add i j s : take (i + j) s = take i s ++ take j (drop i s).
Proof.
  revert s. induction i as [|i IH]; intros [|c s]; cbn; try reflexivity.
  - now destruct j.
  - now rewrite IH.
Qed.

Lemma find_cut c s j :
  find c s = Some j -> s = take j s ++ String c (drop (S j) s).
Proof.
  revert j. induction s as [|d s IH]; cbn; [discriminate|]. intros j.
  destruct (Ascii.eqb_spec d c) as [->|_].
  - now intros [= <-].
  - destruct (find c s) as [i|]; [|discriminate]. cbn. intros [= <-].
    cbn. f_equal. now apply IH.
Qed.

Lemma prefix_before_char c a b x y :
  a ++ b = x ++ String c y -> mem c a = false -> exists b', x = a ++ b'.
Proof.
  revert x. induction a as [|d a IH]; intros x E H; [now exists x|].
  cbn in H. apply orb_false_iff in H as [Hd Ha].
  destruct x as [|e x]; cbn in E.
  - injection E as -> _. now rewrite Ascii.eqb_refl in Hd.
  - injection E as -> E. destruct (IH _ E Ha) as [b' ->]. now exists b'.
Qed.

(** Parameters are cut off at a semicolon: what stands before the first
    semicolon of the path is left. *)
Lemma strip_params_keeps a b :
  mem ";" a = false -> exists b', Url.strip_params (a ++ b) = a ++ b'.
Proof.
  intros Ha. unfold Url.strip_params.
  destruct (rfind "/" (a ++ b)) as [i|].
  - destruct (find ";" (drop i (a ++ b))) as [j|] eqn:Hf; [|now exists b].
    apply find_cut in Hf.
    apply (prefix_before_char ";" a b _ (drop (S j) (drop i (a ++ b)))); [|exact Ha].
    rewrite take_add, str_app_assoc, <- Hf. now rewrite take_drop.
  - unfold Url.before.
    destruct (find ";" (a ++ b)) as [j|] eqn:Hf; [|now exists b].
    apply find_cut in Hf.
    now apply (prefix_before_char ";" a b _ (drop (S j) (a ++ b))).
Qed.

Lemma repository_url_app secure o r rest :
  repository_url secure o r ++ rest
  = (if secure then "https" else "http") ++ "://github.com"
    ++ String "/" (o ++ "/" ++ r ++ rest).
Proof.
  unfold repository_url. destruct secure; cbn; now rewrite !str_app_assoc.
Qed.

Lemma segment_path_char c : segment_char c = true -> path_char c = true.
Proof. unfold segment_char. now intros [H _]%andb_true_iff. Qed.

Lemma path_char_safe s :
  all path_char s = true -> all (fun c => negb (Url.is_unsafe c)) s = true.
Proof.
  apply all_impl. unfold path_char. now intros c [_ H]%andb_true_iff.
Qed.

Lemma path_char_no c s :
  mem c "?#;" = true -> all path_char s = true -> mem c s = false.
Proof.
  intros Hc. apply all_not_mem. unfold path_char. now rewrite Hc.
Qed.

(** The host is read off, and what follows it is searched for a
    fragment, a query and parameters. *)
Lemma urlparse_path_after_host (secure : bool) path :
  Url.urlparse_path ((if secure then "https" else "http") ++ "://github.com"
                     ++ String "/" path)
  = Url.strip_params
      (Url.before "?"
         (Url.before "#" (String "/" (remove Url.is_unsafe path)))).
Proof.
  unfold Url.urlparse_path. destruct secure.
  - change (Url.lstrip_by Url.is_c0_or_space
              ("https" ++ "://github.com" ++ String "/" path))
      with ("https://github.com/" ++ path).
    change (remove Url.is_unsafe ("https://github.com/" ++ path))
      with ("https://github.com/" ++ remove Url.is_unsafe path).
    reflexivity.
  - change (Url.lstrip_by Url.is_c0_or_space
              ("http" ++ "://github.com" ++ String "/" path))
      with ("http://github.com/" ++ path).
    change (remove Url.is_unsafe ("http://github.com/" ++ path))
      with ("http://github.com/" ++ remove Url.is_unsafe path).
    reflexivity.
Qed.

(** The path of a locator on the host, when every character after the
    host is one that [urlparse] leaves in the path. *)
Lemma urlparse_path_plain (secure : bool) path :
  all path_char path = true ->
  Url.urlparse_path ((if secure then "https" else "http") ++ "://github.com"
                     ++ String "/" path)
  = String "/" path.
Proof.
  intros Hpath. rewrite urlparse_path_after_host.
  rewrite (remove_none _ _ (path_char_safe _ Hpath)).
  assert (Hno : forall c, mem c "?#;" = true -> mem c (String "/" path) = false).
  { intros c Hc. cbn [mem]. rewrite (path_char_no c path Hc Hpath).
    now destruct c as [[] [] [] [] [] [] [] []]. }
  rewrite (before_absent "#") by now apply Hno.
  rewrite (before_absent "?") by now apply Hno.
  apply strip_params_absent. now apply Hno.
Qed.

End LocatorPath.

(* ===================================================================== *)
(** ** Reference Parser: locators and coordinates *)
(* ===================================================================== *)

Section LocatorsAndCoordinates.
Import PathFacts.

Local Arguments in_list : simpl never.
Local Arguments join : simpl never.

Lemma rstrip_app chars a b :
  rstrip chars (a ++ b)
  = match rstrip chars b with
    | "" => rstrip chars a
    | kept => a ++ kept
    end.
Proof.
  induction a as [|c a IH]; cbn [append rstrip].
  - now destruct (rstrip chars b).
  - rewrite IH. destruct (rstrip chars b); [reflexivity|].
    now destruct a.
Qed.

Lemma all_segment_no_sep s : all segment_char s = true -> mem "/" s = false.
Proof.
  apply all_not_mem. reflexivity.
Qed.

Lemma rstrip_segments s : all segment_char s = true -> rstrip "/" s = s.
Proof.
  induction s as [|c s IH]; cbn; [reflexivity|].
  intros H. apply andb_true_iff in H as [Hc Hs]. rewrite (IH Hs).
  destruct s; [|reflexivity].
  unfold segment_char in Hc. apply andb_true_iff in Hc as [_ Hc].
  apply negb_true_iff in Hc. now rewrite Hc.
Qed.

Lemma split_segment a b :
  mem "/" a = false -> split "/" (a ++ String "/" b) = a :: split "/" b.
Proof.
  intros H. now rewrite split_app_sep, (split_no_sep _ _ H).
Qed.

Lemma split_cons c s :
  Ascii.eqb c "/" = false ->
  exists h tl, split "/" s = h :: tl /\ split "/" (String c s) = String c h :: tl.
Proof.
  intros Hc. cbn [split]. rewrite Hc.
  destruct (split "/" s) as [|h tl] eqn:E;
    [now destruct (split_nonempty "/" s) | now exists h, tl].
Qed.

Lemma join_split s : join "/" (split "/" s) = s.
Proof.
  induction s as [|c s IH]; [reflexivity|]. cbn [split].
  destruct (split "/" s) as [|h tl] eqn:E;
    [now destruct (split_nonempty "/" s)|].
  destruct (Ascii.eqb_spec c "/") as [->|_].
  - change (join "/" ("" :: h :: tl)) with ("" ++ "/" ++ join "/" (h :: tl)).
    now rewrite IH.
  - destruct tl as [|q tl].
    + change (join "/" [h]) with h in IH. now subst.
    + change (join "/" (h :: q :: tl))
        with (h ++ "/" ++ join "/" (q :: tl)) in IH.
      change (join "/" (String c h :: q :: tl))
        with (String c (h ++ "/" ++ join "/" (q :: tl))).
      now rewrite IH.
Qed.

Lemma segment_not_sep c : segment_char c = true -> Ascii.eqb c "/" = false.
Proof.
  unfold segment_char. intros [_ H]%andb_true_iff. now apply negb_true_iff.
Qed.

(** The segments of the path of a locator that the pattern accepts: the
    owner that the pattern read, and a second segment that begins with
    the first character of the repository name. *)
Lemma accepted_parts s :
  Re.matches github_url_pattern s = true ->
  exists secure o c r rest h tl,
    s = repository_url secure o (String c r) ++ rest
    /\ o <> "" /\ all owner_char o = true /\ repo_char c = true
    /\ path_parts_of s = o :: String c h :: tl.
Proof.
  intros H. apply matches_github_url in H
    as (secure & o & r & rest & -> & Ho & Hoc & Hr & Hrc).
  destruct r as [|c r]; [now elim Hr|].
  cbn [all] in Hrc. apply andb_true_iff in Hrc as [Hc Hrc].
  assert (Hoseg : all segment_char o = true).
  { revert Hoc. apply all_impl. intros a Ha.
    now apply repo_char_segment, owner_char_repo. }
  assert (Hcseg : segment_char c = true) by now apply repo_char_segment.
  set (A := String "/" (o ++ String "/" (String c ""))).
  assert (HA : all path_char A = true).
  { subst A. cbn [all]. rewrite all_app. cbn [all].
    rewrite (all_impl _ _ _ segment_path_char Hoseg).
    now rewrite (segment_path_char _ Hcseg). }
  assert (Hpath : exists b, Url.urlparse_path
                              (repository_url secure o (String c r) ++ rest)
                            = A ++ b).
  { rewrite repository_url_app, urlparse_path_after_host.
    replace (String "/" (remove Url.is_unsafe (o ++ "/" ++ String c r ++ rest)))
      with (A ++ remove Url.is_unsafe (r ++ rest)).
    2:{ subst A. cbn [append]. f_equal.
        change (o ++ String "/" (String c (r ++ rest)))
          with (o ++ (String "/" (String c "")) ++ (r ++ rest)).
        rewrite <- str_app_assoc.
        rewrite (remove_app _ (o ++ String "/" (String c "")) (r ++ rest)).
        f_equal. symmetry. apply remove_none.
        apply path_char_safe. cbn [all] in HA.
        now apply andb_true_iff in HA as [_ HA]. }
    rewrite (before_app "#") by (apply (path_char_no "#" _ eq_refl HA)).
    rewrite (before_app "?") by (apply (path_char_no "?" _ eq_refl HA)).
    apply strip_params_keeps. apply (path_char_no ";" _ eq_refl HA). }
  destruct Hpath as [b Hpath].
  assert (HA' : A = String "/" (o ++ "/") ++ String c "").
  { subst A. cbn [append]. now rewrite str_app_assoc. }
  assert (Hkeep : rstrip "/" (A ++ b) = A ++ rstrip "/" b).
  { rewrite rstrip_app. destruct (rstrip "/" b); [|reflexivity].
    rewrite str_app_empty_r, HA', rstrip_app. cbn [rstrip mem].
    now rewrite (segment_not_sep _ Hcseg). }
  destruct (split_cons c (rstrip "/" b) (segment_not_sep _ Hcseg))
    as (h & tl & _ & Hsplit).
  exists secure, o, c, r, rest, h, tl.
  split; [reflexivity|]. do 3 (split; [assumption|]).
  unfold path_parts_of, strip. rewrite Hpath, Hkeep.
  subst A. cbn [append lstrip mem]. rewrite Ascii.eqb_refl. cbn [orb].
  destruct o as [|c0 o]; [now elim Ho|].
  cbn [all] in Hoseg. apply andb_true_iff in Hoseg as [Hc0 Ho'].
  cbn [append lstrip mem]. rewrite (segment_not_sep _ Hc0). cbn [orb].
  change (String c0 (o ++ String "/" (String c "")) ++ rstrip "/" b)
    with (String c0 ((o ++ String "/" (String c "")) ++ rstrip "/" b)).
  rewrite str_app_assoc.
  change (String c0 (o ++ String "/" (String c "") ++ rstrip "/" b))
    with (String c0 o ++ String "/" (String c (rstrip "/" b))).
  rewrite split_segment, Hsplit; [reflexivity|].
  apply all_segment_no_sep. cbn [all]. now rewrite Hc0.
Qed.

End LocatorsAndCoordinates.

(* ===================================================================== *)
(** ** Reference Parser: what it accepts and what it returns *)
(* ===================================================================== *)

Section ParserResults.
Import PathFacts.

Local Arguments in_list : simpl never.
Local Arguments join : simpl never.

Lemma split_parts_no_sep sep s x :
  In x (split sep s) -> mem sep x = false.
Proof.
  revert x. induction s as [|c s IH]; intros x; cbn [split].
  - intros [<-|[]]. reflexivity.
  - destruct (Ascii.eqb_spec c sep) as [->|Hne].
    + intros [<-|H]; [reflexivity | now apply IH].
    + destruct (split sep s) as [|h tl] eqn:E.
      * intros [<-|[]]. cbn. rewrite orb_false_r.
        now apply Ascii.eqb_neq, not_eq_sym.
      * intros [<-|H].
        -- cbn. rewrite (IH h (or_introl eq_refl)), orb_false_r.
           now apply Ascii.eqb_neq, not_eq_sym.
        -- apply IH. now right.
Qed.

Lemma coordinates_of_owner_repo o r tl :
  owner (coordinates_of (o :: r :: tl)) = o
  /\ repo (coordinates_of (o :: r :: tl)) = r.
Proof.
  destruct tl as [|third rest]; cbn; [now split|].
  now destruct (in_list third ref_selectors).
Qed.

(** X1.  Whenever the parser returns coordinates, the locator begins with
    [http://github.com/] or [https://github.com/] followed by the owner
    and a slash; the owner is a non-empty string of word characters and
    hyphens; the repository is not empty, begins with a word character,
    a dot or a hyphen, and holds no slash. *)
Theorem parse_result_shape url c :
  parse_github_folder_url url = Ok c ->
  (exists secure rest, url = repository_url secure (owner c) "" ++ rest)
  /\ owner c <> "" /\ all owner_char (owner c) = true
  /\ (exists first others,
         repo c = String first others /\ repo_char first = true)
  /\ mem "/" (repo c) = false.
Proof.
  intros Hparse.
  destruct (parse_accepted _ _ Hparse) as (Hre & _ & ->).
  destruct (accepted_parts _ Hre)
    as (secure & o & ch & r & rest & h & tl & Hurl & Ho & Hoc & Hch & Hparts).
  rewrite Hparts.
  destruct (coordinates_of_owner_repo o (String ch h) tl) as [-> ->].
  split; [|split; [exact Ho | split; [exact Hoc | split]]].
  - destruct (rstrip_tail "/" url) as (tail & Htail & _).
    exists secure, (String ch r ++ rest ++ tail).
    rewrite Htail at 1. rewrite Hurl. unfold repository_url.
    rewrite !str_app_assoc. cbn [append]. now rewrite ?str_app_assoc.
  - now exists ch, h.
  - apply (split_parts_no_sep "/" (strip "/" (Url.urlparse_path (rstrip "/" url)))).
    fold (path_parts_of (rstrip "/" url)). rewrite Hparts. right. now left.
Qed.

Lemma parse_result_shape_witness :
  let url := "https://github.com/acme/widgets/tree/v2/src/lib" in
  exists c,
    parse_github_folder_url url = Ok c
    /\ owner c <> "" /\ all owner_char (owner c) = true
    /\ mem "/" (repo c) = false.
Proof.
  exists (Coordinates "acme" "widgets" "v2" "src/lib").
  destruct (parse_result_shape
              "https://github.com/acme/widgets/tree/v2/src/lib"
              (Coordinates "acme" "widgets" "v2" "src/lib") eq_refl)
    as (_ & Ho & Hoc & _ & Hr).
  split; [reflexivity | split; [exact Ho | split; [exact Hoc | exact Hr]]].
Defined.

(** X2.  The pattern is the only test a locator can fail: a locator that
    passes it has an owner and a repository among its path segments, so
    that the check on their number never fails and no subscript is out
    of range; the one error the parser raises is [ValueError("Invalid
    GitHub URL")]. *)
Theorem parse_rejects_by_pattern_only url :
  (Re.matches github_url_pattern (rstrip "/" url) = true ->
   (2 <= List.length (path_parts_of (rstrip "/" url)))%nat
   /\ exists c, parse_github_folder_url url = Ok c)
  /\ (forall e,
         parse_github_folder_url url = Raise e ->
         e = ValueError "Invalid GitHub URL"
         /\ Re.matches github_url_pattern (rstrip "/" url) = false).
Proof.
  assert (Hlen : Re.matches github_url_pattern (rstrip "/" url) = true ->
                 (2 <= List.length (path_parts_of (rstrip "/" url)))%nat).
  { intros Hre.
    destruct (accepted_parts _ Hre)
      as (secure & o & ch & r & rest & h & tl & _ & _ & _ & _ & ->).
    cbn. lia. }
  split.
  - intros Hre. split; [now apply Hlen|].
    eexists. apply parse_of_parts; [exact Hre | now apply Hlen].
  - intros e He.
    destruct (Re.matches github_url_pattern (rstrip "/" url)) eqn:Hre.
    + rewrite (parse_of_parts url Hre (Hlen eq_refl)) in He. discriminate.
    + unfold parse_github_folder_url in He. rewrite Hre in He.
      cbn in He. now injection He as <-.
Qed.

Lemma parse_rejects_by_pattern_only_witness :
  parse_github_folder_url "https://gitlab.com/acme/widgets"
  = Raise (ValueError "Invalid GitHub URL")
  /\ (exists c, parse_github_folder_url "https://github.com/acme/w" = Ok c).
Proof.
  split.
  - destruct (parse_rejects_by_pattern_only "https://gitlab.com/acme/widgets")
      as [_ H].
    destruct (parse_github_folder_url "https://gitlab.com/acme/widgets")
      as [c|e] eqn:E; [discriminate E|].
    now destruct (H e eq_refl) as [-> _].
  - destruct (parse_rejects_by_pattern_only "https://github.com/acme/w")
      as [H _].
    exact (proj2 (H eq_refl)).
Defined.

Lemma endswith_segments s :
  s <> "" -> all segment_char s = true -> endswith_char s "/" = false.
Proof.
  induction s as [|c s IH]; [now intros H|]. intros _ H.
  cbn [all] in H. apply andb_true_iff in H as [Hc Hs].
  destruct s as [|d s]; [exact (segment_not_sep _ Hc)|].
  now apply IH.
Qed.

Lemma repository_url_matches secure o r rest :
  o <> "" -> all owner_char o = true ->
  r <> "" -> all repo_char r = true ->
  Re.matches github_url_pattern (repository_url secure o r ++ rest) = true.
Proof.
  intros Ho Hoc Hr Hrc. apply matches_github_url.
  now exists secure, o, r, rest.
Qed.

Lemma repository_url_snoc secure o r :
  repository_url secure o r = repository_url secure o "" ++ r.
Proof. unfold repository_url. now rewrite !str_app_assoc. Qed.

Lemma rstrip_app_kept chars a b :
  b <> "" -> rstrip chars b = b -> rstrip chars (a ++ b) = a ++ b.
Proof.
  intros Hb Hkept. rewrite rstrip_app, Hkept. destruct b; [now elim Hb|].
  reflexivity.
Qed.

Lemma owner_segments o : all owner_char o = true -> all segment_char o = true.
Proof.
  apply all_impl. intros a Ha. now apply repo_char_segment, owner_char_repo.
Qed.

Lemma repo_segments r : all repo_char r = true -> all segment_char r = true.
Proof. apply all_impl, repo_char_segment. Qed.

(** The path segments of a locator made of an owner, a repository and
    further segments, none of which [urlparse] cuts. *)
Lemma path_parts_of_locator secure o r tail :
  o <> "" -> all owner_char o = true ->
  r <> "" -> all repo_char r = true ->
  all path_char tail = true ->
  path_parts_of (repository_url secure o r ++ tail)
  = split "/" (lstrip "/" (rstrip "/" (String "/" (o ++ "/" ++ r ++ tail)))).
Proof.
  intros Ho Hoc Hr Hrc Htail.
  unfold path_parts_of, strip.
  rewrite repository_url_app, urlparse_path_plain; [reflexivity|].
  rewrite !all_app.
  rewrite (all_impl _ _ _ segment_path_char (owner_segments _ Hoc)).
  rewrite (all_impl _ _ _ segment_path_char (repo_segments _ Hrc)).
  now rewrite Htail.
Qed.

(** X3.  A locator that is just scheme, host, owner and repository, the
    owner of word characters and hyphens, the repository of word
    characters, dots and hyphens, parses to that owner and repository,
    the revision ["main"] and the empty subpath. *)
Theorem parse_repository_locator secure o r :
  o <> "" -> all owner_char o = true ->
  r <> "" -> all repo_char r = true ->
  parse_github_folder_url (repository_url secure o r)
  = Ok (Coordinates o r "main" "").
Proof.
  intros Ho Hoc Hr Hrc.
  pose proof (owner_segments _ Hoc) as Hos.
  pose proof (repo_segments _ Hrc) as Hrs.
  assert (Hurl : rstrip "/" (repository_url secure o r) = repository_url secure o r).
  { apply rstrip_keeps. rewrite repository_url_snoc, endswith_app by exact Hr.
    now apply endswith_segments. }
  assert (Hparts : path_parts_of (repository_url secure o r) = [o; r]).
  { rewrite <- (str_app_empty_r (repository_url secure o r)).
    rewrite path_parts_of_locator by auto. rewrite str_app_empty_r.
    replace (String "/" (o ++ "/" ++ r)) with (String "/" (o ++ "/") ++ r)
      by (cbn [append]; now rewrite str_app_assoc).
    rewrite (rstrip_app_kept _ _ _ Hr (rstrip_segments _ Hrs)).
    cbn [append]. rewrite str_app_assoc.
    destruct o as [|c0 o]; [now elim Ho|].
    cbn [all] in Hos. apply andb_true_iff in Hos as [Hc0 Hos].
    cbn [append lstrip mem]. rewrite Ascii.eqb_refl, (segment_not_sep _ Hc0).
    cbn [orb].
    change (String c0 (o ++ String "/" r)) with (String c0 o ++ String "/" r).
    rewrite split_segment, (split_no_sep _ _ (all_segment_no_sep _ Hrs));
      [reflexivity|].
    apply all_segment_no_sep. cbn [all]. now rewrite Hc0. }
  rewrite parse_of_parts; rewrite Hurl.
  - now rewrite Hparts.
  - rewrite <- (str_app_empty_r (repository_url secure o r)).
    now apply repository_url_matches.
  - rewrite Hparts. cbn. lia.
Qed.

Lemma parse_repository_locator_witness :
  parse_github_folder_url "http://github.com/a-b/w.git"
  = Ok (Coordinates "a-b" "w.git" "main" "").
Proof.
  apply (parse_repository_locator false "a-b" "w.git");
    solve [discriminate | reflexivity].
Defined.

End ParserResults.

(* ===================================================================== *)
(** ** Reference Parser: the locator of a folder *)
(* ===================================================================== *)

Section FolderLocators.
Import PathFacts.

Local Arguments in_list : simpl never.
Local Arguments join : simpl never.

Lemma endswith_last a b :
  b <> "" -> endswith_char b "/" = false -> endswith_char (a ++ b) "/" = false.
Proof. intros Hb H. now rewrite endswith_app. Qed.

(** X4.  The locator of a folder parses back to what it was made of: with
    an owner and a repository of the characters of the pattern, the
    keyword [tree] or [blob], a revision that is one non-empty path
    segment, and a subpath that is empty or does not end with a slash,
    none of them with a character that starts a query, a fragment or
    parameters, or that [urlparse] deletes, the parser returns the owner,
    the repository, the revision and the subpath. *)
Theorem parse_folder_locator secure o r keyword rev sub :
  o <> "" -> all owner_char o = true ->
  r <> "" -> all repo_char r = true ->
  In keyword ref_selectors ->
  rev <> "" -> all segment_char rev = true ->
  all path_char sub = true -> endswith_char sub "/" = false ->
  parse_github_folder_url (folder_url secure o r keyword rev sub)
  = Ok (Coordinates o r rev sub).
Proof.
  intros Ho Hoc Hr Hrc Hkw Hrev Hrevc Hsubc Hsub.
  pose proof (owner_segments _ Hoc) as Hos.
  pose proof (repo_segments _ Hrc) as Hrs.
  assert (Hkwc : all segment_char keyword = true /\ keyword <> ""
                 /\ in_list keyword ref_selectors = true).
  { destruct Hkw as [<-|[<-|[]]]; repeat split; discriminate. }
  destruct Hkwc as (Hkwc & Hkwne & Hkwin).
  set (last := if String.eqb sub "" then "" else "/" ++ sub).
  set (tail := "/" ++ keyword ++ "/" ++ rev ++ last).
  assert (Hfolder : folder_url secure o r keyword rev sub
                    = repository_url secure o r ++ tail) by reflexivity.
  assert (Hlast : endswith_char (rev ++ last) "/" = false
                  /\ rev ++ last <> ""
                  /\ all path_char last = true
                  /\ split "/" (rev ++ last)
                     = rev :: (if String.eqb sub "" then [] else split "/" sub)).
  { subst last. destruct (String.eqb_spec sub "") as [->|Hne].
    - rewrite str_app_empty_r. repeat split.
      + now apply endswith_segments.
      + exact Hrev.
      + now apply split_no_sep, all_segment_no_sep.
    - repeat split.
      + apply endswith_last; [discriminate|].
        change ("/" ++ sub) with (String "/" "" ++ sub).
        now rewrite endswith_app.
      + destruct rev; [now elim Hrev | discriminate].
      + cbn. exact Hsubc.
      + apply split_segment. now apply all_segment_no_sep. }
  destruct Hlast as (Hend & Hne & Hlastc & Hsplit).
  assert (Htailc : all path_char tail = true).
  { subst tail. cbn [append all].
    rewrite all_app. cbn [all]. rewrite all_app.
    rewrite (all_impl _ _ _ segment_path_char Hkwc).
    rewrite (all_impl _ _ _ segment_path_char Hrevc).
    now rewrite Hlastc. }
  assert (Htail : tail <> "" /\ endswith_char tail "/" = false).
  { subst tail. split; [discriminate|].
    replace ("/" ++ keyword ++ "/" ++ rev ++ last)
      with (("/" ++ keyword ++ "/") ++ rev ++ last)
      by (cbn [append]; now rewrite str_app_assoc).
    now apply endswith_last. }
  destruct Htail as [Htailne Htailend].
  assert (Hurl : rstrip "/" (folder_url secure o r keyword rev sub)
                 = folder_url secure o r keyword rev sub).
  { apply rstrip_keeps. rewrite Hfolder. now apply endswith_last. }
  assert (Hparts : path_parts_of (folder_url secure o r keyword rev sub)
                   = o :: r :: keyword :: rev
                       :: (if String.eqb sub "" then [] else split "/" sub)).
  { rewrite Hfolder, path_parts_of_locator by auto.
    rewrite rstrip_keeps.
    2:{ change (String "/" (o ++ "/" ++ r ++ tail))
          with (String "/" "" ++ (o ++ "/" ++ r ++ tail)).
        rewrite <- !str_app_assoc. now apply endswith_last. }
    destruct o as [|c0 o]; [now elim Ho|].
    pose proof Hos as Hos'.
    cbn [all] in Hos. apply andb_true_iff in Hos as [Hc0 Hos].
    cbn [append lstrip mem]. rewrite Ascii.eqb_refl, (segment_not_sep _ Hc0).
    cbn [orb].
    change (String c0 (o ++ String "/" (r ++ tail)))
      with (String c0 o ++ String "/" (r ++ tail)).
    rewrite split_segment by now apply all_segment_no_sep.
    subst tail. cbn [append].
    rewrite split_segment by now apply all_segment_no_sep.
    rewrite split_segment by now apply all_segment_no_sep.
    now rewrite Hsplit. }
  rewrite parse_of_parts; rewrite Hurl.
  - rewrite Hparts. cbn [coordinates_of]. rewrite Hkwin. cbn [skipn].
    destruct (String.eqb_spec sub "") as [->|_]; [reflexivity|].
    now rewrite join_split.
  - rewrite Hfolder. now apply repository_url_matches.
  - rewrite Hparts. cbn. lia.
Qed.

Lemma parse_folder_locator_witness :
  parse_github_folder_url "https://github.com/acme/widgets/tree/v2/src/lib"
  = Ok (Coordinates "acme" "widgets" "v2" "src/lib")
  /\ parse_github_folder_url "http://github.com/acme/widgets/blob/v2"
     = Ok (Coordinates "acme" "widgets" "v2" "").
Proof.
  split.
  - apply (parse_folder_locator true "acme" "widgets" "tree" "v2" "src/lib");
      solve [discriminate | reflexivity | now left].
  - apply (parse_folder_locator false "acme" "widgets" "blob" "v2" "");
      solve [discriminate | reflexivity | now right; left].
Defined.

End FolderLocators.

(* ===================================================================== *)
(** ** Sanitizing a path, and the place of the staging directory *)
(* ===================================================================== *)

Section SanitizeAndStage.
Import PathFacts.

Lemma rstrip_idempotent chars s :
  rstrip chars (rstrip chars s) = rstrip chars s.
Proof.
  induction s as [|c s IH]; [reflexivity|]. cbn [rstrip].
  destruct (rstrip chars s) as [|d kept] eqn:E.
  - destruct (mem c chars) eqn:Hc; [reflexivity|]. cbn [rstrip]. now rewrite Hc.
  - cbn [rstrip]. cbn [rstrip] in IH. now rewrite IH.
Qed.

(** X8.  Sanitizing cuts off the slashes and backslashes that a path ends
    with, and nothing else: the path is the sanitized path followed by
    separators only, the sanitized path ends with neither separator, and
    sanitizing it again changes nothing.  What stands before the last
    other character, separators and [..] included, is kept as it is. *)
Theorem sanitize_path_cuts_the_tail path :
  (exists tail,
      path = sanitize_path path ++ tail
      /\ all (fun c => mem c "/\") tail = true)
  /\ endswith_char (sanitize_path path) "/" = false
  /\ endswith_char (sanitize_path path) "\" = false
  /\ sanitize_path (sanitize_path path) = sanitize_path path.
Proof.
  unfold sanitize_path. split; [apply rstrip_tail|].
  split; [now apply rstrip_no_trailing|].
  split; [now apply rstrip_no_trailing | apply rstrip_idempotent].
Qed.

Lemma rfind_absent c s : mem c s = false -> rfind c s = None.
Proof.
  induction s as [|d s IH]; [reflexivity|]. cbn [mem rfind].
  intros H. apply orb_false_iff in H as [Hd Hs]. rewrite (IH Hs).
  now rewrite (Ascii.eqb_sym d c), Hd.
Qed.

Lemma rfind_last c a b :
  mem c b = false -> rfind c (a ++ String c b) = Some (String.length a).
Proof.
  intros Hb. induction a as [|d a IH]; cbn [append rfind String.length].
  - now rewrite (rfind_absent _ _ Hb), Ascii.eqb_refl.
  - now rewrite IH.
Qed.

Lemma take_app a b : take (String.length a) (a ++ b) = a.
Proof. induction a; cbn; [now destruct b | congruence]. Qed.

Lemma cut_last_app a b :
  mem "/" b = false ->
  OsPath.cut_last (a ++ String "/" b) = (a ++ String "/" "", b).
Proof.
  intros Hb. unfold OsPath.cut_last, OsPath.sep. rewrite (rfind_last _ _ _ Hb).
  f_equal.
  - replace (a ++ String "/" b) with ((a ++ String "/" "") ++ b)
      by (now rewrite str_app_assoc).
    replace (S (String.length a)) with (String.length (a ++ String "/" ""))
      by (rewrite str_length_app; cbn; lia).
    apply take_app.
  - replace (a ++ String "/" b) with ((a ++ String "/" "") ++ b)
      by (now rewrite str_app_assoc).
    replace (S (String.length a)) with (String.length (a ++ String "/" ""))
      by (rewrite str_length_app; cbn; lia).
    apply drop_app.
Qed.

Lemma all_same_endswith c s :
  s <> "" -> all (Ascii.eqb c) s = true -> endswith_char s c = true.
Proof.
  induction s as [|d s IH]; [now intros H|]. intros _ H.
  cbn [all] in H. apply andb_true_iff in H as [Hd Hs].
  destruct s as [|e s]; [cbn; now rewrite Ascii.eqb_sym | now apply IH].
Qed.

(** A directory name that ends with a slash is made of slashes. *)
Lemma dirname_trailing p :
  endswith_char (OsPath.dirname p) "/" = true ->
  all (Ascii.eqb OsPath.sep) (OsPath.dirname p) = true.
Proof.
  unfold OsPath.dirname.
  destruct (fst (OsPath.cut_last p)) as [|c head] eqn:E; [discriminate|].
  cbn [String.eqb negb andb].
  destruct (all (Ascii.eqb OsPath.sep) (String c head)) eqn:Hall; cbn [negb].
  - now intros _.
  - now rewrite (rstrip_no_trailing "/" (String c head) "/" eq_refl).
Qed.

(** X9.  The staging directory is made in the directory that holds the
    destination, whatever the destination path: its directory name is
    the directory name of the destination, and its last component is
    [temp_extract_] followed by the time in seconds. *)
Theorem staging_beside_destination output_dir stamp :
  OsPath.dirname (staging_dir output_dir stamp) = OsPath.dirname output_dir
  /\ OsPath.basename (staging_dir output_dir stamp) = staging_name stamp.
Proof.
  pose proof (name_ok_proper _ (staging_name_ok stamp)) as (_ & _ & Hname).
  pose proof (name_ok_relative _ (staging_name_ok stamp)) as Hrel.
  unfold staging_dir, OsPath.join. rewrite Hrel.
  set (h := OsPath.dirname output_dir).
  set (name := staging_name stamp) in *.
  destruct (String.eqb_spec h "") as [Hh|Hh].
  - rewrite Hh. cbn [orb append].
    unfold OsPath.dirname, OsPath.basename, OsPath.cut_last, OsPath.sep.
    now rewrite (rfind_absent _ _ Hname).
  - cbn [orb]. destruct (endswith_char h OsPath.sep) eqn:Hend.
    + pose proof (dirname_trailing output_dir Hend) as Hall. fold h in Hall.
      destruct (endswith_snoc _ _ Hend) as [h' Hh'].
      unfold OsPath.dirname at 1, OsPath.basename.
      rewrite Hh', str_app_assoc. cbn [append].
      unfold OsPath.sep. rewrite (cut_last_app _ _ Hname). cbn [fst snd].
      fold OsPath.sep. rewrite <- Hh', Hall. cbn [negb].
      rewrite andb_false_r. now split.
    + unfold OsPath.dirname at 1, OsPath.basename.
      change (h ++ "/" ++ name) with (h ++ String "/" name).
      rewrite (cut_last_app _ _ Hname). cbn [fst snd].
      assert (Hall : all (Ascii.eqb OsPath.sep) (h ++ String "/" "") = false).
      { destruct (all (Ascii.eqb OsPath.sep) (h ++ String "/" "")) eqn:Hall;
          [|reflexivity].
        rewrite all_app in Hall. apply andb_true_iff in Hall as [Hall _].
        now rewrite (all_same_endswith _ _ Hh Hall) in Hend. }
      rewrite Hall.
      replace (String.eqb (h ++ String "/" "") "") with false
        by (now destruct h).
      cbn [negb andb].
      rewrite (rstrip_snoc "/" h "/" eq_refl).
      split; [now apply rstrip_keeps | reflexivity].
Qed.

End SanitizeAndStage.

Local Open Scope list_scope.

(* ===================================================================== *)
(** ** Resilient Fetcher: the other ways out of the loop *)
(* ===================================================================== *)

Section FetcherExits.

Variables (url : string) (timeout retries : Z) (backoff : Q).

(** The loop ends at the first attempt that is answered or that raises
    something the handler does not catch. *)
Lemma retry_loop_stops n : forall fuel current_retry w,
  (n < fuel)%nat ->
  (0 <= current_retry)%Z ->
  (current_retry + Z.of_nat n <= retries)%Z ->
  (forall k, (1 <= k <= n)%nat ->
             plain_wait backoff (current_retry + Z.of_nat k) = true) ->
  (forall k, (k < n)%nat -> network_failure (attempt w url k)) ->
  forall e,
    attempt w url n = Fail e ->
    is_network_error e = false ->
    exists w',
      retry_loop fuel url timeout retries backoff current_retry w
      = Some (Raise e, w')
      /\ fetched w w'
           (failed_attempts url timeout backoff current_retry n
            ++ [Requested url timeout]).
Proof.
  induction n as [|n IH];
    intros fuel cr w Hfuel H0 Hcr Hplain Hfail e Hlast Hnet;
    (destruct fuel as [|fuel]; [lia|]).
  - cbn [retry_loop].
    replace (cr <=? retries)%Z with true by (symmetry; apply Z.leb_le; lia).
    unfold request. unfold attempt in Hlast. rewrite Nat.add_0_r in Hlast.
    rewrite Hlast, Hnet.
    eexists. split; [reflexivity|].
    apply (fetched_add_event w (Requested url timeout)).
  - destruct (Hfail 0%nat ltac:(lia)) as (e0 & He & Hnet0).
    assert (Hstep : (cr + 1 <= retries)%Z) by lia.
    rewrite (retry_loop_retries url timeout retries backoff fuel cr w e0
               H0 Hstep (Hplain 1%nat ltac:(lia)) He Hnet0).
    destruct (IH fuel (cr + 1)%Z
                (after_retry url timeout retries backoff cr e0 w))
      with (e := e) as (w' & Hrun & Hfetched); try lia; auto.
    + intros k Hk.
      replace (cr + 1 + Z.of_nat k)%Z with (cr + Z.of_nat (S k))%Z by lia.
      apply Hplain. lia.
    + intros k Hk. rewrite attempt_after_retry. apply Hfail. lia.
    + now rewrite attempt_after_retry.
    + exists w'. split; [exact Hrun|].
      rewrite <- failed_attempts_succ, <- app_assoc.
      exact (fetched_trans _ _ _ _ _
               (fetched_after_retry url timeout retries backoff cr e0 w)
               Hfetched).
Qed.

Lemma failed_attempts_requests from n :
  List.length (filter is_request (failed_attempts url timeout backoff from n))
  = n.
Proof.
  unfold failed_attempts.
  transitivity (List.length (seq 1 n)); [|apply length_seq].
  generalize (seq 1 n). intros ks.
  induction ks as [|k ks IHks]; [reflexivity|]. cbn. now rewrite IHks.
Qed.


Lemma download_stops w n e :
  (Z.of_nat n <= retries)%Z ->
  (forall k, (1 <= k <= n)%nat -> plain_wait backoff (Z.of_nat k) = true) ->
  (forall k, (k < n)%nat -> network_failure (attempt w url k)) ->
  attempt w url n = Fail e ->
  is_network_error e = false ->
  exists w',
    download_with_progress url timeout retries backoff w = (Raise e, w')
    /\ fetched w w'
         (failed_attempts url timeout backoff 0 n ++ [Requested url timeout]).
Proof.
  intros Hn Hplain Hfail Hlast Hnet. unfold download_with_progress, retry_fuel.
  destruct (retry_loop_stops n (Z.to_nat (retries + 1)) 0%Z w) with (e := e)
    as (w' & Hrun & Hfetched); auto; try lia.
  rewrite Hrun. now exists w'.
Qed.


(** X6.  With a negative number of retries the loop is not entered: no
    request is made, nothing is printed, and the call returns [None]. *)
Theorem fetch_with_negative_budget w :
  (retries < 0)%Z ->
  download_with_progress url timeout retries backoff w = (Ok None, w).
Proof.
  intros Hneg. unfold download_with_progress, retry_fuel.
  replace (Z.to_nat (retries + 1)) with 0%nat by lia.
  cbn [retry_loop].
  now replace (0 <=? retries)%Z with false by (symmetry; apply Z.leb_gt; lia).
Qed.

(** Every way out of the loop, as long as it has fuel and the waits are
    plain. *)
Lemma retry_loop_shape fuel : forall current_retry w res w',
  (0 <= current_retry <= retries)%Z ->
  (forall k, (current_retry < k <= retries)%Z ->
             plain_wait backoff k = true) ->
  retry_loop fuel url timeout retries backoff current_retry w
  = Some (res, w') ->
  exists n,
    (current_retry + Z.of_nat n <= retries)%Z
    /\ fetched w w'
         (failed_attempts url timeout backoff current_retry n
          ++ [Requested url timeout])
    /\ res <> Ok None.
Proof.
  induction fuel as [|fuel IH]; intros cr w res w' Hcr Hplain;
    cbn [retry_loop];
    replace (cr <=? retries)%Z with true by (symmetry; apply Z.leb_le; lia);
    [discriminate|].
  destruct (request url timeout w) as [[chunks|e] w1] eqn:Hreq.
  - intros [= <- <-]. exists 0%nat. split; [lia | split; [|discriminate]].
    unfold request in Hreq.
    destruct (w_server w (requests_made w) url); [|discriminate].
    injection Hreq as _ <-.
    apply (fetched_add_event w (Requested url timeout)).
  - assert (Hw1 : w1 = add_event w (Requested url timeout)
                  /\ attempt w url 0 = Fail e).
    { unfold request in Hreq. unfold attempt. rewrite Nat.add_0_r.
      destruct (w_server w (requests_made w) url); [discriminate|].
      now injection Hreq as <- <-. }
    destruct Hw1 as [-> Hatt].
    destruct (is_network_error e) eqn:Hnet.
    + destruct (Z.leb_spec (cr + 1) retries) as [Hle|Hgt].
      * rewrite (handler_plain url timeout retries backoff cr e w
                   ltac:(lia) (Hplain (cr + 1)%Z ltac:(lia))).
        intros Hrun.
        destruct (IH (cr + 1)%Z _ _ _ ltac:(lia)
                    (fun k Hk => Hplain k ltac:(lia)) Hrun)
          as (n & Hn & Hf & Hres).
        exists (S n). split; [lia | split; [|exact Hres]].
        rewrite <- failed_attempts_succ, <- app_assoc.
        exact (fetched_trans _ _ _ _ _
                 (fetched_after_retry url timeout retries backoff cr e w) Hf).
      * cbn [print]. intros [= <- <-].
        exists 0%nat. split; [lia | split; [|discriminate]].
        change (failed_attempts url timeout backoff cr 0
                ++ [Requested url timeout])
          with ([Requested url timeout] ++ [])%list.
        eapply fetched_trans.
        -- apply (fetched_add_event w (Requested url timeout)).
        -- apply (fetched_add_event _ (Printed (MsgFailedAfter retries e))).
    + intros [= <- <-]. exists 0%nat. split; [lia | split; [|discriminate]].
      apply (fetched_add_event w (Requested url timeout)).
Qed.

(** Every way out of a call with a budget that is not negative and with
    plain waits. *)
Lemma download_shape w res w' :
  (0 <= retries)%Z ->
  (forall k, (1 <= k <= retries)%Z -> plain_wait backoff k = true) ->
  download_with_progress url timeout retries backoff w = (res, w') ->
  exists n,
    (Z.of_nat n <= retries)%Z
    /\ fetched w w'
         (failed_attempts url timeout backoff 0 n ++ [Requested url timeout])
    /\ res <> Ok None.
Proof.
  intros Hretries Hplain. unfold download_with_progress, retry_fuel.
  destruct (retry_loop (Z.to_nat (retries + 1)) url timeout retries backoff 0 w)
    as [[res0 w0]|] eqn:Hloop.
  - intros [= <- <-].
    destruct (retry_loop_shape _ 0%Z _ _ _ ltac:(lia)
                (fun k Hk => Hplain k ltac:(lia)) Hloop)
      as (n & Hn & Hf & Hres).
    exists n. split; [lia | split; [exact Hf | exact Hres]].
  - now destruct (retry_loop_has_fuel url timeout retries backoff
                    (Z.to_nat (retries + 1)) 0%Z w ltac:(lia)).
Qed.




End FetcherExits.


Lemma fetch_with_negative_budget_witness :
  let w := Examples.world_of Examples.good_server [] in
  download_with_progress "u" 30 (-1) (15 # 10) w = (Ok None, w).
Proof.
  intros w. apply fetch_with_negative_budget. lia.
Defined.


(* ===================================================================== *)
(** ** What the statements after the download keep *)
(* ===================================================================== *)

Section Keeps.

Variable R : world -> world -> Prop.
Hypothesis R_refl : forall w, R w w.
Hypothesis R_trans : forall w1 w2 w3, R w1 w2 -> R w2 w3 -> R w1 w3.
Hypothesis R_print : forall w m, R w (add_event w (Printed m)).
Hypothesis R_root : forall w root, R w (set_root w root).

Lemma keeps_ret {A} (a : A) : keeps R (ret a).
Proof. intros w r w' [= <- <-]. apply R_refl. Qed.

Lemma keeps_raise {A} e : keeps R (@raise A e).
Proof. intros w r w' [= <- <-]. apply R_refl. Qed.

Lemma keeps_lift {A} (x : result A) : keeps R (lift x).
Proof. intros w r w' [= <- <-]. apply R_refl. Qed.

Lemma keeps_bind {A B} (m : M A) (k : A -> M B) :
  keeps R m -> (forall a, keeps R (k a)) -> keeps R (bind m k).
Proof.
  intros Hm Hk w r w'. rewrite bind_run.
  destruct (m w) as [[a|e] w1] eqn:E.
  - intros Hrun. exact (R_trans _ _ _ (Hm _ _ _ E) (Hk a _ _ _ Hrun)).
  - intros [= <- <-]. exact (Hm _ _ _ E).
Qed.

Lemma keeps_try_except {A} caught (body : M A) handler :
  keeps R body -> (forall e, keeps R (handler e)) ->
  keeps R (try_except caught body handler).
Proof.
  intros Hb Hh w r w'. rewrite try_except_run.
  destruct (body w) as [[a|e] w1] eqn:E.
  - intros [= <- <-]. exact (Hb _ _ _ E).
  - destruct (caught e).
    + intros Hrun. exact (R_trans _ _ _ (Hb _ _ _ E) (Hh e _ _ _ Hrun)).
    + intros [= <- <-]. exact (Hb _ _ _ E).
Qed.

Lemma keeps_try_finally {A} (body : M A) final :
  keeps R body -> keeps R final -> keeps R (try_finally body final).
Proof.
  intros Hb Hf w r w'. unfold try_finally.
  destruct (body w) as [rb w1] eqn:E.
  destruct (final w1) as [[[]|e] w2] eqn:F; intros [= <- <-];
    exact (R_trans _ _ _ (Hb _ _ _ E) (Hf _ _ _ F)).
Qed.

Lemma keeps_for_each {A} (items : list A) body :
  (forall x, keeps R (body x)) -> keeps R (for_each items body).
Proof.
  intros Hb. induction items as [|x items IH]; cbn [for_each].
  - apply keeps_ret.
  - apply keeps_bind; auto.
Qed.

Lemma keeps_if {A} (c : bool) (a b : M A) :
  keeps R a -> keeps R b -> keeps R (if c then a else b).
Proof. now destruct c. Qed.

Lemma keeps_print m : keeps R (print m).
Proof. intros w r w' [= <- <-]. apply R_print. Qed.

Lemma keeps_now : keeps R now.
Proof. intros w r w' [= <- <-]. apply R_refl. Qed.

Lemma keeps_fs_call f : keeps R (fs_call f).
Proof.
  intros w r w'. rewrite fs_call_run.
  destruct (f (w_root w) (w_cwd w)); intros [= <- <-];
    [apply R_root | apply R_refl].
Qed.

Lemma keeps_fs_read {A} (f : FS.node -> FS.path -> A) : keeps R (fs_read f).
Proof. intros w r w' [= <- <-]. apply R_refl. Qed.

Lemma keeps_os_makedirs s : keeps R (os_makedirs s).
Proof.
  intros w r w'. unfold os_makedirs.
  destruct (FS.makedirs (w_root w) (w_cwd w) s). intros [= <- <-].
  apply R_root.
Qed.

Lemma keeps_os_listdir s : keeps R (os_listdir s).
Proof. intros w r w' [= <- <-]. apply R_refl. Qed.

Lemma keeps_zip_open zip_ref name : keeps R (zip_open zip_ref name).
Proof.
  unfold zip_open. destruct (getinfo zip_ref name) as [m|];
    [destruct (m_body m)|]; auto using keeps_ret, keeps_raise.
Qed.

Lemma keeps_zip_read source : keeps R (zip_read source).
Proof. destruct source; cbn; auto using keeps_ret, keeps_raise. Qed.

Lemma keeps_zipfile zip_content : keeps R (zipfile_ZipFile zip_content).
Proof.
  destruct zip_content as [content|]; cbn [zipfile_ZipFile].
  - intros w r w' [= <- <-]. apply R_refl.
  - apply keeps_raise.
Qed.

Local Hint Resolve keeps_ret keeps_raise keeps_lift keeps_bind
  keeps_try_except keeps_try_finally keeps_for_each keeps_if keeps_print
  keeps_now keeps_fs_call keeps_fs_read keeps_os_makedirs keeps_os_listdir
  keeps_zip_open keeps_zip_read keeps_zipfile : core.

Lemma keeps_extract_one zip_ref temp_dir folder_prefix file :
  keeps R (extract_one zip_ref temp_dir folder_prefix file).
Proof. unfold extract_one, extract_body, write_file. auto 10. Qed.

Lemma keeps_move_item temp_dir output_dir item :
  keeps R (move_item temp_dir output_dir item).
Proof.
  unfold move_item, remove_existing, os_path_exists, os_path_isdir,
    os_unlink, shutil_rmtree_ignore_errors, shutil_move.
  auto 10.
Qed.

Lemma keeps_cleanup temp_dir : keeps R (cleanup temp_dir).
Proof.
  unfold cleanup, os_path_exists, shutil_rmtree_ignore_errors. auto 10.
Qed.

(** The Staged Materializer. *)
Lemma keeps_materializer zip_ref target_files folder_prefix output_dir :
  keeps R (extract_to_temp_and_move zip_ref target_files folder_prefix
             output_dir).
Proof.
  unfold extract_to_temp_and_move, extract_phase, move_phase.
  auto 12 using keeps_extract_one, keeps_move_item, keeps_cleanup.
Qed.

(** The statements of the Orchestrator after the download. *)
Lemma keeps_after_download c output_dir zip_content :
  keeps R
    (print MsgPreparing ;;
     zip_ref <- zipfile_ZipFile zip_content ;;
     target_files <-
       lift (archive_filter zip_ref (folder_path c)
               (folder_prefix_of (repo c) (branch c) (folder_path c))) ;;
     extract_to_temp_and_move zip_ref target_files
       (folder_prefix_of (repo c) (branch c) (folder_path c)) output_dir ;;
     print (MsgSuccess output_dir) ;;
     ret true)%py.
Proof. auto 12 using keeps_materializer. Qed.

End Keeps.

Section Offline.

Lemma offline_refl w : offline w w.
Proof. reflexivity. Qed.

Lemma offline_trans w1 w2 w3 : offline w1 w2 -> offline w2 w3 -> offline w1 w3.
Proof. unfold offline. congruence. Qed.

Lemma offline_print w m : offline w (add_event w (Printed m)).
Proof. unfold offline. rewrite activity_add_event. apply app_nil_r. Qed.

Lemma offline_root w root : offline w (set_root w root).
Proof. reflexivity. Qed.

End Offline.

(* ===================================================================== *)
(** ** Orchestrator: every run *)
(* ===================================================================== *)

Section EveryRun.

Lemma default_retries_nonneg : (0 <= default_retries)%Z.
Proof. discriminate. Qed.

Lemma default_waits k :
  (1 <= k <= default_retries)%Z -> plain_wait default_backoff k = true.
Proof.
  unfold default_retries. intros Hk.
  assert (Hcases : k = 1%Z \/ k = 2%Z \/ k = 3%Z) by lia.
  destruct Hcases as [-> | [-> | ->]]; reflexivity.
Qed.

Lemma fetched_offline w w' : fetched w w' [] -> offline w w'.
Proof. intros (H & _). unfold offline. now rewrite H, app_nil_r. Qed.

(** The two downloads of the inner [try], whatever the server does. *)
Lemma fetch_archive_shape c w res w' :
  fetch_archive c w = (res, w') ->
  exists n1,
    (n1 <= 3)%nat
    /\ w_root w' = w_root w /\ same_setting w w'
    /\ res <> Ok None
    /\ (activity w' = activity w ++ attempts_on (primary_url c) n1
        \/ exists n2,
             (n2 <= 3)%nat
             /\ activity w'
                = activity w ++ attempts_on (primary_url c) n1
                  ++ attempts_on (secondary_url c) n2).
Proof.
  unfold fetch_archive. rewrite try_except_run.
  destruct (download_with_progress (primary_url c) default_timeout
              default_retries default_backoff w) as [r1 w1] eqn:H1.
  destruct (download_shape _ _ _ _ _ _ _ default_retries_nonneg default_waits
              H1)
    as (n1 & Hn1 & (Hact1 & Hroot1 & Hset1) & Hres1).
  assert (Hdirect : (r1, w1) = (res, w') ->
            exists n1,
              (n1 <= 3)%nat
              /\ w_root w' = w_root w /\ same_setting w w'
              /\ res <> Ok None
              /\ (activity w' = activity w ++ attempts_on (primary_url c) n1
                  \/ exists n2,
                       (n2 <= 3)%nat
                       /\ activity w'
                          = activity w ++ attempts_on (primary_url c) n1
                            ++ attempts_on (secondary_url c) n2)).
  { intros [= <- <-]. exists n1.
    split; [unfold default_retries in Hn1; lia|].
    split; [exact Hroot1 | split; [exact Hset1 | split; [exact Hres1|]]].
    now left. }
  destruct r1 as [a|e]; [exact Hdirect|].
  destruct (is_Exception e); [clear Hdirect | exact Hdirect].
  rewrite bind_run. cbn [print].
  intros H2.
  destruct (download_shape _ _ _ _ _ _ _ default_retries_nonneg default_waits
              H2)
    as (n2 & Hn2 & (Hact2 & Hroot2 & Hset2) & Hres2).
  exists n1. split; [unfold default_retries in Hn1; lia|].
  split; [cbn [w_root add_event] in Hroot2; congruence|].
  split.
  { apply (same_setting_trans _ w1); [exact Hset1|].
    apply (same_setting_trans _ (add_event w1 (Printed MsgAlternative)));
      [apply same_setting_add_event | exact Hset2]. }
  split; [exact Hres2|].
  right. exists n2. split; [unfold default_retries in Hn2; lia|].
  rewrite Hact2, activity_add_event. cbn [is_activity].
  rewrite app_nil_r, Hact1. unfold attempts_on. now rewrite <- !app_assoc.
Qed.

Lemma attempts_on_requests url n :
  List.length (filter is_request (attempts_on url n)) = S n.
Proof.
  unfold attempts_on. rewrite filter_app, length_app, failed_attempts_requests.
  cbn. lia.
Qed.

(** The requests and waits of a run, whatever comes of it. *)
Lemma run_shape url output_dir w res w' :
  download_github_folder url output_dir w = (res, w') ->
  activity w' = activity w
  \/ exists c n1,
       parse_github_folder_url url = Ok c
       /\ (n1 <= 3)%nat
       /\ (activity w' = activity w ++ attempts_on (primary_url c) n1
           \/ exists n2,
                (n2 <= 3)%nat
                /\ activity w'
                   = activity w ++ attempts_on (primary_url c) n1
                     ++ attempts_on (secondary_url c) n2).
Proof.
  unfold download_github_folder. rewrite try_except_run.
  match goal with
  | |- context [match ?body w with _ => _ end] => set (run := body)
  end.
  assert (Hbody : forall r1 w1,
            run w = (r1, w1) ->
            activity w1 = activity w
            \/ exists c n1,
                 parse_github_folder_url url = Ok c
                 /\ (n1 <= 3)%nat
                 /\ (activity w1 = activity w ++ attempts_on (primary_url c) n1
                     \/ exists n2,
                          (n2 <= 3)%nat
                          /\ activity w1
                             = activity w ++ attempts_on (primary_url c) n1
                               ++ attempts_on (secondary_url c) n2)).
  { subst run. intros r1 w1. rewrite bind_run. unfold lift at 1.
    destruct (parse_github_folder_url url) as [c|e] eqn:Hparse;
      [|intros [= <- <-]; now left].
    rewrite bind_run. cbn [print]. rewrite bind_run. cbn [print].
    fold (announced c w). rewrite bind_run.
    destruct (fetch_archive c (announced c w)) as [r2 w2] eqn:Hfetch.
    destruct (fetch_archive_shape _ _ _ _ Hfetch)
      as (n1 & Hn1 & _ & _ & _ & Hact).
    assert (Hann : activity (announced c w) = activity w).
    { unfold announced. rewrite !activity_add_event. cbn [is_activity].
      now rewrite !app_nil_r. }
    rewrite Hann in Hact.
    assert (Hshape : forall w3, activity w3 = activity w2 ->
              (n1 <= 3)%nat
              /\ (activity w3 = activity w ++ attempts_on (primary_url c) n1
                  \/ exists n2,
                       (n2 <= 3)%nat
                       /\ activity w3
                          = activity w ++ attempts_on (primary_url c) n1
                            ++ attempts_on (secondary_url c) n2)).
    { intros w3 ->. split; [exact Hn1 | exact Hact]. }
    destruct r2 as [zip_content|e].
    - intros Hrest. right. exists c, n1. split; [reflexivity|].
      apply Hshape.
      exact (keeps_after_download offline offline_refl offline_trans
               offline_print offline_root c _ zip_content _ _ _ Hrest).
    - intros [= <- <-]. right. exists c, n1. split; [reflexivity|].
      now apply Hshape. }
  intros Hrun.
  assert (Hact : activity w' = activity (snd (run w))).
  { destruct (run w) as [[b|e] w1]; [now injection Hrun as _ <-|].
    destruct (is_Exception e); [|now injection Hrun as _ <-].
    rewrite bind_run in Hrun. cbn [print ret] in Hrun.
    injection Hrun as _ <-. cbn [snd].
    rewrite activity_add_event. cbn [is_activity]. apply app_nil_r. }
  destruct (run w) as [r1 w1] eqn:Hrun1. cbn [snd] in Hact. rewrite Hact.
  exact (Hbody r1 w1 eq_refl).
Qed.

Lemma run_request_bound url output_dir w res w' :
  download_github_folder url output_dir w = (res, w') ->
  (requests_made w' <= requests_made w + 8)%nat.
Proof.
  intros Hrun. pose proof (run_shape _ _ _ _ _ Hrun) as Hshape.
  unfold requests_made.
  rewrite <- (filter_activity_requests (w_trace w')),
    <- (filter_activity_requests (w_trace w)).
  fold (activity w') (activity w).
  destruct Hshape as [->|(c & n1 & _ & Hn1 & [->|(n2 & Hn2 & ->)])].
  - lia.
  - rewrite filter_app, length_app, attempts_on_requests. lia.
  - rewrite !filter_app, !length_app, !attempts_on_requests. lia.
Qed.


End EveryRun.


(* ===================================================================== *)
(** ** Orchestrator: the ways a run ends *)
(* ===================================================================== *)

Section RunEndings.

Lemma not_Exception_interrupt e : is_Exception e = false -> e = KeyboardInterrupt.
Proof. now destruct e. Qed.

Lemma not_Exception_not_network e :
  is_Exception e = false -> is_network_error e = false.
Proof. now destruct e. Qed.

Lemma attempt_announced c w u k : attempt (announced c w) u k = attempt w u k.
Proof. unfold announced. now rewrite !attempt_add_printed. Qed.

Lemma activity_announced c w : activity (announced c w) = activity w.
Proof.
  unfold announced. rewrite !activity_add_event. cbn [is_activity].
  now rewrite !app_nil_r.
Qed.

(** The run up to the first download. *)
Lemma run_after_parse url output_dir w c :
  parse_github_folder_url url = Ok c ->
  download_github_folder url output_dir w
  = try_except is_Exception
      (zip_content <- fetch_archive c ;;
       print MsgPreparing ;;
       zip_ref <- zipfile_ZipFile zip_content ;;
       target_files <-
         lift (archive_filter zip_ref (folder_path c)
                 (folder_prefix_of (repo c) (branch c) (folder_path c))) ;;
       extract_to_temp_and_move zip_ref target_files
         (folder_prefix_of (repo c) (branch c) (folder_path c))
         (chosen_output_dir c output_dir) ;;
       print (MsgSuccess (chosen_output_dir c output_dir)) ;;
       ret true)%py
      (fun e => print (MsgError e) ;; ret false)%py
      (announced c w).
Proof.
  intros Hparse. unfold download_github_folder. rewrite !try_except_run.
  rewrite bind_run. unfold lift at 1. rewrite Hparse.
  rewrite bind_run. cbn [print]. rewrite bind_run. cbn [print].
  reflexivity.
Qed.

(** X11.  The locator that the pattern does not accept ends the run at
    once: the error line is printed, [False] is returned, no request is
    made and the file system is not touched. *)
Theorem invalid_locator_ends_the_run url output_dir w :
  Re.matches github_url_pattern (rstrip "/" url) = false ->
  download_github_folder url output_dir w
  = (Ok false,
     add_event w (Printed (MsgError (ValueError "Invalid GitHub URL")))).
Proof.
  intros Hre. unfold download_github_folder. rewrite try_except_run, bind_run.
  unfold lift, parse_github_folder_url. now rewrite Hre.
Qed.

Lemma invalid_locator_ends_the_run_witness :
  let w := Examples.world_of Examples.good_server Examples.widgets in
  exists w',
    download_github_folder "https://gitlab.com/acme/widgets" None w
    = (Ok false, w')
    /\ requests_made w' = 0%nat /\ w_root w' = Examples.root.
Proof.
  intros w. eexists. split.
  - exact (invalid_locator_ends_the_run "https://gitlab.com/acme/widgets"
             None w eq_refl).
  - split; reflexivity.
Defined.

(** X12.  What is no [Exception], a [KeyboardInterrupt], is caught
    nowhere: when it is raised by an attempt on the primary URL, after
    [n] attempts that met network failures, the run raises it to its
    caller; the secondary URL is not tried, nothing but the [n + 1]
    requests and the [n] waits has happened, and the file system is as it
    was. *)
Theorem interrupt_passes_through url output_dir w c n e :
  parse_github_folder_url url = Ok c ->
  (n <= 3)%nat ->
  (forall k, (k < n)%nat -> network_failure (attempt w (primary_url c) k)) ->
  attempt w (primary_url c) n = Fail e ->
  is_Exception e = false ->
  exists w',
    download_github_folder url output_dir w = (Raise e, w')
    /\ activity w' = activity w ++ attempts_on (primary_url c) n
    /\ w_root w' = w_root w.
Proof.
  intros Hparse Hn Hfail Hlast Hexc.
  destruct (download_stops (primary_url c) default_timeout default_retries
              default_backoff (announced c w) n e)
    as (w1 & Hrun & Hact & Hroot & _).
  - unfold default_retries. lia.
  - intros k Hk. apply default_waits_plain. lia.
  - intros k Hk. rewrite attempt_announced. now apply Hfail.
  - now rewrite attempt_announced.
  - now apply not_Exception_not_network.
  - exists w1. split; [|split].
    + rewrite (run_after_parse _ _ _ _ Hparse), try_except_run, bind_run.
      unfold fetch_archive. rewrite try_except_run, Hrun, Hexc.
      now rewrite Hexc.
    + now rewrite Hact, activity_announced.
    + exact Hroot.
Qed.

Lemma interrupt_passes_through_witness :
  let server (n : nat) (u : string) :=
    match n with
    | O => Fail SocketTimeout
    | _ => Fail KeyboardInterrupt
    end in
  let w := Examples.world_of server Examples.widgets in
  exists w',
    download_github_folder Examples.widgets_url (Some "out") w
    = (Raise KeyboardInterrupt, w')
    /\ requests_made w' = 2%nat
    /\ w_root w' = Examples.root.
Proof.
  intros server w.
  pose (c := Coordinates "acme" "widgets" "v2" "src/lib").
  assert (Hfail : forall k, (k < 1)%nat ->
                    network_failure (attempt w (primary_url c) k)).
  { intros [|k] Hk; [eexists; split; reflexivity | lia]. }
  destruct (interrupt_passes_through Examples.widgets_url (Some "out") w c 1
              KeyboardInterrupt eq_refl ltac:(lia) Hfail eq_refl eq_refl)
    as (w' & Hrun & Hact & Hroot).
  exists w'. split; [exact Hrun | split; [|exact Hroot]].
  unfold requests_made.
  rewrite <- (filter_activity_requests (w_trace w')). fold (activity w').
  rewrite Hact. reflexivity.
Defined.

(** A call that is answered after [n] failed attempts. *)
Lemma download_succeeds url timeout retries backoff w n chunks :
  (Z.of_nat n <= retries)%Z ->
  (forall k, (1 <= k <= n)%nat -> plain_wait backoff (Z.of_nat k) = true) ->
  (forall k, (k < n)%nat -> network_failure (attempt w url k)) ->
  attempt w url n = Respond chunks ->
  exists w',
    download_with_progress url timeout retries backoff w
    = (Ok (Some (BytesIO (String.concat "" chunks) 0)), w')
    /\ fetched w w'
         (failed_attempts url timeout backoff 0 n ++ [Requested url timeout]).
Proof.
  intros Hn Hplain Hfail Hok. unfold download_with_progress, retry_fuel.
  destruct (retry_loop_succeeds url timeout retries backoff n
              (Z.to_nat (retries + 1)) 0%Z w chunks)
    as (w' & Hrun & Hfetched); auto; try lia.
  rewrite Hrun. now exists w'.
Qed.

(** X13.  Where the archive comes from.  When the primary URL answers,
    after [n] failed attempts within the budget, its body is the archive
    and the secondary URL is never requested.  When the four attempts on
    the primary URL all meet network failures and the secondary URL
    answers after [m] failed attempts within the budget, the body of that
    answer is the archive, after four requests to the primary URL and
    [m + 1] to the secondary.  The file system is not touched. *)
Theorem archive_comes_from_one_url c w :
  (forall n chunks,
      (n <= 3)%nat ->
      (forall k, (k < n)%nat -> network_failure (attempt w (primary_url c) k)) ->
      attempt w (primary_url c) n = Respond chunks ->
      exists w',
        fetch_archive c w
        = (Ok (Some (BytesIO (String.concat "" chunks) 0)), w')
        /\ fetched w w' (attempts_on (primary_url c) n))
  /\ (forall m chunks,
         (m <= 3)%nat ->
         (forall k, (k < 4)%nat ->
                    network_failure (attempt w (primary_url c) k)) ->
         (forall k, (k < m)%nat ->
                    network_failure (attempt w (secondary_url c) (4 + k))) ->
         attempt w (secondary_url c) (4 + m) = Respond chunks ->
         exists w',
           fetch_archive c w
           = (Ok (Some (BytesIO (String.concat "" chunks) 0)), w')
           /\ fetched w w'
                (attempts_on (primary_url c) 3
                 ++ attempts_on (secondary_url c) m)).
Proof.
  split.
  - intros n chunks Hn Hfail Hok.
    destruct (download_succeeds (primary_url c) default_timeout
                default_retries default_backoff w n chunks)
      as (w' & Hrun & Hf); auto.
    { unfold default_retries. lia. }
    { intros k Hk. apply default_waits_plain. lia. }
    exists w'. split; [|exact Hf].
    unfold fetch_archive. now rewrite try_except_run, Hrun.
  - intros m chunks Hm Hprimary Hsecondary Hok.
    destruct (Hprimary 3%nat ltac:(lia)) as (e1 & He1 & Hnet1).
    destruct (download_exhausts (primary_url c) default_timeout default_retries
                default_backoff w 3 e1 default_budget default_waits_plain)
      as (w1 & Hrun1 & Hf1); auto.
    set (w2 := add_event w1 (Printed MsgAlternative)).
    assert (Hf2 : fetched w w2 (attempts_on (primary_url c) 3)).
    { rewrite <- (app_nil_r (attempts_on _ _)).
      apply (fetched_trans _ w1); [exact Hf1 | apply fetched_printed]. }
    assert (Hatt : forall k, attempt w2 (secondary_url c) k
                             = attempt w (secondary_url c) (4 + k)).
    { intros k. rewrite (attempt_fetched _ _ _ _ k Hf2).
      now rewrite attempts_on_requests. }
    destruct (download_succeeds (secondary_url c) default_timeout
                default_retries default_backoff w2 m chunks)
      as (w' & Hrun2 & Hf3).
    { unfold default_retries. lia. }
    { intros k Hk. apply default_waits_plain. lia. }
    { intros k Hk. rewrite Hatt. now apply Hsecondary. }
    { now rewrite Hatt. }
    exists w'. split.
    + unfold fetch_archive. rewrite try_except_run, Hrun1.
      rewrite (network_error_is_Exception e1 Hnet1), bind_run. cbn [print].
      exact Hrun2.
    + exact (fetched_trans _ _ _ _ _ Hf2 Hf3).
Qed.

Lemma archive_comes_from_one_url_witness :
  let c := Coordinates "acme" "widgets" "v2" "src/lib" in
  let w := Examples.world_of Examples.flaky_server Examples.widgets in
  exists w',
    fetch_archive c w = (Ok (Some (BytesIO "PKzip" 0)), w')
    /\ activity w' = attempts_on (primary_url c) 2.
Proof.
  intros c w.
  destruct (archive_comes_from_one_url c w) as [Hprimary _].
  assert (Hfail : forall k, (k < 2)%nat ->
                    network_failure (attempt w (primary_url c) k)).
  { intros [|[|k]] Hk; [eexists; split; reflexivity ..| lia]. }
  destruct (Hprimary 2%nat ["PK"; ""; "zip"] ltac:(lia) Hfail eq_refl)
    as (w' & Hrun & Hact & _).
  exists w'. split; [exact Hrun | exact Hact].
Defined.

End RunEndings.

(* ===================================================================== *)
(** ** Orchestrator: failures before and at the destination *)
(* ===================================================================== *)

Section RunFailures.

Lemma printed_add_event w m :
  printed (add_event w (Printed m)) = printed w ++ [m].
Proof.
  unfold printed, add_event. cbn [w_trace]. rewrite flat_map_app. cbn.
  reflexivity.
Qed.

(** X14.  An archive that cannot be opened, or that holds no member under
    the prefix, ends the run before anything is written: once the
    download has returned its bytes, if [zipfile.ZipFile] raises an
    [Exception], or if the selection is empty, the run prints the error,
    in the second case that the folder was not found, and returns
    [False]; no staging directory was made and the file system is as it
    was before the run. *)
Theorem run_fails_before_materializing url output_dir w c bio w2 :
  parse_github_folder_url url = Ok c ->
  fetch_archive c (announced c w) = (Ok (Some bio), w2) ->
  (forall e,
      w_unzip w (buf bio) = Raise e ->
      is_Exception e = true ->
      exists w',
        download_github_folder url output_dir w = (Ok false, w')
        /\ w_root w' = w_root w
        /\ printed w' = printed w2 ++ [MsgPreparing; MsgError e])
  /\ (forall zip_ref,
         w_unzip w (buf bio) = Ok zip_ref ->
         select_members zip_ref
           (folder_prefix_of (repo c) (branch c) (folder_path c)) = [] ->
         exists w',
           download_github_folder url output_dir w = (Ok false, w')
           /\ w_root w' = w_root w
           /\ printed w'
              = printed w2
                ++ [MsgPreparing; MsgError (not_found (folder_path c))]).
Proof.
  intros Hparse Hfetch.
  destruct (fetch_archive_shape _ _ _ _ Hfetch)
    as (_ & _ & Hroot & (_ & _ & _ & Hunzip) & _).
  cbn [w_root announced add_event] in Hroot.
  cbn [w_unzip announced add_event] in Hunzip.
  split.
  - intros e He Hexc.
    exists (add_event (add_event w2 (Printed MsgPreparing)) (Printed (MsgError e))).
    split; [|split].
    + rewrite (run_after_parse _ _ _ _ Hparse), try_except_run, bind_run, Hfetch.
      rewrite bind_run. cbn [print]. rewrite bind_run.
      unfold zipfile_ZipFile. cbn [w_unzip add_event].
      now rewrite Hunzip, He, Hexc.
    + exact Hroot.
    + rewrite !printed_add_event, <- app_assoc. reflexivity.
  - intros zip_ref Hzip Hempty.
    exists (add_event (add_event w2 (Printed MsgPreparing))
              (Printed (MsgError (not_found (folder_path c))))).
    split; [|split].
    + rewrite (run_after_parse _ _ _ _ Hparse), try_except_run, bind_run, Hfetch.
      rewrite bind_run. cbn [print]. rewrite bind_run.
      unfold zipfile_ZipFile. cbn [w_unzip add_event].
      rewrite Hunzip, Hzip, bind_run. unfold lift, archive_filter.
      now rewrite Hempty.
    + exact Hroot.
    + rewrite !printed_add_event, <- app_assoc. reflexivity.
Qed.

Lemma run_fails_before_materializing_witness :
  let w := Examples.world_of Examples.good_server Examples.widgets in
  exists w',
    download_github_folder "https://github.com/acme/widgets/tree/v2/docs"
      (Some "out") w = (Ok false, w')
    /\ w_root w' = Examples.root
    /\ In (MsgError (not_found "docs")) (printed w').
Proof.
  intros w.
  pose (c := Coordinates "acme" "widgets" "v2" "docs").
  pose (w2 := snd (fetch_archive c (announced c w))).
  destruct (run_fails_before_materializing
              "https://github.com/acme/widgets/tree/v2/docs" (Some "out") w c
              (BytesIO "PK" 0) w2 eq_refl eq_refl) as [_ Hnone].
  destruct (Hnone Examples.widgets eq_refl eq_refl)
    as (w' & Hrun & Hroot & Hprinted).
  exists w'. split; [exact Hrun | split; [exact Hroot|]].
  rewrite Hprinted. apply in_or_app. right. right. now left.
Defined.

Lemma always_raises_bind_l {A B} (m : M A) (k : A -> M B) :
  always_raises m -> always_raises (bind m k).
Proof.
  intros Hm w. destruct (Hm w) as (e & w' & H).
  exists e, w'. now rewrite bind_run, H.
Qed.

Lemma always_raises_bind_r {A B} (m : M A) (k : A -> M B) :
  (forall a, always_raises (k a)) -> always_raises (bind m k).
Proof.
  intros Hk w. rewrite bind_run.
  destruct (m w) as [[a|e] w1]; [apply Hk | now exists e, w1].
Qed.

(** Without a destination the Materializer raises: [os.makedirs] does not
    take the empty path. *)
Lemma materializer_needs_a_destination zip_ref target_files folder_prefix :
  always_raises
    (extract_to_temp_and_move zip_ref target_files folder_prefix "").
Proof.
  intros w. unfold extract_to_temp_and_move. rewrite bind_run. cbn [now].
  unfold try_finally.
  assert (Hbody : always_raises
            (extract_phase zip_ref target_files folder_prefix
               (staging_dir "" (w_clock w)) ;;
             move_phase (staging_dir "" (w_clock w)) "")%py).
  { apply always_raises_bind_r. intros [].
    unfold move_phase. apply always_raises_bind_r. intros [].
    apply always_raises_bind_l. intros w1.
    exists (OSError ENOENT ""), (set_root w1 (w_root w1)). reflexivity. }
  destruct (Hbody w) as (e & w1 & ->).
  destruct (cleanup (staging_dir "" (w_clock w)) w1) as [[[]|e'] w2];
    eauto.
Qed.

(** X15.  A destination that sanitizing leaves empty, the empty string or
    separators only, cannot be made: whatever the locator, the server
    and the archive, the run does not return [True]. *)
Theorem empty_destination_never_succeeds url output_dir w :
  sanitize_path output_dir = "" ->
  fst (download_github_folder url (Some output_dir) w) <> Ok true.
Proof.
  intros Hempty.
  destruct (parse_github_folder_url url) as [c|e] eqn:Hparse.
  - rewrite (run_after_parse _ _ _ _ Hparse), try_except_run.
    unfold chosen_output_dir. rewrite Hempty.
    match goal with
    | |- context [match ?body (announced c w) with _ => _ end] =>
        assert (Hbody : always_raises body)
    end.
    { apply always_raises_bind_r. intros zip_content.
      apply always_raises_bind_r. intros [].
      apply always_raises_bind_r. intros zip_ref.
      apply always_raises_bind_r. intros target_files.
      apply always_raises_bind_l.
      apply materializer_needs_a_destination. }
    destruct (Hbody (announced c w)) as (e & w1 & ->).
    destruct (is_Exception e); [|discriminate].
    rewrite bind_run. cbn [print ret fst]. discriminate.
  - unfold download_github_folder. rewrite try_except_run, bind_run.
    unfold lift. rewrite Hparse.
    destruct (is_Exception e); [|discriminate].
    rewrite bind_run. cbn [print ret fst]. discriminate.
Qed.

Lemma empty_destination_never_succeeds_witness :
  fst (download_github_folder Examples.widgets_url (Some "//")
         Examples.before) <> Ok true.
Proof.
  apply (empty_destination_never_succeeds Examples.widgets_url "//"
           Examples.before eq_refl).
Defined.

End RunFailures.

(* ===================================================================== *)
(** ** The command line: when it asks and how it ends *)
(* ===================================================================== *)

Section CommandLine.

Lemma lower_char_y c :
  lower_char c = "y"%char <-> c = "y"%char \/ c = "Y"%char.
Proof.
  split.
  - destruct c as [[] [] [] [] [] [] [] []]; intros H;
      try discriminate H; auto.
  - now intros [-> | ->].
Qed.

Lemma str_lower_y s : str_lower s = "y" <-> s = "y" \/ s = "Y".
Proof.
  split.
  - destruct s as [|c [|d s]]; cbn; try discriminate.
    intros [= H]. apply lower_char_y in H as [-> | ->]; auto.
  - now intros [-> | ->].
Qed.

Lemma main_without_prompt args typed w :
  asks args w = false ->
  main args typed w = run_and_exit args [LineTitle; LineRule] w.
Proof.
  unfold asks, main. destruct (a_output args) as [output|]; [|reflexivity].
  now intros ->.
Qed.

Lemma main_with_prompt args typed w :
  asks args w = true ->
  exists output,
    a_output args = Some output
    /\ main args typed w
       = match typed with
         | Raise e =>
             (Uncaught e,
              [LineTitle; LineRule; LineExists output; LinePrompt], w)
         | Ok line =>
             if negb (String.eqb (str_lower (strip whitespace line)) "y")
             then (Exit 0,
                   [LineTitle; LineRule; LineExists output; LinePrompt;
                    LineCancelled], w)
             else run_and_exit args
                    [LineTitle; LineRule; LineExists output; LinePrompt] w
         end.
Proof.
  unfold asks, main. destruct (a_output args) as [output|]; [|discriminate].
  intros ->. exists output. split; [reflexivity|].
  destruct typed; reflexivity.
Qed.

(** X16.  [main] asks only when an output directory is named, exists and
    [--force] is not given, and then only the answer [y] or [Y], with
    whitespace around it or not, lets the download go on: any other
    answer, [yes] and the empty line among them, ends the process with
    exit code 0 before any request is made, the file system and the rest
    of the world being as they were. *)
Theorem main_goes_on_only_after_y args line w :
  asks args w = true ->
  let answer := strip whitespace line in
  exists output,
    a_output args = Some output
    /\ (answer = "y" \/ answer = "Y" ->
        main args (Ok line) w
        = run_and_exit args
            [LineTitle; LineRule; LineExists output; LinePrompt] w)
    /\ (answer <> "y" -> answer <> "Y" ->
        main args (Ok line) w
        = (Exit 0,
           [LineTitle; LineRule; LineExists output; LinePrompt; LineCancelled],
           w)).
Proof.
  intros Hasks answer.
  destruct (main_with_prompt args (Ok line) w Hasks) as (output & Hout & Hmain).
  exists output. split; [exact Hout|]. rewrite Hmain. fold answer. split.
  - intros Hy. apply str_lower_y in Hy. now rewrite Hy.
  - intros Hn1 Hn2.
    destruct (String.eqb_spec (str_lower answer) "y") as [Hy|_];
      [|reflexivity].
    apply str_lower_y in Hy as [Hy|Hy]; contradiction.
Qed.

Lemma main_goes_on_only_after_y_witness :
  let args := Arguments Examples.widgets_url (Some "out") 60 3 false in
  main args (Ok "yes") Examples.before
  = (Exit 0,
     [LineTitle; LineRule; LineExists "out"; LinePrompt; LineCancelled],
     Examples.before)
  /\ main args (Ok " Y ") Examples.before
     = run_and_exit args [LineTitle; LineRule; LineExists "out"; LinePrompt]
         Examples.before.
Proof.
  intros args.
  destruct (main_goes_on_only_after_y args "yes" Examples.before eq_refl)
    as (o1 & Ho1 & _ & Hno).
  destruct (main_goes_on_only_after_y args " Y " Examples.before eq_refl)
    as (o2 & Ho2 & Hyes & _).
  injection Ho1 as <-. injection Ho2 as <-.
  split.
  - apply Hno; discriminate.
  - apply Hyes. now right.
Defined.

Lemma run_raises_interrupt_only url output_dir w e w' :
  download_github_folder url output_dir w = (Raise e, w') ->
  e = KeyboardInterrupt.
Proof.
  unfold download_github_folder. rewrite try_except_run.
  match goal with
  | |- context [match ?body w with _ => _ end] => destruct (body w) as [[b|e0] w1]
  end; [discriminate|].
  destruct (is_Exception e0) eqn:He.
  - rewrite bind_run. cbn [print ret]. discriminate.
  - intros [= <- _]. now apply not_Exception_interrupt.
Qed.

(** What the [try] at the end of [main] comes to. *)
Lemma run_and_exit_cases args lines w :
  exists w',
    (download_github_folder (a_url args) (a_output args) w = (Ok true, w')
     /\ run_and_exit args lines w = (Exit 0, lines, w'))
    \/ (download_github_folder (a_url args) (a_output args) w = (Ok false, w')
        /\ run_and_exit args lines w = (Exit 1, lines, w'))
    \/ (download_github_folder (a_url args) (a_output args) w
        = (Raise KeyboardInterrupt, w')
        /\ run_and_exit args lines w
           = (Exit 1, lines ++ [LineInterrupted], w')).
Proof.
  unfold run_and_exit.
  destruct (download_github_folder (a_url args) (a_output args) w)
    as [[[]|e] w'] eqn:Hrun; exists w'.
  - now left.
  - right. now left.
  - right. right. rewrite (run_raises_interrupt_only _ _ _ _ _ Hrun). now split.
Qed.

(** X17.  Once [input] has returned, or was not called, the process ends
    with exit code 0 or 1 and with no exception: 0 when the Orchestrator
    returned [True], and also when the overwrite was declined; 1 when it
    returned [False], and 1 with the line that the download was cancelled
    when it was interrupted. *)
Theorem main_exit_code args line w :
  exists lines w',
    (main args (Ok line) w = (Exit 0, lines, w')
     /\ (download_github_folder (a_url args) (a_output args) w = (Ok true, w')
         \/ (asks args w = true /\ In LineCancelled lines /\ w' = w)))
    \/ (main args (Ok line) w = (Exit 1, lines, w')
        /\ (download_github_folder (a_url args) (a_output args) w
            = (Ok false, w')
            \/ (download_github_folder (a_url args) (a_output args) w
                = (Raise KeyboardInterrupt, w')
                /\ In LineInterrupted lines))).
Proof.
  assert (Hrun : forall lines0,
            exists lines w',
              (run_and_exit args lines0 w = (Exit 0, lines, w')
               /\ download_github_folder (a_url args) (a_output args) w
                  = (Ok true, w'))
              \/ (run_and_exit args lines0 w = (Exit 1, lines, w')
                  /\ (download_github_folder (a_url args) (a_output args) w
                      = (Ok false, w')
                      \/ (download_github_folder (a_url args) (a_output args) w
                          = (Raise KeyboardInterrupt, w')
                          /\ In LineInterrupted lines)))).
  { intros lines0.
    destruct (run_and_exit_cases args lines0 w)
      as (w' & [[Hd Hr] | [[Hd Hr] | [Hd Hr]]]).
    - exists lines0, w'. now left.
    - exists lines0, w'. right. split; [exact Hr | now left].
    - exists (lines0 ++ [LineInterrupted]), w'. right. split; [exact Hr|].
      right. split; [exact Hd|]. apply in_or_app. right. now left. }
  destruct (asks args w) eqn:Hasks.
  - destruct (main_with_prompt args (Ok line) w Hasks) as (output & _ & ->).
    destruct (negb (String.eqb (str_lower (strip whitespace line)) "y")).
    + eexists _, w. left. split; [reflexivity|]. right.
      split; [reflexivity | split; [|reflexivity]]. cbn. tauto.
    + destruct (Hrun [LineTitle; LineRule; LineExists output; LinePrompt])
        as (lines & w' & [[Hr Hd] | [Hr Hd]]); exists lines, w'.
      * left. split; [exact Hr | now left].
      * now right.
  - rewrite (main_without_prompt _ _ _ Hasks).
    destruct (Hrun [LineTitle; LineRule])
      as (lines & w' & [[Hr Hd] | [Hr Hd]]); exists lines, w'.
    + left. split; [exact Hr | now left].
    + now right.
Qed.

Lemma attempts_on_timeout url n :
  Forall (fun ev => forall u t, ev = Requested u t -> t = default_timeout)
    (attempts_on url n).
Proof.
  unfold attempts_on, failed_attempts. apply Forall_app. split.
  - generalize (seq 1 n). intros ks. induction ks as [|k ks IH];
      [constructor|].
    cbn [flat_map app]. constructor; [now intros u t [= _ <-]|].
    constructor; [intros u t; discriminate | exact IH].
  - constructor; [now intros u t [= _ <-] | constructor].
Qed.

(** X18.  The options [--timeout] and [--retries] do not reach the
    Fetcher: whatever the arguments, the answer to the prompt, the
    server and the file system are, every request of the process is made
    with the timeout 30, and the process makes no more than eight
    requests. *)
Theorem main_ignores_timeout_and_retries args typed w how lines w' :
  main args typed w = (how, lines, w') ->
  (requests_made w' <= requests_made w + 8)%nat
  /\ exists done,
       activity w' = activity w ++ done
       /\ Forall (fun ev => forall u t, ev = Requested u t ->
                                        t = default_timeout) done.
Proof.
  assert (Hdone : forall res w1,
            download_github_folder (a_url args) (a_output args) w = (res, w1) ->
            (requests_made w1 <= requests_made w + 8)%nat
            /\ exists done,
                 activity w1 = activity w ++ done
                 /\ Forall (fun ev => forall u t, ev = Requested u t ->
                                                  t = default_timeout) done).
  { intros res w1 Hrun. split; [apply (run_request_bound _ _ _ _ _ Hrun)|].
    destruct (run_shape _ _ _ _ _ Hrun)
      as [->|(c & n1 & _ & _ & [->|(n2 & _ & ->)])].
    - exists []. now rewrite app_nil_r.
    - eexists. split; [reflexivity | apply attempts_on_timeout].
    - eexists. split; [reflexivity|].
      apply Forall_app. split; apply attempts_on_timeout. }
  assert (Hsame : (requests_made w <= requests_made w + 8)%nat
                  /\ exists done,
                       activity w = activity w ++ done
                       /\ Forall (fun ev => forall u t, ev = Requested u t ->
                                                        t = default_timeout)
                            done).
  { split; [lia|]. exists []. now rewrite app_nil_r. }
  assert (Hrun : forall lines0,
            run_and_exit args lines0 w = (how, lines, w') ->
            (requests_made w' <= requests_made w + 8)%nat
            /\ exists done,
                 activity w' = activity w ++ done
                 /\ Forall (fun ev => forall u t, ev = Requested u t ->
                                                  t = default_timeout) done).
  { intros lines0. unfold run_and_exit.
    destruct (download_github_folder (a_url args) (a_output args) w)
      as [[b|e] w1] eqn:Hd.
    - intros [= _ _ <-]. exact (Hdone _ _ eq_refl).
    - destruct e; intros [= _ _ <-]; exact (Hdone _ _ eq_refl). }
  destruct (asks args w) eqn:Hasks.
  - destruct (main_with_prompt args typed w Hasks) as (output & _ & ->).
    destruct typed as [line|e]; [|now intros [= _ _ <-]].
    destruct (negb (String.eqb (str_lower (strip whitespace line)) "y"));
      [now intros [= _ _ <-] | apply Hrun].
  - rewrite (main_without_prompt _ _ _ Hasks). apply Hrun.
Qed.

End CommandLine.

Lemma main_ignores_timeout_and_retries_witness :
  let args := Arguments Examples.widgets_url (Some "new") 5 0 false in
  let w := Examples.world_of Examples.dead_server Examples.widgets in
  exists how lines w',
    main args (Ok "") w = (how, lines, w')
    /\ (requests_made w' <= requests_made w + 8)%nat.
Proof.
  intros args w.
  destruct (main args (Ok "") w) as [[how lines] w'] eqn:Hmain.
  exists how, lines, w'. split; [reflexivity|].
  exact (proj1 (main_ignores_timeout_and_retries _ _ _ _ _ _ Hmain)).
Defined.

(* ===================================================================== *)
(** ** The listing of a directory under which entries are made *)
(* ===================================================================== *)

Section Listings.
Import FS FSFacts PathFacts ApartFacts MakedirsFacts.

Lemma assoc_put_keys k v es :
  grows_by k (map fst es) (map fst (assoc_put k v es)).
Proof.
  induction es as [|[k' v'] es IH]; cbn [assoc_put map fst].
  - right. now split.
  - destruct (String.eqb_spec k k') as [->|Hne]; [now left|].
    cbn [map fst]. destruct IH as [-> | [Hnot ->]]; [now left|].
    right. split; [|reflexivity]. intros [E|Hin]; [now apply Hne | contradiction].
Qed.

Lemma grows_by_refl h names : grows_by h names names.
Proof. now left. Qed.

Lemma grows_by_trans h a b c :
  grows_by h a b -> grows_by h b c -> grows_by h a c.
Proof.
  intros [-> | [Ha ->]] [-> | [Hb ->]]; try (now left); try (now right).
  elim Hb. apply in_or_app. right. now left.
Qed.

Lemma grows_by_nodup h a b : grows_by h a b -> NoDup a -> NoDup b.
Proof.
  intros [-> | [Ha ->]] Hnd; [exact Hnd|].
  apply NoDup_app; [exact Hnd | repeat constructor; intros [] | ].
  intros x Hx [<-|[]]. contradiction.
Qed.

Lemma grows_by_forall (P : string -> Prop) h a b :
  grows_by h a b -> P h -> Forall P a -> Forall P b.
Proof.
  intros [-> | [Ha ->]] Hh Hall; [exact Hall|].
  apply Forall_app. split; [exact Hall | now repeat constructor].
Qed.

Lemma listing_grows_refl p h root : listing_grows p h root root.
Proof. intros es Hes. exists es. split; [exact Hes | apply grows_by_refl]. Qed.

Lemma listing_grows_trans p h r1 r2 r3 :
  listing_grows p h r1 r2 -> listing_grows p h r2 r3 -> listing_grows p h r1 r3.
Proof.
  intros H12 H23 es Hes.
  destruct (H12 es Hes) as (es2 & Hes2 & Hg2).
  destruct (H23 es2 Hes2) as (es3 & Hes3 & Hg3).
  exists es3. split; [exact Hes3 | exact (grows_by_trans _ _ _ _ Hg2 Hg3)].
Qed.

(** An entry set below the child [h] of a directory adds [h] to the
    listing of the directory, if it was not there. *)
Lemma update_grows p : forall h r v root root',
  update (p ++ h :: r) (Some v) root = Some root' ->
  listing_grows p h root root'.
Proof.
  induction p as [|a p IH]; intros h r v root root' Hu es Hes.
  - cbn [lookup] in Hes. injection Hes as ->. cbn [app update] in Hu.
    destruct r as [|s r].
    + injection Hu as <-. eexists. split; [reflexivity|].
      apply assoc_put_keys.
    + destruct (assoc h es) as [child|]; [|discriminate].
      destruct (update (s :: r) (Some v) child) as [child'|]; [|discriminate].
      injection Hu as <-. eexists. split; [reflexivity|].
      apply assoc_put_keys.
  - cbn [lookup] in Hes. destruct root as [data|es0]; [discriminate|].
    destruct (assoc a es0) as [child|] eqn:Ha; [|discriminate].
    cbn [app update] in Hu. rewrite Ha in Hu.
    destruct (p ++ h :: r) as [|x l] eqn:E; [now destruct p|].
    rewrite <- E in Hu.
    destruct (update (p ++ h :: r) (Some v) child) as [child'|] eqn:Hc;
      [|discriminate].
    injection Hu as <-.
    destruct (IH h r v child child' Hc es Hes) as (es' & Hes' & Hg).
    exists es'. split; [|exact Hg].
    cbn [lookup]. now rewrite assoc_put_same.
Qed.

(** Making directories below the child [h] likewise. *)
Lemma makedirs_from_grows p h segs : forall root cur root' pre,
  forallb name_ok segs = true ->
  cur = p ++ h :: pre ->
  makedirs_from root cur segs = (true, root') ->
  listing_grows p h root root'.
Proof.
  induction segs as [|s segs IH]; intros root cur root' pre Hsegs Hcur;
    cbn [makedirs_from].
  - intros [= <-]. apply listing_grows_refl.
  - cbn [forallb] in Hsegs. apply andb_true_iff in Hsegs as [Hs Hsegs].
    destruct (name_ok_proper s Hs) as (-> & -> & _).
    assert (Hnext : cur ++ [s] = p ++ h :: (pre ++ [s])).
    { subst cur. now rewrite <- app_assoc. }
    destruct (lookup (cur ++ [s]) root) as [[data|es]|] eqn:Hl.
    + discriminate.
    + now apply (IH root (cur ++ [s]) root' (pre ++ [s])).
    + destruct (update (cur ++ [s]) (Some (Dir [])) root) as [root1|] eqn:Hu;
        [|discriminate].
      intros Hrec. apply (listing_grows_trans p h root root1 root').
      * rewrite Hnext in Hu. exact (update_grows p h (pre ++ [s]) _ _ _ Hu).
      * now apply (IH root1 (cur ++ [s]) root' (pre ++ [s])).
Qed.

Lemma makedirs_from_grows_top p segs : forall root root',
  forallb name_ok segs = true ->
  makedirs_from root p segs = (true, root') ->
  listing_grows p (hd "" segs) root root'.
Proof.
  destruct segs as [|h segs]; intros root root' Hsegs; cbn [makedirs_from].
  - intros [= <-]. apply listing_grows_refl.
  - cbn [forallb hd] in *. apply andb_true_iff in Hsegs as [Hh Hsegs].
    destruct (name_ok_proper h Hh) as (-> & -> & _).
    destruct (lookup (p ++ [h]) root) as [[data|es]|] eqn:Hl.
    + discriminate.
    + now apply (makedirs_from_grows p h segs root (p ++ [h]) root' []).
    + destruct (update (p ++ [h]) (Some (Dir [])) root) as [root1|] eqn:Hu;
        [|discriminate].
      intros Hrec. apply (listing_grows_trans p h root root1 root').
      * exact (update_grows p h [] _ _ _ Hu).
      * now apply (makedirs_from_grows p h segs root1 (p ++ [h]) root' []).
Qed.

End Listings.

(* ===================================================================== *)
(** ** Staged Materializer: one member *)
(* ===================================================================== *)

Section WritingAFile.

Lemma write_file_run s data w :
  write_file s data w
  = match FS.write_file (w_root w) (w_cwd w) s data with
    | Ok root' => (Ok tt, set_root w root')
    | Raise e => (Raise e, w)
    end.
Proof. apply fs_call_run. Qed.

End WritingAFile.

Section OneMember.
Import FS FSFacts PathFacts ApartFacts MakedirsFacts.

Lemma join_clean_path a rel :
  clean_relative a = true -> clean_relative rel = true ->
  OsPath.join a rel = (a ++ String "/" rel)%string
  /\ split "/" (OsPath.join a rel) = split "/" a ++ split "/" rel
  /\ clean_relative (OsPath.join a rel) = true.
Proof.
  intros Ha Hrel.
  assert (Hjoin : OsPath.join a rel = (a ++ String "/" rel)%string).
  { unfold OsPath.join.
    destruct (clean_first rel Hrel) as (_ & -> & _).
    destruct (clean_first a Ha) as (Hne & _ & Hend).
    unfold OsPath.sep. rewrite Hend.
    destruct (String.eqb_spec a ""); [contradiction | reflexivity]. }
  assert (Hsplit : split "/" (OsPath.join a rel) = split "/" a ++ split "/" rel)
    by (now rewrite Hjoin, split_app_sep).
  repeat split; auto.
  unfold clean_relative in *. now rewrite Hsplit, forallb_app, Ha, Hrel.
Qed.

(** The directory a member is written into. *)
Lemma dirname_join_clean a rel :
  clean_relative a = true -> clean_relative rel = true ->
  clean_relative (OsPath.dirname (OsPath.join a rel)) = true
  /\ split "/" (OsPath.dirname (OsPath.join a rel))
     = split "/" a ++ removelast (split "/" rel).
Proof.
  intros Ha Hrel.
  destruct (join_clean_path a rel Ha Hrel) as (_ & Hsplit & Hclean).
  destruct (dirname_clean _ Hclean) as (parent & Hparent & Hdir).
  assert (Hne : split "/" rel <> []) by apply split_nonempty.
  rewrite Hsplit, (app_removelast_last "" Hne), app_assoc in Hparent.
  apply app_inj_tail in Hparent as [Hparent _].
  destruct parent as [|x parent].
  - destruct (split "/" a) eqn:E; [now destruct (split_nonempty "/" a)|].
    discriminate.
  - destruct Hdir as [Hc Hs]. split; [exact Hc | now rewrite Hs].
Qed.

(** Directories that are there are entered and left as they are. *)
Lemma makedirs_from_existing segs : forall root cur more,
  forallb name_ok segs = true ->
  is_dir root (cur ++ segs) = true ->
  makedirs_from root cur (segs ++ more) = makedirs_from root (cur ++ segs) more.
Proof.
  induction segs as [|s segs IH]; intros root cur more Hsegs Hdir.
  - now rewrite app_nil_r.
  - cbn [app makedirs_from forallb] in *.
    apply andb_true_iff in Hsegs as [Hs Hsegs].
    destruct (name_ok_proper s Hs) as (-> & -> & _).
    replace (cur ++ s :: segs) with ((cur ++ [s]) ++ segs) in *
      by now rewrite <- app_assoc.
    assert (Hnext : is_dir root (cur ++ [s]) = true).
    { apply (is_dir_prefix _ ((cur ++ [s]) ++ segs)); [apply is_prefix_app|].
      exact Hdir. }
    unfold is_dir in Hnext.
    destruct (lookup (cur ++ [s]) root) as [[data|es]|]; try discriminate.
    now apply IH.
Qed.

(** With no file in the way, the directories are made. *)
Lemma makedirs_from_total segs : forall root cur,
  forallb name_ok segs = true ->
  is_dir root cur = true ->
  (forall k, (0 < k <= List.length segs)%nat ->
             is_file root (cur ++ firstn k segs) = false) ->
  exists root', makedirs_from root cur segs = (true, root').
Proof.
  induction segs as [|s segs IH]; intros root cur Hsegs Hcur Hfree.
  - now exists root.
  - cbn [makedirs_from forallb] in *.
    apply andb_true_iff in Hsegs as [Hs Hsegs].
    destruct (name_ok_proper s Hs) as (-> & -> & _).
    assert (Hshift : forall root1,
              (forall r, r <> [] ->
                         is_file root1 ((cur ++ [s]) ++ r)
                         = is_file root (cur ++ s :: r)
                         \/ is_file root1 ((cur ++ [s]) ++ r) = false) ->
              forall k, (0 < k <= List.length segs)%nat ->
                        is_file root1 ((cur ++ [s]) ++ firstn k segs) = false).
    { intros root1 Hsame k Hk.
      assert (Hr : firstn k segs <> []).
      { destruct k; [lia|]. destruct segs; [cbn in Hk; lia | discriminate]. }
      destruct (Hsame _ Hr) as [-> | ->]; [|reflexivity].
      apply (Hfree (S k)). cbn [List.length]. lia. }
    destruct (lookup (cur ++ [s]) root) as [[data|es]|] eqn:Hnext.
    + specialize (Hfree 1%nat ltac:(cbn [List.length]; lia)).
      cbn [firstn] in Hfree. unfold is_file in Hfree.
      now rewrite Hnext in Hfree.
    + apply IH; [exact Hsegs | unfold is_dir; now rewrite Hnext|].
      apply Hshift. intros r _. left. now rewrite <- app_assoc.
    + destruct (update_succeeds cur s (Some (Dir [])) root Hcur) as [root1 Hu].
      rewrite Hu. apply IH; [exact Hsegs| |].
      * unfold is_dir. now rewrite (lookup_update_same _ _ _ _ Hu).
      * apply Hshift. intros r Hr. right. unfold is_file.
        rewrite (lookup_update_below _ r _ _ _ Hu).
        destruct r; [contradiction | reflexivity].
Qed.

Lemma sanitize_path_nonempty s : sanitize_path s <> "" -> s <> "".
Proof. intros H ->. now apply H. Qed.

Lemma incomparable_below p q r :
  is_prefix q (p ++ r) = false -> is_prefix q p = false.
Proof.
  intros H. destruct (is_prefix q p) eqn:E; [|reflexivity].
  now rewrite (is_prefix_trans _ _ _ E (is_prefix_app p r)) in H.
Qed.

(** A member whose path below the prefix, sanitized, is a clean relative
    path with nothing in its way is written to that path below the
    staging directory, through directories made as needed; what lies
    neither on that path nor under it is left as it is. *)
Lemma extract_body_stages zip_ref temp_dir folder_prefix file rel m data w :
  clean_relative temp_dir = true ->
  clean_relative rel = true ->
  sanitize_path (relative_to folder_prefix file) = rel ->
  is_dir (w_root w) (location w temp_dir) = true ->
  getinfo zip_ref file = Some m ->
  m_body m = Stored data ->
  way_is_free (w_root w) (location w temp_dir) (split "/" rel) ->
  exists root',
    extract_body zip_ref temp_dir folder_prefix file w
    = (Ok tt, set_root w root')
    /\ lookup (location w temp_dir ++ split "/" rel) root' = Some (File data)
    /\ is_dir root' (location w temp_dir) = true
    /\ (forall q,
           is_prefix q (location w temp_dir ++ split "/" rel) = false ->
           is_prefix (location w temp_dir ++ split "/" rel) q = false ->
           lookup q root' = lookup q (w_root w))
    /\ (forall q,
           is_prefix q (location w temp_dir ++ split "/" rel) = true ->
           q <> location w temp_dir ++ split "/" rel ->
           is_dir root' q = true)
    /\ listing_grows (location w temp_dir) (hd "" (split "/" rel))
         (w_root w) root'.
Proof.
  intros Htemp Hrel Hsan HdirT Hinfo Hbody [Hfree Hnodir].
  destruct (join_clean_path _ _ Htemp Hrel) as (_ & Hsplit & Hclean).
  destruct (dirname_join_clean _ _ Htemp Hrel) as (Hdclean & Hdsplit).
  unfold location in *.
  set (cwd := w_cwd w) in *. set (root := w_root w) in *.
  set (tsegs := split "/" temp_dir) in *.
  assert (Hne : split "/" rel <> []) by apply split_nonempty.
  pose proof (app_removelast_last "" Hne) as Hlast.
  set (init := removelast (split "/" rel)) in *.
  set (name := List.last (split "/" rel) "") in *.
  assert (Hnames : forallb name_ok init = true /\ name_ok name = true).
  { unfold clean_relative in Hrel. rewrite Hlast, forallb_app in Hrel.
    apply andb_true_iff in Hrel as [Hi Hn]. cbn in Hn.
    rewrite andb_true_r in Hn. now split. }
  destruct Hnames as [Hinit Hname].
  assert (Htsegs : forallb name_ok tsegs = true) by exact Htemp.
  rewrite Hlast in *.
  set (target := OsPath.join temp_dir rel) in *.
  set (dir := OsPath.dirname target) in *.
  assert (Hcwd : is_dir root cwd = true).
  { apply (is_dir_prefix _ (cwd ++ tsegs)); [apply is_prefix_app | exact HdirT]. }
  (* the directories *)
  assert (Hmk : exists root1,
            makedirs root cwd dir = (Ok tt, root1)
            /\ makedirs_from root (cwd ++ tsegs) init = (true, root1)).
  { unfold makedirs. rewrite (start_clean cwd dir Hdclean).
    destruct (clean_first dir Hdclean) as (Hdne & _ & _).
    destruct (String.eqb_spec dir ""); [contradiction|].
    rewrite Hcwd. cbn [negb]. rewrite Hdsplit.
    rewrite (makedirs_from_existing tsegs root cwd init Htsegs HdirT).
    destruct (makedirs_from_total init root (cwd ++ tsegs) Hinit HdirT)
      as [root1 ->]; [|now exists root1].
    intros k Hk. rewrite <- app_assoc.
    replace (firstn k init) with (firstn k (init ++ [name]))
      by (rewrite firstn_app; replace (k - List.length init)%nat with 0%nat by lia;
          cbn [firstn]; apply app_nil_r).
    rewrite app_assoc. apply Hfree. rewrite length_app. cbn. lia. }
  destruct Hmk as (root1 & Hmk & Hmkfrom).
  destruct (makedirs_clean root cwd dir root1 Hdclean Hmk) as [Hdir1 Hframe1].
  rewrite Hdsplit in Hdir1, Hframe1.
  set (parent := cwd ++ tsegs ++ init) in *.
  assert (Htarget : cwd ++ tsegs ++ init ++ [name] = parent ++ [name])
    by (subst parent; now rewrite <- !app_assoc).
  assert (Hpath : (cwd ++ tsegs) ++ init ++ [name] = parent ++ [name])
    by (subst parent; now rewrite <- !app_assoc).
  rewrite Hpath in Hnodir. unfold is_dir in Hnodir.
  assert (Hresolve : forall r, is_dir r parent = true ->
                               resolve r cwd target = Some (parent ++ [name])).
  { intros r Hr. rewrite (resolve_clean r cwd target Hclean), Hsplit.
    rewrite <- Htarget, (app_assoc tsegs init [name]).
    apply (walk_child r cwd (tsegs ++ init) name);
      [now rewrite forallb_app, Htsegs, Hinit | exact Hname|].
    exact Hr. }
  pose proof Hdir1 as Hdir1'.
  (* the file, as [open] makes it *)
  assert (Hold : lookup (parent ++ [name]) root1 = lookup (parent ++ [name]) root).
  { apply Hframe1. apply child_not_above. }
  destruct (update_succeeds parent name (Some (File "")) root1 Hdir1')
    as [root2 Hu2].
  assert (Hdir2 : is_dir root2 parent = true).
  { apply (is_dir_update_above _ _ _ _ _ Hu2); [apply is_prefix_app|].
    intros E. pose proof (child_not_above parent name) as Hc.
    now rewrite <- E, is_prefix_refl in Hc. }
  destruct (update_succeeds parent name (Some (File data)) root2 Hdir2)
    as [root3 Hu3].
  exists root3. split; [|split; [|split; [|split; [|split]]]].
  - unfold extract_body.
    destruct (String.eqb_spec (relative_to folder_prefix file) "") as [E|_].
    { rewrite E in Hsan. cbn in Hsan. subst rel. discriminate. }
    unfold target_file_path. rewrite Hsan. fold target. fold dir.
    rewrite bind_run. unfold os_makedirs. fold root cwd. rewrite Hmk.
    rewrite bind_run. unfold zip_open. rewrite Hinfo, Hbody. cbn [ret].
    rewrite bind_run, write_file_run.
    cbn [w_root w_cwd set_root]. fold cwd.
    unfold FS.write_file at 1. rewrite (Hresolve root1 Hdir1'), Hold.
    assert (Hstep : match lookup (parent ++ [name]) root with
                    | Some (Dir _) => Raise (OSError EISDIR target)
                    | _ => match update (parent ++ [name]) (Some (File "")) root1 with
                           | Some root' => Ok root'
                           | None => Raise (OSError ENOENT target)
                           end
                    end = Ok root2).
    { rewrite Hu2. destruct (lookup (parent ++ [name]) root) as [[?|?]|];
        [reflexivity | discriminate | reflexivity]. }
    rewrite Hstep. rewrite set_root_twice.
    rewrite bind_run. cbn [zip_read ret].
    rewrite write_file_run. cbn [w_root w_cwd set_root].
    fold cwd. unfold FS.write_file. rewrite (Hresolve root2 Hdir2).
    rewrite (lookup_update_same _ _ _ _ Hu2), Hu3.
    now rewrite set_root_twice.
  - rewrite Hpath. exact (lookup_update_same _ _ _ _ Hu3).
  - apply (is_dir_update_above _ (cwd ++ tsegs) _ _ _ Hu3).
    + rewrite <- Hpath. apply is_prefix_app.
    + rewrite <- Hpath. intros E.
      apply (f_equal (@List.length string)) in E.
      rewrite !length_app in E. cbn in E. lia.
  - intros q Hq1 Hq2. rewrite Hpath in Hq1, Hq2.
    rewrite (lookup_update_apart _ q _ _ _ Hu3 Hq2 Hq1).
    rewrite (lookup_update_apart _ q _ _ _ Hu2 Hq2 Hq1).
    apply Hframe1. exact (incomparable_below _ _ _ Hq1).
  - intros q Hq Hne'. rewrite Hpath in Hq, Hne'.
    now apply (is_dir_update_above _ q _ _ _ Hu3).
  - assert (Hhead : exists rest,
              init ++ [name] = hd "" (init ++ [name]) :: rest
              /\ (init = [] \/ hd "" (init ++ [name]) = hd "" init)).
    { destruct init as [|i init']; cbn; eauto. }
    destruct Hhead as (rest & Hhead & Hinit').
    set (h := hd "" (init ++ [name])) in *.
    assert (Hp : parent ++ [name] = (cwd ++ tsegs) ++ h :: rest).
    { rewrite <- Hpath, <- Hhead. reflexivity. }
    rewrite Hp in Hu2, Hu3.
    apply (listing_grows_trans (cwd ++ tsegs) h root root1 root3).
    + destruct Hinit' as [E | E].
      * rewrite E in Hmkfrom. cbn in Hmkfrom. injection Hmkfrom as <-.
        apply listing_grows_refl.
      * rewrite E. now apply makedirs_from_grows_top.
    + apply (listing_grows_trans (cwd ++ tsegs) h root1 root2 root3).
      * exact (update_grows (cwd ++ tsegs) h rest _ _ _ Hu2).
      * exact (update_grows (cwd ++ tsegs) h rest _ _ _ Hu3).
Qed.

End OneMember.

(* ===================================================================== *)
(** ** Staged Materializer: files and directory entries *)
(* ===================================================================== *)

Section FilesAndDirectoryEntries.
Import FS FSFacts PathFacts ApartFacts MakedirsFacts.

Lemma rstrip_fixed chars s :
  (forall c, mem c chars = true -> endswith_char s c = false) ->
  rstrip chars s = s.
Proof.
  induction s as [|c s IH]; [reflexivity|]. intros H.
  destruct s as [|d s].
  - cbn. destruct (mem c chars) eqn:Hc; [|reflexivity].
    specialize (H c Hc). cbn in H. now rewrite Ascii.eqb_refl in H.
  - cbn [rstrip]. cbn [rstrip] in IH. rewrite IH; [reflexivity|].
    intros c' Hc'. exact (H c' Hc').
Qed.

Lemma sanitize_path_fixed s :
  endswith_char s "/" = false -> endswith_char s "\" = false ->
  sanitize_path s = s.
Proof.
  intros H1 H2. apply rstrip_fixed. intros c Hc. cbn in Hc.
  rewrite orb_false_r in Hc. apply orb_true_iff in Hc as [Hc|Hc];
    apply Ascii.eqb_eq in Hc; now subst c.
Qed.

Lemma sanitize_path_clean rel :
  clean_relative rel = true -> endswith_char rel "\" = false ->
  sanitize_path rel = rel.
Proof.
  intros Hrel Hend. apply sanitize_path_fixed; [|exact Hend].
  now destruct (clean_first rel Hrel) as (_ & _ & H).
Qed.

Lemma extract_one_ok zip_ref temp_dir folder_prefix file w w' :
  extract_body zip_ref temp_dir folder_prefix file w = (Ok tt, w') ->
  extract_one zip_ref temp_dir folder_prefix file w = (Ok tt, w').
Proof. intros H. unfold extract_one. now rewrite try_except_run, H. Qed.

Lemma apart_from_staging base segs q :
  is_prefix base q = false -> is_prefix q base = false ->
  is_prefix q (base ++ segs) = false /\ is_prefix (base ++ segs) q = false.
Proof.
  intros H1 H2. split.
  - destruct (is_prefix q (base ++ segs)) eqn:E; [|reflexivity].
    apply is_prefix_iff in E as [r E].
    destruct (prefix_comparable _ _ _ _ E); congruence.
  - now apply not_prefix_of_shorter.
Qed.

(** X19.  A member that is a file is staged with its content.  Let the
    member's path be the prefix followed by a clean relative path that
    does not end with a backslash, let the archive hold its bytes, let
    the staging directory be there, and let nothing stand in the way (no
    regular file where a directory is needed, no directory where the file
    goes).  Then the iteration ends without a warning; afterwards the
    file is at that relative path below the staging directory with the
    bytes of the member, and everything that lies neither under the
    staging directory nor above it is as it was. *)
Theorem member_is_staged zip_ref temp_dir folder_prefix rel m data w :
  clean_relative temp_dir = true ->
  clean_relative rel = true ->
  endswith_char rel "\" = false ->
  is_dir (w_root w) (location w temp_dir) = true ->
  getinfo zip_ref (folder_prefix ++ rel)%string = Some m ->
  m_body m = Stored data ->
  way_is_free (w_root w) (location w temp_dir) (split "/" rel) ->
  exists w',
    extract_one zip_ref temp_dir folder_prefix (folder_prefix ++ rel)%string w
    = (Ok tt, w')
    /\ entry_at w' (OsPath.join temp_dir rel) = Some (File data)
    /\ w_trace w' = w_trace w
    /\ isdir (w_root w') (w_cwd w') temp_dir = true
    /\ forall q,
         is_prefix (location w temp_dir) q = false ->
         is_prefix q (location w temp_dir) = false ->
         lookup q (w_root w') = lookup q (w_root w).
Proof.
  intros Htemp Hrel Hend HdirT Hinfo Hbody Hfree.
  assert (Hsan : sanitize_path
                   (relative_to folder_prefix (folder_prefix ++ rel)%string)
                 = rel).
  { unfold relative_to. rewrite drop_app. now apply sanitize_path_clean. }
  destruct (extract_body_stages zip_ref temp_dir folder_prefix
              (folder_prefix ++ rel)%string rel m data w
              Htemp Hrel Hsan HdirT Hinfo Hbody Hfree)
    as (root' & Hrun & Hfile & Hdir & Hframe & _).
  exists (set_root w root'). split; [now apply extract_one_ok|].
  destruct (join_clean_path _ _ Htemp Hrel) as (_ & Hsplit & Hclean).
  split; [|split; [reflexivity | split]].
  - rewrite (entry_at_clean _ _ Hclean). unfold location in *.
    cbn [w_root w_cwd set_root]. now rewrite Hsplit, app_assoc.
  - rewrite (isdir_clean _ _ _ Htemp). exact Hdir.
  - intros q H1 H2. cbn [w_root set_root].
    destruct (apart_from_staging _ (split "/" rel) q H1 H2) as [H3 H4].
    now apply Hframe.
Qed.

Lemma member_is_staged_witness :
  let w := Examples.staged in
  let zip_ref := [Member "widgets-v2/src/lib/c/d.txt" (Stored "DDD")] in
  exists w',
    extract_one zip_ref "temp_extract_5" Examples.lib_prefix
      "widgets-v2/src/lib/c/d.txt" w = (Ok tt, w')
    /\ entry_at w' "temp_extract_5/c/d.txt" = Some (File "DDD")
    /\ entry_at w' "out/keep.txt" = entry_at w "out/keep.txt".
Proof.
  intros w zip_ref.
  assert (Hfree : way_is_free (w_root w) (location w "temp_extract_5")
                    (split "/" "c/d.txt")).
  { split; [|reflexivity]. intros [|[|k]] Hk; cbn in Hk; try lia. reflexivity. }
  destruct (member_is_staged zip_ref "temp_extract_5" Examples.lib_prefix
              "c/d.txt" (Member "widgets-v2/src/lib/c/d.txt" (Stored "DDD"))
              "DDD" w eq_refl eq_refl eq_refl eq_refl eq_refl eq_refl Hfree)
    as (w' & Hrun & Hfile & Htrace & Hdir & Hframe).
  exists w'. split; [exact Hrun | split; [exact Hfile|]].
  assert (Hset : same_setting w w').
  { exact (ps_extract_one _ _ _ _ _ _ _ Hrun). }
  rewrite !entry_at_clean by reflexivity.
  rewrite (same_setting_location _ _ _ Hset).
  now apply Hframe.
Defined.

Lemma makedirs_from_blocked root cur d data rest :
  name_ok d = true ->
  lookup (cur ++ [d]) root = Some (File data) ->
  makedirs_from root cur (d :: rest) = (false, root).
Proof.
  intros Hd Hfile. cbn [makedirs_from].
  destruct (name_ok_proper d Hd) as (-> & -> & _). now rewrite Hfile.
Qed.

Lemma removelast_cons {A} (x : A) l :
  l <> [] -> removelast (x :: l) = x :: removelast l.
Proof. now destruct l. Qed.

(** X20.  An entry of the archive for a directory, a member whose path
    ends with a slash, is staged as a regular file, and the members under
    it that come later are not staged.  Let [d] be a name and [f] a clean
    relative path, neither ending with a backslash; let the staging
    directory be there with no directory [d] in it, and let the archive
    hold bytes, none for a directory, under the name of the prefix
    followed by [d] and a slash.  Then the two iterations for that member
    and for the member [d/f] end normally; afterwards [d] below the
    staging directory is a regular file with those bytes, nothing is at
    [d/f], and the one line printed is the warning that [d/f] could not
    be extracted. *)
Theorem directory_entry_shadows_its_members zip_ref temp_dir folder_prefix
  d f m data w :
  clean_relative temp_dir = true ->
  name_ok d = true -> endswith_char d "\" = false ->
  clean_relative f = true -> endswith_char f "\" = false ->
  is_dir (w_root w) (location w temp_dir) = true ->
  is_dir (w_root w) (location w temp_dir ++ [d]) = false ->
  getinfo zip_ref (folder_prefix ++ d ++ "/")%string = Some m ->
  m_body m = Stored data ->
  let entry := (folder_prefix ++ d ++ "/")%string in
  let inner := (folder_prefix ++ d ++ "/" ++ f)%string in
  exists w' code path,
    for_each [entry; inner] (extract_one zip_ref temp_dir folder_prefix) w
    = (Ok tt, w')
    /\ entry_at w' (OsPath.join temp_dir d) = Some (File data)
    /\ entry_at w' (OsPath.join temp_dir (d ++ "/" ++ f)%string) = None
    /\ printed w' = printed w ++ [MsgWarnExtract inner (OSError code path)].
Proof.
  intros Htemp Hd Hdend Hf Hfend HdirT Hnodir Hinfo Hbody entry inner.
  destruct (name_ok_proper d Hd) as (_ & _ & Hdsep).
  assert (Hdclean : clean_relative d = true).
  { unfold clean_relative. rewrite (split_no_sep _ _ Hdsep). cbn.
    now rewrite Hd. }
  assert (Hdsplit : split "/" d = [d]) by now apply split_no_sep.
  (* the entry of the directory *)
  assert (Hsan1 : sanitize_path (relative_to folder_prefix entry) = d).
  { subst entry. unfold relative_to. rewrite drop_app. unfold sanitize_path.
    change (d ++ "/")%string with (d ++ String "/" "")%string.
    rewrite (rstrip_snoc "/\" d "/" eq_refl).
    now apply sanitize_path_clean. }
  assert (Hfree : way_is_free (w_root w) (location w temp_dir) (split "/" d)).
  { rewrite Hdsplit. split; [|exact Hnodir].
    intros k Hk. cbn in Hk. lia. }
  destruct (extract_body_stages zip_ref temp_dir folder_prefix entry d m data w
              Htemp Hdclean Hsan1 HdirT Hinfo Hbody Hfree)
    as (root1 & Hrun1 & Hfile1 & Hdir1 & _).
  rewrite Hdsplit in Hfile1.
  (* the member under it *)
  set (rel := (d ++ "/" ++ f)%string).
  assert (Hrelsplit : split "/" rel = d :: split "/" f).
  { subst rel. change (d ++ "/" ++ f)%string with (d ++ String "/" f)%string.
    now rewrite split_app_sep, Hdsplit. }
  assert (Hrel : clean_relative rel = true).
  { unfold clean_relative. rewrite Hrelsplit. cbn [forallb].
    rewrite Hd. exact Hf. }
  assert (Hfne : f <> "") by now destruct (clean_first f Hf).
  assert (Hsan2 : sanitize_path (relative_to folder_prefix inner) = rel).
  { subst inner. unfold relative_to. rewrite drop_app. fold rel.
    apply sanitize_path_clean; [exact Hrel|].
    subst rel. change (d ++ "/" ++ f)%string with (d ++ "/" ++ f)%string.
    now rewrite (endswith_app d), (endswith_app "/") by (auto; discriminate). }
  destruct (dirname_join_clean _ _ Htemp Hrel) as (Hdirclean & Hdirsplit).
  rewrite Hrelsplit, removelast_cons in Hdirsplit by apply split_nonempty.
  set (w1 := set_root w root1).
  set (dir := OsPath.dirname (OsPath.join temp_dir rel)) in *.
  assert (Hcwd1 : is_dir root1 (w_cwd w) = true).
  { apply (is_dir_prefix _ (location w temp_dir)); [apply is_prefix_app|].
    exact Hdir1. }
  assert (Hmk : makedirs root1 (w_cwd w) dir = (Raise (OSError EEXIST dir), root1)).
  { unfold makedirs. rewrite (start_clean _ dir Hdirclean).
    destruct (clean_first dir Hdirclean) as (Hne & _ & _).
    destruct (String.eqb_spec dir ""); [contradiction|].
    rewrite Hcwd1. cbn [negb]. rewrite Hdirsplit.
    rewrite (makedirs_from_existing (split "/" temp_dir) root1 (w_cwd w)
               (d :: removelast (split "/" f)) Htemp Hdir1).
    now rewrite (makedirs_from_blocked _ _ d data _ Hd Hfile1). }
  assert (Hrun2 : extract_one zip_ref temp_dir folder_prefix inner w1
                  = (Ok tt,
                     add_event w1
                       (Printed (MsgWarnExtract inner (OSError EEXIST dir))))).
  { unfold extract_one. rewrite try_except_run. unfold extract_body.
    destruct (String.eqb_spec (relative_to folder_prefix inner) "") as [E|_].
    { rewrite E in Hsan2. cbn in Hsan2. subst rel.
      destruct d; discriminate. }
    unfold target_file_path. rewrite Hsan2. fold dir.
    rewrite bind_run. unfold os_makedirs. cbn [w_root w_cwd w1 set_root].
    rewrite Hmk. cbn [is_Exception]. unfold w1. now rewrite set_root_twice. }
  exists (add_event w1 (Printed (MsgWarnExtract inner (OSError EEXIST dir)))),
    EEXIST, dir.
  split; [|split; [|split]].
  - cbn [for_each]. rewrite bind_run, (extract_one_ok _ _ _ _ _ _ Hrun1).
    fold w1. rewrite bind_run, Hrun2. reflexivity.
  - rewrite (entry_at_child _ _ _ Htemp Hd). exact Hfile1.
  - destruct (join_clean_path _ _ Htemp Hrel) as (_ & Hsplit & Hclean).
    rewrite (entry_at_clean _ _ Hclean). unfold location.
    cbn [w_root w_cwd add_event w1 set_root].
    rewrite Hsplit, Hrelsplit.
    replace (w_cwd w ++ split "/" temp_dir ++ d :: split "/" f)
      with ((location w temp_dir ++ [d]) ++ split "/" f)
      by (unfold location; now rewrite <- !app_assoc).
    rewrite lookup_app, Hfile1.
    destruct (split "/" f) eqn:E; [now destruct (split_nonempty "/" f)|].
    reflexivity.
  - now rewrite printed_add_event.
Qed.

Lemma directory_entry_shadows_its_members_witness :
  let zip_ref :=
    [Member "widgets-v2/src/lib/docs/" (Stored "");
     Member "widgets-v2/src/lib/docs/x.txt" (Stored "XXX")] in
  exists w' code path,
    for_each ["widgets-v2/src/lib/docs/"; "widgets-v2/src/lib/docs/x.txt"]
      (extract_one zip_ref "temp_extract_5" Examples.lib_prefix)
      Examples.staged = (Ok tt, w')
    /\ entry_at w' "temp_extract_5/docs" = Some (File "")
    /\ entry_at w' "temp_extract_5/docs/x.txt" = None
    /\ printed w'
       = printed Examples.staged
         ++ [MsgWarnExtract "widgets-v2/src/lib/docs/x.txt"
               (OSError code path)].
Proof.
  intros zip_ref.
  exact (directory_entry_shadows_its_members zip_ref "temp_extract_5"
           Examples.lib_prefix "docs" "x.txt"
           (Member "widgets-v2/src/lib/docs/" (Stored "")) "" Examples.staged
           eq_refl eq_refl eq_refl eq_refl eq_refl eq_refl eq_refl eq_refl
           eq_refl).
Defined.

End FilesAndDirectoryEntries.

(* ===================================================================== *)
(** ** Staged Materializer: an archive of files, from end to end *)
(* ===================================================================== *)

Section EndToEnd.
Import FS FSFacts PathFacts ApartFacts MakedirsFacts.

(** A directory that is not there, in a directory that is, is made, and
    nothing else is. *)
Lemma makedirs_fresh root cwd s parent name :
  clean_relative s = true ->
  split "/" s = parent ++ [name] ->
  is_dir root (cwd ++ parent) = true ->
  lookup (cwd ++ parent ++ [name]) root = None ->
  exists root',
    makedirs root cwd s = (Ok tt, root')
    /\ update (cwd ++ parent ++ [name]) (Some (Dir [])) root = Some root'.
Proof.
  intros Hs Hsplit Hparent Hnone.
  assert (Hnames : forallb name_ok parent = true /\ name_ok name = true).
  { unfold clean_relative in Hs. rewrite Hsplit, forallb_app in Hs.
    apply andb_true_iff in Hs as [Hp Hn]. cbn in Hn.
    rewrite andb_true_r in Hn. now split. }
  destruct Hnames as [Hp Hn].
  destruct (update_succeeds (cwd ++ parent) name (Some (Dir [])) root Hparent)
    as [root' Hu].
  rewrite <- app_assoc in Hu.
  exists root'. split; [|exact Hu].
  unfold makedirs. rewrite (start_clean cwd s Hs).
  destruct (clean_first s Hs) as (Hne & _ & _).
  destruct (String.eqb_spec s ""); [contradiction|].
  assert (Hcwd : is_dir root cwd = true).
  { apply (is_dir_prefix _ (cwd ++ parent)); [apply is_prefix_app | exact Hparent]. }
  rewrite Hcwd. cbn [negb]. rewrite Hsplit.
  rewrite (makedirs_from_existing parent root cwd [name] Hp Hparent).
  cbn [makedirs_from]. destruct (name_ok_proper name Hn) as (-> & -> & _).
  rewrite <- app_assoc, Hnone, Hu. reflexivity.
Qed.

(** A directory is made, or found, in a directory that is there, unless
    a regular file has its name. *)
Lemma makedirs_in_parent root cwd s parent name :
  clean_relative s = true ->
  split "/" s = parent ++ [name] ->
  is_dir root (cwd ++ parent) = true ->
  is_file root (cwd ++ parent ++ [name]) = false ->
  exists root', makedirs root cwd s = (Ok tt, root').
Proof.
  intros Hs Hsplit Hparent Hnofile.
  assert (Hnames : forallb name_ok parent = true /\ name_ok name = true).
  { unfold clean_relative in Hs. rewrite Hsplit, forallb_app in Hs.
    apply andb_true_iff in Hs as [Hp Hn]. cbn in Hn.
    rewrite andb_true_r in Hn. now split. }
  destruct Hnames as [Hp Hn].
  unfold makedirs. rewrite (start_clean cwd s Hs).
  destruct (clean_first s Hs) as (Hne & _ & _).
  destruct (String.eqb_spec s ""); [contradiction|].
  assert (Hcwd : is_dir root cwd = true).
  { apply (is_dir_prefix _ (cwd ++ parent)); [apply is_prefix_app | exact Hparent]. }
  rewrite Hcwd. cbn [negb]. rewrite Hsplit.
  rewrite (makedirs_from_existing parent root cwd [name] Hp Hparent).
  cbn [makedirs_from]. destruct (name_ok_proper name Hn) as (-> & -> & _).
  rewrite <- app_assoc. unfold is_file in Hnofile.
  destruct (lookup (cwd ++ parent ++ [name]) root) as [[data|es]|] eqn:Hl.
  - discriminate.
  - now exists root.
  - destruct (update_succeeds (cwd ++ parent) name (Some (Dir [])) root Hparent)
      as [root' Hu].
    rewrite <- app_assoc in Hu. rewrite Hu. now exists root'.
Qed.

Lemma is_prefix_firstn k (l : path) : is_prefix (firstn k l) l = true.
Proof. apply is_prefix_iff. exists (skipn k l). now rewrite firstn_skipn. Qed.

Lemma is_prefix_length p q :
  is_prefix p q = true -> (List.length p <= List.length q)%nat.
Proof.
  intros H. apply is_prefix_iff in H as [r ->]. rewrite length_app. lia.
Qed.

Lemma clean_head r :
  clean_relative r = true -> name_ok (hd "" (split "/" r)) = true.
Proof.
  unfold clean_relative. destruct (split "/" r) as [|h rest] eqn:E.
  - now destruct (split_nonempty "/" r).
  - cbn [forallb hd]. intros H. now apply andb_true_iff in H as [H _].
Qed.

(** Before the first iteration: the staging directory was made just now. *)
Lemma staging_starts_empty base content root0 root1 rels :
  update base (Some (Dir [])) root0 = Some root1 ->
  staged_so_far base content root0 root1 [] rels.
Proof.
  intros Hu. split; [|split; [|split; [|split]]].
  - exists []. split; [exact (lookup_update_same _ _ _ _ Hu)|].
    split; constructor.
  - intros r [].
  - intros segs Hne Hthere. exfalso. apply Hthere.
    rewrite (lookup_update_below _ segs _ _ _ Hu).
    destruct segs; [contradiction | reflexivity].
  - intros r _. split.
    + intros k Hk. unfold is_file.
      rewrite (lookup_update_below _ (firstn k (split "/" r)) _ _ _ Hu).
      destruct (firstn k (split "/" r)) as [|s l] eqn:E; [|reflexivity].
      apply (f_equal (@List.length string)) in E.
      rewrite length_firstn in E. cbn in E. lia.
    + unfold is_dir.
      rewrite (lookup_update_below _ (split "/" r) _ _ _ Hu).
      destruct (split "/" r) as [|s l] eqn:E; [|reflexivity].
      now destruct (split_nonempty "/" r).
  - intros q H1 H2. exact (lookup_update_apart _ _ _ _ _ Hu H1 H2).
Qed.

(** One iteration of the extraction loop. *)
Lemma stage_next zip_ref temp_dir folder_prefix content rels w root0
  done r todo :
  clean_relative temp_dir = true ->
  independent rels ->
  holds zip_ref folder_prefix content rels ->
  (forall x, In x rels ->
             clean_relative x = true /\ endswith_char x "\" = false) ->
  incl done rels -> In r rels -> incl todo rels ->
  staged_so_far (location w temp_dir) content root0 (w_root w)
    done (r :: todo) ->
  exists root',
    extract_one zip_ref temp_dir folder_prefix (folder_prefix ++ r)%string w
    = (Ok tt, set_root w root')
    /\ staged_so_far (location w temp_dir) content root0 root'
         (done ++ [r]) todo.
Proof.
  intros Htemp Hind Hholds Hrels Hdone Hr Htodo
    (Hlist & Hfiles & Honly & Hfree & Hframe).
  destruct (Hrels r Hr) as [Hclean Hend].
  destruct (Hholds r Hr) as (m & Hinfo & Hbody).
  destruct Hlist as (es & Hes & Hnd & Hkeys).
  assert (HdirT : is_dir (w_root w) (location w temp_dir) = true)
    by (unfold is_dir; now rewrite Hes).
  assert (Hsan : sanitize_path
                   (relative_to folder_prefix (folder_prefix ++ r)%string)
                 = r).
  { unfold relative_to. rewrite drop_app. now apply sanitize_path_clean. }
  destruct (extract_body_stages zip_ref temp_dir folder_prefix
              (folder_prefix ++ r)%string r m (content r) w
              Htemp Hclean Hsan HdirT Hinfo Hbody (Hfree r (or_introl eq_refl)))
    as (root' & Hrun & Hfile & Hdir & Hfr & Hdirs & Hgrow).
  exists root'. split; [now apply extract_one_ok|].
  remember (location w temp_dir) as T eqn:HT.
  assert (Hsame : forall x,
             In x rels ->
             is_prefix (T ++ split "/" x) (T ++ split "/" r) = true
             \/ is_prefix (T ++ split "/" r) (T ++ split "/" x) = true ->
             x = r).
  { intros x Hx [H|H]; rewrite is_prefix_common in H.
    - exact (Hind x r Hx Hr H).
    - symmetry. exact (Hind r x Hr Hx H). }
  split; [|split; [|split; [|split]]].
  - destruct (Hgrow es Hes) as (es' & Hes' & Hg).
    exists es'. split; [exact Hes'|].
    split; [exact (grows_by_nodup _ _ _ Hg Hnd)|].
    apply (grows_by_forall _ _ _ _ Hg).
    + split; [now apply clean_head|].
      exists r. split; [|reflexivity]. apply in_or_app. right. now left.
    + eapply Forall_impl; [|exact Hkeys].
      intros n (Hn & x & Hx & Hh). split; [exact Hn|].
      exists x. split; [|exact Hh]. apply in_or_app. now left.
  - intros x Hx. apply in_app_or in Hx as [Hx | [<- | []]]; [|exact Hfile].
    destruct (is_prefix (T ++ split "/" x) (T ++ split "/" r)) eqn:E1.
    { rewrite (Hsame x (Hdone x Hx) (or_introl E1)). exact Hfile. }
    destruct (is_prefix (T ++ split "/" r) (T ++ split "/" x)) eqn:E2.
    { rewrite (Hsame x (Hdone x Hx) (or_intror E2)). exact Hfile. }
    rewrite (Hfr _ E1 E2). now apply Hfiles.
  - intros segs Hne Hthere.
    destruct (is_prefix (T ++ segs) (T ++ split "/" r)) eqn:E1.
    { rewrite is_prefix_common in E1. exists r. split; [|exact E1].
      apply in_or_app. right. now left. }
    destruct (is_prefix (T ++ split "/" r) (T ++ segs)) eqn:E2.
    { exfalso. apply Hthere. apply is_prefix_iff in E2 as [below E2].
      rewrite E2, lookup_app, Hfile.
      destruct below as [|x below]; [|reflexivity].
      rewrite app_nil_r in E2. now rewrite E2, is_prefix_refl in E1. }
    rewrite (Hfr _ E1 E2) in Hthere.
    destruct (Honly segs Hne Hthere) as (x & Hx & Hpre).
    exists x. split; [|exact Hpre]. apply in_or_app. now left.
  - intros x Hx. pose proof (Htodo x Hx) as Hxr.
    destruct (Hfree x (or_intror Hx)) as [Hfa Hfb].
    split.
    + intros k Hk.
      assert (Hfirst : is_prefix (T ++ firstn k (split "/" x))
                         (T ++ split "/" x) = true).
      { rewrite is_prefix_common. apply is_prefix_firstn. }
      destruct (is_prefix (T ++ firstn k (split "/" x)) (T ++ split "/" r))
        eqn:E1.
      * destruct (list_eq_dec string_dec (T ++ firstn k (split "/" x))
                    (T ++ split "/" r)) as [E|N].
        -- exfalso.
           assert (Hx' : x = r).
           { apply Hsame; [exact Hxr|]. right. now rewrite <- E. }
           subst x. apply app_inv_head in E.
           apply (f_equal (@List.length string)) in E.
           rewrite length_firstn in E. lia.
        -- pose proof (Hdirs _ E1 N) as Hd. unfold is_dir in Hd.
           unfold is_file.
           destruct (lookup (T ++ firstn k (split "/" x)) root') as [[?|?]|];
             congruence.
      * destruct (is_prefix (T ++ split "/" r) (T ++ firstn k (split "/" x)))
          eqn:E2.
        -- exfalso.
           assert (Hx' : x = r).
           { apply Hsame; [exact Hxr|]. right.
             exact (is_prefix_trans _ _ _ E2 Hfirst). }
           subst x. rewrite is_prefix_common in E2.
           apply is_prefix_length in E2. rewrite length_firstn in E2. lia.
        -- unfold is_file. rewrite (Hfr _ E1 E2). exact (Hfa k Hk).
    + destruct (is_prefix (T ++ split "/" x) (T ++ split "/" r)) eqn:E1.
      * rewrite (Hsame x Hxr (or_introl E1)). unfold is_dir. now rewrite Hfile.
      * destruct (is_prefix (T ++ split "/" r) (T ++ split "/" x)) eqn:E2.
        -- rewrite (Hsame x Hxr (or_intror E2)) in E1.
           now rewrite is_prefix_refl in E1.
        -- unfold is_dir. rewrite (Hfr _ E1 E2). exact Hfb.
  - intros q H1 H2.
    destruct (apart_from_staging T (split "/" r) q H1 H2) as [H3 H4].
    rewrite (Hfr q H3 H4). now apply Hframe.
Qed.

(** The extraction loop. *)
Lemma stage_all zip_ref temp_dir folder_prefix content rels root0 :
  clean_relative temp_dir = true ->
  independent rels ->
  holds zip_ref folder_prefix content rels ->
  (forall x, In x rels ->
             clean_relative x = true /\ endswith_char x "\" = false) ->
  forall todo done w,
    incl done rels -> incl todo rels ->
    staged_so_far (location w temp_dir) content root0 (w_root w) done todo ->
    exists root',
      for_each (map (fun r => (folder_prefix ++ r)%string) todo)
        (extract_one zip_ref temp_dir folder_prefix) w
      = (Ok tt, set_root w root')
      /\ staged_so_far (location w temp_dir) content root0 root'
           (done ++ todo) [].
Proof.
  intros Htemp Hind Hholds Hrels.
  induction todo as [|r todo IH]; intros done w Hdone Htodo Hinv.
  - exists (w_root w). split; [now destruct w|]. now rewrite app_nil_r.
  - cbn [map for_each]. rewrite bind_run.
    destruct (stage_next zip_ref temp_dir folder_prefix content rels w root0
                done r todo Htemp Hind Hholds Hrels Hdone
                (Htodo r (or_introl eq_refl))
                (fun x Hx => Htodo x (or_intror Hx)) Hinv)
      as (root1 & Hrun & Hinv1).
    rewrite Hrun.
    destruct (IH (done ++ [r]) (set_root w root1)) as (root' & Hrun' & Hinv').
    + intros x Hx. apply in_app_or in Hx as [Hx | [<- | []]];
        [now apply Hdone | apply Htodo; now left].
    + intros x Hx. apply Htodo. now right.
    + exact Hinv1.
    + exists root'. rewrite Hrun'. split; [reflexivity|].
      rewrite <- app_assoc in Hinv'. exact Hinv'.
Qed.

(** The materializer on an archive of files: the staging directory is
    made, every member is staged, the destination is made or found, the
    staged entries are moved and the staging directory is removed. *)
Lemma materializer_delivers zip_ref folder_prefix output_dir
  content rels w :
  clean_relative output_dir = true ->
  OsPath.basename output_dir <> staging_name (w_clock w) ->
  (forall r, In r rels ->
             clean_relative r = true /\ endswith_char r "\" = false) ->
  independent rels ->
  holds zip_ref folder_prefix content rels ->
  is_dir (w_root w) (removelast (location w output_dir)) = true ->
  is_file (w_root w) (location w output_dir) = false ->
  entry_at w (staging_dir output_dir (w_clock w)) = None ->
  exists w',
    extract_to_temp_and_move zip_ref
      (map (fun r => (folder_prefix ++ r)%string) rels)
      folder_prefix output_dir w
    = (Ok tt, w')
    /\ (forall r, In r rels ->
                  entry_at w' (OsPath.join output_dir r)
                  = Some (File (content r)))
    /\ exists_ (w_root w') (w_cwd w') (staging_dir output_dir (w_clock w))
       = false
    /\ (forall name,
           name_ok name = true ->
           (forall r, In r rels -> hd "" (split "/" r) <> name) ->
           entry_at w' (OsPath.join output_dir name)
           = entry_at w (OsPath.join output_dir name))
    /\ isdir (w_root w') (w_cwd w') output_dir = true
    /\ (forall p,
           clean_relative p = true ->
           (exists r, In r rels /\ hd "" (split "/" r) = hd "" (split "/" p)) ->
           entry_at w' (OsPath.join output_dir p) <> None ->
           exists r, In r rels /\ is_prefix (split "/" p) (split "/" r) = true).
Proof.
  intros Hout Hbase Hrels Hind Hholds Hparent Hnofile Hnostage.
  destruct (staging_dir_sibling output_dir (w_clock w) Hout)
    as (parent & Hso & Hst).
  pose proof (staging_dir_clean output_dir (w_clock w) Hout) as Htemp.
  pose proof (staging_dir_apart output_dir (w_clock w) Hout Hbase) as Hapart.
  remember (staging_dir output_dir (w_clock w)) as temp_dir eqn:Htd.
  remember (staging_name (w_clock w)) as sn eqn:Hsn.
  remember (OsPath.basename output_dir) as bn eqn:Hbn.
  unfold location in Hparent, Hnofile.
  rewrite Hso in Hparent, Hnofile.
  rewrite app_assoc, removelast_last in Hparent.
  rewrite (entry_at_clean w _ Htemp) in Hnostage.
  unfold location in Hnostage. rewrite Hst in Hnostage.
  (* the staging directory is made *)
  destruct (makedirs_fresh (w_root w) (w_cwd w) temp_dir parent sn
              Htemp Hst Hparent Hnostage) as (root_a & Hmk & Hu).
  pose proof (staging_starts_empty _ content _ _ rels Hu) as Hinv0.
  remember (add_event (set_root w root_a)
              (Printed (MsgFound
                 (List.length (map (fun r => (folder_prefix ++ r)%string) rels)))))
    as wa eqn:Hwa.
  assert (Hcwd_a : w_cwd wa = w_cwd w) by now subst wa.
  assert (Hroot_a : w_root wa = root_a) by now subst wa.
  assert (Hloc_a : location wa temp_dir = w_cwd w ++ parent ++ [sn]).
  { unfold location. now rewrite Hcwd_a, Hst. }
  destruct (stage_all zip_ref temp_dir folder_prefix content rels (w_root w)
              Htemp Hind Hholds Hrels rels [] wa
              (fun x (Hx : In x []) => match Hx with end)
              (fun x Hx => Hx))
    as (root_s & Hloop & Hinv).
  { rewrite Hloc_a, Hroot_a. exact Hinv0. }
  cbn [app] in Hinv. rewrite Hloc_a in Hinv.
  destruct Hinv as ((es & Hes & Hnd & Hkeys) & Hfiles & Honly & _ & Hframe).
  assert (Hext : extract_phase zip_ref
                   (map (fun r => (folder_prefix ++ r)%string) rels)
                   folder_prefix temp_dir w
                 = (Ok tt, set_root wa root_s)).
  { unfold extract_phase. rewrite bind_run. unfold os_makedirs at 1.
    rewrite Hmk. rewrite bind_run. unfold print at 1. rewrite <- Hwa.
    exact Hloop. }
  remember (set_root wa root_s) as ws eqn:Hws.
  assert (Hcwd_s : w_cwd ws = w_cwd w) by (subst ws; exact Hcwd_a).
  assert (Hroot_s : w_root ws = root_s) by now subst ws.
  assert (Hloc_s : forall s, location ws s = location w s).
  { intros s. unfold location. now rewrite Hcwd_s. }
  (* the staging directory as the move loop finds it *)
  assert (Hes_s : lookup (w_cwd ws ++ split "/" temp_dir) (w_root ws)
                  = Some (Dir es)).
  { now rewrite Hcwd_s, Hroot_s, Hst. }
  assert (Hnames : names_in ws temp_dir = map fst es).
  { unfold names_in. now rewrite (listdir_clean _ _ _ es Htemp Hes_s). }
  assert (Hisdir : isdir (w_root ws) (w_cwd ws) temp_dir = true).
  { rewrite (isdir_clean _ _ _ Htemp). unfold is_dir. now rewrite Hes_s. }
  assert (Hne : sn <> bn) by (intros E; apply Hbase; now rewrite <- E).
  assert (Hdest_frame : forall rest,
             lookup (w_cwd w ++ parent ++ bn :: rest) root_s
             = lookup (w_cwd w ++ parent ++ bn :: rest) (w_root w)).
  { intros rest. apply Hframe.
    - rewrite !app_assoc. now apply sibling_apart.
    - rewrite !app_assoc.
      change (bn :: rest) with ([bn] ++ rest). rewrite app_assoc.
      apply not_prefix_of_shorter. apply sibling_apart.
      intros E. now apply Hne. }
  (* the destination is made, or found *)
  assert (Hmk1 : exists root1,
             makedirs (w_root ws) (w_cwd ws) output_dir = (Ok tt, root1)).
  { rewrite Hcwd_s, Hroot_s.
    apply (makedirs_in_parent root_s (w_cwd w) output_dir parent bn Hout Hso).
    - apply (is_dir_prefix _ (w_cwd w ++ parent ++ [sn])).
      + rewrite app_assoc. apply is_prefix_app.
      + unfold is_dir. now rewrite Hes.
    - unfold is_file. rewrite (Hdest_frame []). exact Hnofile. }
  destruct Hmk1 as (root1 & Hmk1).
  destruct (move_and_cleanup_merge temp_dir output_dir Htemp Hout Hapart
              ws root1 Hisdir)
    as (w1 & w2 & Hmove & Hclean & Hisd & Hgone & Hin & Hrest).
  { now rewrite Hnames. }
  { rewrite Hnames. eapply Forall_impl; [|exact Hkeys]. now intros n [Hn _]. }
  { exact Hmk1. }
  assert (Hset : same_setting ws w2).
  { exact (same_setting_trans _ _ _ (ps_move_phase _ _ _ _ _ Hmove)
             (ps_cleanup _ _ _ _ Hclean)). }
  assert (Hloc_2 : forall s, location w2 s = location w s).
  { intros s. now rewrite (same_setting_location _ _ s Hset). }
  (* what is staged, and where it is after the move *)
  assert (Hlisted : forall r, In r rels ->
                              In (hd "" (split "/" r)) (map fst es)).
  { intros r Hr. pose proof (Hfiles r Hr) as Hfile.
    destruct (split "/" r) as [|h rest] eqn:E;
      [now destruct (split_nonempty "/" r)|].
    cbn [hd]. apply assoc_in. intros Hno. rewrite lookup_app, Hes in Hfile.
    cbn [lookup] in Hfile. now rewrite Hno in Hfile. }
  assert (Hmoved : forall h rest,
             name_ok h = true -> In h (map fst es) ->
             lookup (location w2 output_dir ++ h :: rest) (w_root w2)
             = lookup ((w_cwd w ++ parent ++ [sn]) ++ h :: rest) root_s).
  { intros h rest Hh Hh_in. rewrite <- Hnames in Hh_in.
    assert (Htop : lookup (location w2 output_dir ++ [h]) (w_root w2)
                   = lookup ((w_cwd w ++ parent ++ [sn]) ++ [h]) root_s).
    { rewrite <- (entry_at_child w2 _ _ Hout Hh), (Hin h Hh_in).
      rewrite (entry_at_child ws _ _ Htemp Hh), Hroot_s.
      unfold location. now rewrite Hcwd_s, Hst. }
    replace (location w2 output_dir ++ h :: rest)
      with ((location w2 output_dir ++ [h]) ++ rest)
      by now rewrite <- app_assoc.
    rewrite lookup_app, Htop, <- lookup_app.
    now rewrite <- (app_assoc _ [h] rest). }
  exists w2. split; [|split; [|split; [|split; [|split]]]].
  - unfold extract_to_temp_and_move. rewrite bind_run. unfold now at 1.
    rewrite <- Htd. unfold try_finally. rewrite bind_run, Hext, Hmove, Hclean.
    reflexivity.
  - intros r Hr. destruct (Hrels r Hr) as [Hc _].
    destruct (join_clean_path output_dir r Hout Hc) as (_ & Hsplit & Hcl).
    rewrite (entry_at_clean w2 _ Hcl). unfold location. rewrite Hsplit.
    pose proof (clean_head r Hc) as Hh.
    pose proof (Hfiles r Hr) as Hfile.
    pose proof (Hlisted r Hr) as Hh_in.
    destruct (split "/" r) as [|h rest] eqn:E;
      [now destruct (split_nonempty "/" r)|].
    cbn [hd] in Hh, Hh_in.
    rewrite app_assoc. fold (location w2 output_dir).
    now rewrite (Hmoved h rest Hh Hh_in).
  - exact Hgone.
  - intros name Hname Hnot.
    assert (Hnotin : ~ In name (names_in ws temp_dir)).
    { rewrite Hnames. intros Hi.
      rewrite Forall_forall in Hkeys.
      destruct (Hkeys name Hi) as (_ & r & Hr & Hh).
      exact (Hnot r Hr Hh). }
    rewrite (Hrest name Hname Hnotin).
    rewrite (entry_at_child ws _ _ Hout Hname).
    rewrite (entry_at_child w _ _ Hout Hname).
    rewrite Hloc_s, Hroot_s. unfold location. rewrite Hso.
    rewrite <- !app_assoc. exact (Hdest_frame [name]).
  - exact Hisd.
  - intros p Hp (r0 & Hr0 & Hhead) Hthere.
    destruct (join_clean_path output_dir p Hout Hp) as (_ & Hsplit & Hcl).
    rewrite (entry_at_clean w2 _ Hcl) in Hthere. unfold location in Hthere.
    rewrite Hsplit in Hthere.
    pose proof (clean_head p Hp) as Hh.
    pose proof (Hlisted r0 Hr0) as Hh_in. rewrite Hhead in Hh_in.
    destruct (split "/" p) as [|h rest] eqn:E;
      [now destruct (split_nonempty "/" p)|].
    cbn [hd] in Hh, Hh_in.
    rewrite app_assoc in Hthere. fold (location w2 output_dir) in Hthere.
    rewrite (Hmoved h rest Hh Hh_in) in Hthere.
    exact (Honly (h :: rest) ltac:(discriminate) Hthere).
Qed.



(** C8 as the spec words it fails: a member whose path below the prefix
    climbs with [..] is written into the destination by the extraction
    loop.  Nothing is staged, so the name [keep.txt] conflicts with no
    staged entry, no warning is printed, and yet the entry [keep.txt] of
    the destination is not what it was. *)
Lemma member_overwrites_unrelated_sibling :
  let zip_ref :=
    [Member "widgets-v2/src/lib/../out/keep.txt" (Stored "EVIL")] in
  let target_files := select_members zip_ref Examples.lib_prefix in
  let w0 := Examples.before in
  target_files = ["widgets-v2/src/lib/../out/keep.txt"]
  /\ entry_at w0 "out/keep.txt" = Some (File "kept")
  /\ (exists w,
         extract_phase zip_ref target_files Examples.lib_prefix
           "temp_extract_5" w0 = (Ok tt, w)
         /\ names_in w "temp_extract_5" = [])
  /\ exists w2,
       extract_to_temp_and_move zip_ref target_files Examples.lib_prefix
         "out" w0 = (Ok tt, w2)
       /\ printed w2 = [MsgFound 1; MsgMoving]
       /\ entry_at w2 "out/keep.txt" = Some (File "EVIL").
Proof.
  cbv zeta. split; [reflexivity|]. split; [reflexivity|]. split.
  - eexists. split; vm_compute; reflexivity.
  - eexists. split; [vm_compute; reflexivity|].
    split; vm_compute; reflexivity.
Qed.

(** X21.  An archive of files arrives at the destination.  Let the
    destination be a clean relative path whose last name is not the name
    of the staging directory; let its parent be a directory, let no
    regular file have its name, and let nothing be at the staging path.
    Let the members handed over be the prefix followed by the paths of
    [rels], each a clean relative path that does not end with a
    backslash, none leading through another, and let the archive hold
    the bytes [content r] for each.  Then the materializer ends without
    an exception; afterwards every path of [rels] is, below the
    destination, a regular file with its bytes; nothing is left at the
    staging path; and an entry of the destination whose name is the first
    component of none of the paths is what it was before. *)
Theorem files_arrive_at_the_destination zip_ref folder_prefix output_dir
  content rels w :
  clean_relative output_dir = true ->
  OsPath.basename output_dir <> staging_name (w_clock w) ->
  (forall r, In r rels ->
             clean_relative r = true /\ endswith_char r "\" = false) ->
  independent rels ->
  holds zip_ref folder_prefix content rels ->
  is_dir (w_root w) (removelast (location w output_dir)) = true ->
  is_file (w_root w) (location w output_dir) = false ->
  entry_at w (staging_dir output_dir (w_clock w)) = None ->
  exists w',
    extract_to_temp_and_move zip_ref
      (map (fun r => (folder_prefix ++ r)%string) rels)
      folder_prefix output_dir w
    = (Ok tt, w')
    /\ (forall r, In r rels ->
                  entry_at w' (OsPath.join output_dir r)
                  = Some (File (content r)))
    /\ exists_ (w_root w') (w_cwd w') (staging_dir output_dir (w_clock w))
       = false
    /\ (forall name,
           name_ok name = true ->
           (forall r, In r rels -> hd "" (split "/" r) <> name) ->
           entry_at w' (OsPath.join output_dir name)
           = entry_at w (OsPath.join output_dir name)).
Proof.
  intros Hout Hbase Hrels Hind Hholds Hparent Hnofile Hnostage.
  destruct (materializer_delivers zip_ref folder_prefix output_dir content
              rels w Hout Hbase Hrels Hind Hholds Hparent Hnofile Hnostage)
    as (w' & Hrun & Hfiles & Hgone & Hrest & _).
  now exists w'.
Qed.

Lemma files_arrive_at_the_destination_witness :
  let w := Examples.before in
  exists w',
    extract_to_temp_and_move Examples.widgets Examples.lib_members
      Examples.lib_prefix "out" w
    = (Ok tt, w')
    /\ entry_at w' "out/a.txt" = Some (File "AAA")
    /\ entry_at w' "out/sub/b.txt" = Some (File "BBB")
    /\ exists_ (w_root w') (w_cwd w') "temp_extract_5" = false
    /\ entry_at w' "out/keep.txt" = Some (File "kept").
Proof.
  intros w.
  set (content := fun r => if String.eqb r "a.txt" then "AAA" else "BBB").
  destruct (files_arrive_at_the_destination Examples.widgets
              Examples.lib_prefix "out" content ["a.txt"; "sub/b.txt"] w)
    as (w' & Hrun & Hfiles & Hgone & Hrest).
  - reflexivity.
  - discriminate.
  - intros r [<- | [<- | []]]; split; reflexivity.
  - intros r1 r2 [<- | [<- | []]] [<- | [<- | []]]; cbn;
      solve [reflexivity | discriminate].
  - intros r [<- | [<- | []]]; eexists; split; reflexivity.
  - reflexivity.
  - reflexivity.
  - reflexivity.
  - exists w'. split; [exact Hrun|].
    split; [exact (Hfiles "a.txt" (or_introl eq_refl))|].
    split; [exact (Hfiles "sub/b.txt" (or_intror (or_introl eq_refl)))|].
    split; [exact Hgone|].
    transitivity (entry_at w "out/keep.txt"); [|reflexivity].
    apply (Hrest "keep.txt" eq_refl).
    intros r [<- | [<- | []]]; discriminate.
Defined.

End EndToEnd.

(* ===================================================================== *)
(** ** Orchestrator: a run that delivers *)
(* ===================================================================== *)

Section RunThatDelivers.
Import FS FSFacts PathFacts ApartFacts MakedirsFacts.

Lemma entry_at_same w w' s :
  w_root w' = w_root w -> w_cwd w' = w_cwd w -> entry_at w' s = entry_at w s.
Proof. intros Hr Hc. unfold entry_at. now rewrite Hr, Hc. Qed.

(** X22.  A run that delivers the folder.  Let the locator parse; let the
    primary URL answer, after [n] failed attempts within the budget, with
    bytes that open as an archive; let the members the filter selects be
    the prefix followed by the paths of [rels], of which there is at
    least one, each a clean relative path that does not end with a
    backslash, none leading through another, and let the archive hold
    the bytes [content r] for each.  Let the destination the run settles
    on be a clean relative path whose last name is not the name of the
    staging directory, with a directory as its parent, no regular file of
    its name, and nothing at the staging path.  Then the run returns
    [True]; afterwards every path of [rels] is, below the destination, a
    regular file with its bytes; nothing is left at the staging path;
    and an entry of the destination whose name is the first component of
    none of the paths is what it was before the run. *)
Theorem run_delivers_the_folder url output_dir c w n chunks zip_ref
  content rels :
  parse_github_folder_url url = Ok c ->
  (n <= 3)%nat ->
  (forall k, (k < n)%nat -> network_failure (attempt w (primary_url c) k)) ->
  attempt w (primary_url c) n = Respond chunks ->
  w_unzip w (String.concat "" chunks) = Ok zip_ref ->
  select_members zip_ref (folder_prefix_of (repo c) (branch c) (folder_path c))
  = map (fun r => (folder_prefix_of (repo c) (branch c) (folder_path c) ++ r)%string)
      rels ->
  rels <> [] ->
  clean_relative (chosen_output_dir c output_dir) = true ->
  OsPath.basename (chosen_output_dir c output_dir) <> staging_name (w_clock w) ->
  (forall r, In r rels ->
             clean_relative r = true /\ endswith_char r "\" = false) ->
  independent rels ->
  holds zip_ref (folder_prefix_of (repo c) (branch c) (folder_path c))
    content rels ->
  is_dir (w_root w) (removelast (location w (chosen_output_dir c output_dir)))
  = true ->
  is_file (w_root w) (location w (chosen_output_dir c output_dir)) = false ->
  entry_at w (staging_dir (chosen_output_dir c output_dir) (w_clock w)) = None ->
  exists w',
    download_github_folder url output_dir w = (Ok true, w')
    /\ (forall r, In r rels ->
                  entry_at w' (OsPath.join (chosen_output_dir c output_dir) r)
                  = Some (File (content r)))
    /\ exists_ (w_root w') (w_cwd w')
         (staging_dir (chosen_output_dir c output_dir) (w_clock w))
       = false
    /\ (forall name,
           name_ok name = true ->
           (forall r, In r rels -> hd "" (split "/" r) <> name) ->
           entry_at w' (OsPath.join (chosen_output_dir c output_dir) name)
           = entry_at w (OsPath.join (chosen_output_dir c output_dir) name)).
Proof.
  intros Hparse Hn Hfail Hok Hzip Hsel Hne Hout Hbase Hrels Hind Hholds
    Hparent Hnofile Hnostage.
  remember (chosen_output_dir c output_dir) as out eqn:Hchosen.
  remember (folder_prefix_of (repo c) (branch c) (folder_path c)) as pre
    eqn:Hpre.
  (* the download *)
  destruct (download_succeeds (primary_url c) default_timeout default_retries
              default_backoff (announced c w) n chunks)
    as (w2 & Hrun & (_ & Hroot2 & Hset2)).
  { unfold default_retries. lia. }
  { intros k Hk. apply default_waits_plain. lia. }
  { intros k Hk. rewrite attempt_announced. now apply Hfail. }
  { now rewrite attempt_announced. }
  assert (Hfetch : fetch_archive c (announced c w)
                   = (Ok (Some (BytesIO (String.concat "" chunks) 0)), w2)).
  { unfold fetch_archive. now rewrite try_except_run, Hrun. }
  destruct Hset2 as (Hcwd2 & Hclock2 & _ & Hunzip2).
  cbn [announced add_event w_cwd w_clock w_unzip w_root] in Hroot2, Hcwd2,
    Hclock2, Hunzip2.
  unfold announced in Hroot2, Hcwd2, Hclock2, Hunzip2.
  cbn [add_event w_cwd w_clock w_unzip w_root] in Hroot2, Hcwd2, Hclock2,
    Hunzip2.
  assert (Hzip2 : w_unzip w2 (buf (BytesIO (String.concat "" chunks) 0))
                  = Ok zip_ref).
  { cbn [buf]. now rewrite Hunzip2. }
  (* the world the materializer starts in *)
  remember (add_event w2 (Printed MsgPreparing)) as wp eqn:Hwp.
  assert (Hroot_p : w_root wp = w_root w) by (subst wp; exact Hroot2).
  assert (Hcwd_p : w_cwd wp = w_cwd w) by (subst wp; exact Hcwd2).
  assert (Hclock_p : w_clock wp = w_clock w) by (subst wp; exact Hclock2).
  assert (Hloc_p : forall s, location wp s = location w s).
  { intros s. unfold location. now rewrite Hcwd_p. }
  destruct (materializer_delivers zip_ref pre out content rels wp)
    as (w3 & Hmat & Hfiles & Hgone & Hrest & _); auto.
  { now rewrite Hclock_p. }
  { now rewrite Hroot_p, Hloc_p. }
  { now rewrite Hroot_p, Hloc_p. }
  { now rewrite Hclock_p, (entry_at_same w wp _ Hroot_p Hcwd_p). }
  rewrite Hclock_p in Hgone.
  exists (add_event w3 (Printed (MsgSuccess out))).
  split; [|split; [|split]].
  - rewrite (orchestrator_materializes _ output_dir _ _ _ _ _ Hparse Hfetch Hzip2).
    rewrite <- Hwp, <- Hchosen, <- Hpre.
    rewrite try_except_run, bind_run. unfold lift, archive_filter.
    rewrite Hsel. destruct rels as [|r rels']; [contradiction|].
    cbn [map]. cbn [map] in Hmat. rewrite bind_run, Hmat. reflexivity.
  - exact Hfiles.
  - exact Hgone.
  - intros name Hname Hnot. rewrite <- (entry_at_same w wp _ Hroot_p Hcwd_p).
    exact (Hrest name Hname Hnot).
Qed.

Lemma run_delivers_the_folder_witness :
  let w := Examples.before in
  exists w',
    download_github_folder Examples.widgets_url (Some "out") w = (Ok true, w')
    /\ entry_at w' "out/a.txt" = Some (File "AAA")
    /\ entry_at w' "out/sub/b.txt" = Some (File "BBB")
    /\ exists_ (w_root w') (w_cwd w') "temp_extract_5" = false
    /\ entry_at w' "out/keep.txt" = Some (File "kept").
Proof.
  intros w.
  set (content := fun r => if String.eqb r "a.txt" then "AAA" else "BBB").
  destruct (run_delivers_the_folder Examples.widgets_url (Some "out")
              (Coordinates "acme" "widgets" "v2" "src/lib") w 0 ["PK"]
              Examples.widgets content ["a.txt"; "sub/b.txt"])
    as (w' & Hrun & Hfiles & Hgone & Hrest).
  - vm_compute. reflexivity.
  - lia.
  - intros k Hk. lia.
  - reflexivity.
  - reflexivity.
  - reflexivity.
  - discriminate.
  - reflexivity.
  - discriminate.
  - intros r [<- | [<- | []]]; split; reflexivity.
  - intros r1 r2 [<- | [<- | []]] [<- | [<- | []]]; cbn;
      solve [reflexivity | discriminate].
  - intros r [<- | [<- | []]]; eexists; split; reflexivity.
  - reflexivity.
  - reflexivity.
  - reflexivity.
  - exists w'. split; [exact Hrun|].
    split; [exact (Hfiles "a.txt" (or_introl eq_refl))|].
    split; [exact (Hfiles "sub/b.txt" (or_intror (or_introl eq_refl)))|].
    split; [exact Hgone|].
    transitivity (entry_at w "out/keep.txt"); [|reflexivity].
    apply (Hrest "keep.txt" eq_refl).
    intros r [<- | [<- | []]]; discriminate.
Defined.

End RunThatDelivers.
